(** * Workspace manager: sanitizer, path repair, tree building and the
      DockerManager operations, embedded from the TypeScript sources.

    The repository carries two generations of the server:
    - the current one: the socket/HTTP layer with [ultraCleanContent],
      [fixIncompleteExtension] and [toTree], and the [DockerManager] class
      that owns [fixIncompleteExtension] and [ultraCleanContent] as private
      methods;
    - an earlier one under [server/]: [index.ts] (with the [ContainerService]
      class) and [server/src/Docker/DockerManager.ts].

    A JavaScript string is a sequence of UTF-16 code units; regular
    expressions without the [u] flag, [endsWith], [includes], [replace] and
    [split] all work on code units, so strings are lists of code units. *)

From Stdlib Require Import ZArith NArith Ascii String Lia DecimalString DecimalN.
From stdpp Require Import gmap list strings.

Set Warnings "-register-all".

Open Scope N_scope.
Open Scope list_scope.

(** ** JavaScript strings *)

Module JsString.

Definition jsstr := list N.

(** A literal of the source, as code units (source literals are ASCII). *)
Definition js (s : string) : jsstr :=
  List.map N_of_ascii (list_ascii_of_string s).

(** [s.startsWith(p)] *)
Fixpoint startsWith (s p : jsstr) {struct p} : bool :=
  match p, s with
  | [], _ => true
  | _ :: _, [] => false
  | b :: p', a :: s' => (a =? b) && startsWith s' p'
  end.

(** [s.endsWith(p)]: the last [p.length] code units of [s] are [p]. *)
Definition endsWith (s p : jsstr) : bool :=
  (length p <=? length s)%nat &&
  startsWith (drop (length s - length p)%nat s) p.

(** [s.includes(p)] *)
Fixpoint includes (s p : jsstr) : bool :=
  startsWith s p ||
  match s with
  | [] => false
  | _ :: s' => includes s' p
  end.

(** [s.replace(p, r)] with a string pattern: only the first occurrence of
    [p] is replaced.  (The replacement strings of the sources hold no [$],
    so no replacement pattern is expanded.) *)
Fixpoint replace (s p r : jsstr) : jsstr :=
  if startsWith s p then r ++ drop (length p) s
  else match s with
       | [] => []
       | a :: s' => a :: replace s' p r
       end.

(** [s.split(sep)] for a one-unit separator: never the empty array. *)
Fixpoint split (sep : N) (s : jsstr) : list jsstr :=
  match s with
  | [] => [[]]
  | a :: s' =>
      if a =? sep then [] :: split sep s'
      else match split sep s' with
           | [] => [[a]]
           | w :: ws => (a :: w) :: ws
           end
  end.

(** Truthiness of a string: [!s] holds exactly for the empty string. *)
Definition falsy (s : jsstr) : bool :=
  match s with [] => true | _ => false end.

(** [s.startsWith('/') ? s.slice(1) : s] *)
Definition stripLeadingSlash (s : jsstr) : jsstr :=
  match s with
  | 47 :: s' => s'
  | _ => s
  end.

End JsString.
Import JsString.

(** ** Path repair

    [fixIncompleteExtension] is the same code in the socket layer and in
    [DockerManager]. *)

(** [extensionMap], in the order [Object.entries] enumerates it (insertion
    order: no key is an integer index). *)
Definition extensionMap : list (jsstr * jsstr) :=
  [ (js ".j", js ".js");   (js ".t", js ".ts");    (js ".p", js ".py");
    (js ".c", js ".cpp");  (js ".h", js ".hpp");   (js ".ja", js ".java");
    (js ".ph", js ".php"); (js ".r", js ".rb");    (js ".g", js ".go");
    (js ".ru", js ".rust"); (js ".sw", js ".swift"); (js ".k", js ".kt");
    (js ".s", js ".sh");   (js ".ht", js ".html"); (js ".cs", js ".css");
    (js ".jso", js ".json"); (js ".x", js ".xml"); (js ".m", js ".md");
    (js ".y", js ".yml");  (js ".do", js ".dockerfile") ].

(** The [for ... of Object.entries(extensionMap)] loop with its early
    [return]. *)
Fixpoint fixWith (table : list (jsstr * jsstr)) (filePath : jsstr) : jsstr :=
  match table with
  | [] => filePath
  | (incomplete, complete) :: rest =>
      if endsWith filePath incomplete && negb (endsWith filePath complete)
      then replace filePath incomplete complete
      else fixWith rest filePath
  end.

Definition fixIncompleteExtension (filePath : jsstr) : jsstr :=
  fixWith extensionMap filePath.

(** ** The runtime's JSON object

    [JSON.parse] and [JSON.stringify(value, null, 2)] are built-ins of the
    JavaScript runtime; they are modelled after ECMA-262 (sections
    JSON.parse, SerializeJSONProperty, QuoteJSONString).  A Number is kept as
    the literal it was read from: its double-precision value is only ever
    observed through [JSON.stringify], whose rendering of a number is the
    parameter [NumberToString] of the serializer. *)

Module JSON.

Inductive json : Type :=
| JNull
| JBool (b : bool)
| JNumber (literal : jsstr)
| JString (s : jsstr)
| JArray (items : list json)
| JObject (members : list (jsstr * json)).  (* in property enumeration order *)

(** *** Lexical grammar *)

Inductive token : Type :=
| TLBrace | TRBrace | TLBracket | TRBracket | TColon | TComma
| TStr (s : jsstr)
| TNum (literal : jsstr)
| TTrue | TFalse | TNull.

Definition is_digit (c : N) : bool := (48 <=? c) && (c <=? 57).
Definition is_lower (c : N) : bool := (97 <=? c) && (c <=? 122).
Definition is_ws (c : N) : bool :=
  (c =? 32) || (c =? 9) || (c =? 10) || (c =? 13).
Definition is_number_unit (c : N) : bool :=
  is_digit c || (c =? 45) || (c =? 43) || (c =? 46) || (c =? 101) || (c =? 69).

Definition hex_value (c : N) : option N :=
  if is_digit c then Some (c - 48)
  else if (97 <=? c) && (c <=? 102) then Some (c - 87)
  else if (65 <=? c) && (c <=? 70) then Some (c - 55)
  else None.

Fixpoint skip_digits (s : jsstr) : jsstr :=
  match s with
  | c :: s' => if is_digit c then skip_digits s' else s
  | [] => []
  end.

(** A number: an optional minus, then 0 or a digit string without a leading
    zero, then an optional fraction (a dot and digits), then an optional
    exponent (e or E, an optional sign, digits). *)
Definition int_part (s : jsstr) : option jsstr :=
  match s with
  | 48 :: r => Some r
  | c :: r => if is_digit c then Some (skip_digits r) else None
  | [] => None
  end.

Definition frac_part (s : jsstr) : option jsstr :=
  match s with
  | 46 :: c :: r => if is_digit c then Some (skip_digits r) else None
  | 46 :: [] => None
  | _ => Some s
  end.

Definition digits1 (s : jsstr) : option jsstr :=
  match s with
  | c :: r => if is_digit c then Some (skip_digits r) else None
  | [] => None
  end.

Definition exp_part (s : jsstr) : option jsstr :=
  match s with
  | c :: r =>
      if (c =? 101) || (c =? 69) then
        match r with
        | d :: r' => if (d =? 43) || (d =? 45) then digits1 r' else digits1 r
        | [] => None
        end
      else Some s
  | [] => Some s
  end.

Definition valid_number (s : jsstr) : bool :=
  let unsigned := match s with 45 :: r => r | _ => s end in
  match int_part unsigned with
  | Some r =>
      match frac_part r with
      | Some r' => match exp_part r' with Some [] => true | _ => false end
      | None => false
      end
  | None => false
  end.

Definition keyword (w : jsstr) : option token :=
  if bool_decide (w = js "true") then Some TTrue
  else if bool_decide (w = js "false") then Some TFalse
  else if bool_decide (w = js "null") then Some TNull
  else None.

(** The scanner is a machine over the code units. *)
Inductive lexmode : Type :=
| LIdle
| LStr (acc : jsstr)                    (* inside a string; [acc] is reversed *)
| LEsc (acc : jsstr)                    (* after a backslash *)
| LHex (k : nat) (v : N) (acc : jsstr)  (* [S k] hex digits of a \u escape to come *)
| LNum (acc : jsstr)                    (* inside a number *)
| LWord (acc : jsstr).                  (* inside true, false or null *)

(** A code unit met between tokens. *)
Definition lex_idle (c : N) : option (list token * lexmode) :=
  if is_ws c then Some ([], LIdle)
  else if c =? 123 then Some ([TLBrace], LIdle)
  else if c =? 125 then Some ([TRBrace], LIdle)
  else if c =? 91 then Some ([TLBracket], LIdle)
  else if c =? 93 then Some ([TRBracket], LIdle)
  else if c =? 58 then Some ([TColon], LIdle)
  else if c =? 44 then Some ([TComma], LIdle)
  else if c =? 34 then Some ([], LStr [])
  else if (c =? 45) || is_digit c then Some ([], LNum [c])
  else if is_lower c then Some ([], LWord [c])
  else None.

Definition lex_escape (c : N) : option N :=
  if c =? 34 then Some 34          (* quote *)
  else if c =? 92 then Some 92     (* backslash *)
  else if c =? 47 then Some 47     (* slash *)
  else if c =? 98 then Some 8      (* escape b *)
  else if c =? 102 then Some 12    (* escape f *)
  else if c =? 110 then Some 10    (* escape n *)
  else if c =? 114 then Some 13    (* escape r *)
  else if c =? 116 then Some 9     (* escape t *)
  else None.

Definition finish_number (acc : jsstr) : option token :=
  let lit := rev acc in
  if valid_number lit then Some (TNum lit) else None.

Definition lex_step (m : lexmode) (c : N) : option (list token * lexmode) :=
  match m with
  | LIdle => lex_idle c
  | LStr acc =>
      if c =? 34 then Some ([TStr (rev acc)], LIdle)
      else if c =? 92 then Some ([], LEsc acc)
      else if c <? 32 then None
      else Some ([], LStr (c :: acc))
  | LEsc acc =>
      if c =? 117 then Some ([], LHex 3 0 acc)
      else match lex_escape c with
           | Some u => Some ([], LStr (u :: acc))
           | None => None
           end
  | LHex k v acc =>
      match hex_value c with
      | Some d =>
          match k with
          | O => Some ([], LStr ((v * 16 + d) :: acc))
          | S k' => Some ([], LHex k' (v * 16 + d) acc)
          end
      | None => None
      end
  | LNum acc =>
      if is_number_unit c then Some ([], LNum (c :: acc))
      else match finish_number acc, lex_idle c with
           | Some t, Some (ts, m') => Some (t :: ts, m')
           | _, _ => None
           end
  | LWord acc =>
      if is_lower c then Some ([], LWord (c :: acc))
      else match keyword (rev acc), lex_idle c with
           | Some t, Some (ts, m') => Some (t :: ts, m')
           | _, _ => None
           end
  end.

Definition lex_end (m : lexmode) : option (list token) :=
  match m with
  | LIdle => Some []
  | LNum acc => option_map (fun t => [t]) (finish_number acc)
  | LWord acc => option_map (fun t => [t]) (keyword (rev acc))
  | LStr _ | LEsc _ | LHex _ _ _ => None
  end.

Fixpoint lex (m : lexmode) (s : jsstr) : option (list token) :=
  match s with
  | [] => lex_end m
  | c :: s' =>
      match lex_step m c with
      | Some (ts, m') => option_map (app ts) (lex m' s')
      | None => None
      end
  end.

(** *** Objects: [CreateDataProperty] and the order of own keys *)

(** An array index is a canonical numeric string below 2^32 - 1. *)
Fixpoint decimal_value (acc : N) (s : jsstr) : option N :=
  match s with
  | [] => Some acc
  | c :: s' => if is_digit c then decimal_value (acc * 10 + (c - 48)) s' else None
  end.

Definition array_index (k : jsstr) : option N :=
  match k with
  | [] => None
  | [48] => Some 0
  | 48 :: _ => None
  | _ =>
      if (List.length k <=? 10)%nat then
        match decimal_value 0 k with
        | Some n => if n <? 4294967295 then Some n else None
        | None => None
        end
      else None
  end.

Fixpoint has_key (k : jsstr) (o : list (jsstr * json)) : bool :=
  match o with
  | [] => false
  | (k', _) :: o' => bool_decide (k' = k) || has_key k o'
  end.

Fixpoint replace_value (k : jsstr) (v : json) (o : list (jsstr * json))
  : list (jsstr * json) :=
  match o with
  | [] => []
  | (k', v') :: o' =>
      if bool_decide (k' = k) then (k', v) :: o'
      else (k', v') :: replace_value k v o'
  end.

(** A new index key goes before the first key that is a larger index or no
    index at all; a new string key goes last. *)
Fixpoint insert_index (n : N) (k : jsstr) (v : json) (o : list (jsstr * json))
  : list (jsstr * json) :=
  match o with
  | [] => [(k, v)]
  | (k', v') :: o' =>
      match array_index k' with
      | Some n' =>
          if n <? n' then (k, v) :: o else (k', v') :: insert_index n k v o'
      | None => (k, v) :: o
      end
  end.

Definition set_property (k : jsstr) (v : json) (o : list (jsstr * json))
  : list (jsstr * json) :=
  if has_key k o then replace_value k v o
  else match array_index k with
       | Some n => insert_index n k v o
       | None => o ++ [(k, v)]
       end.

(** *** Syntactic grammar: a machine over the tokens with a stack of the
    open arrays and objects *)

Inductive frame : Type :=
| FArray (items : list json)                           (* reversed *)
| FObject (members : list (jsstr * json)) (key : jsstr).

Inductive expect : Type :=
| EValue         (* at the start, after [,] in an array, after [:] *)
| EValueOrEnd    (* after [[] *)
| EKeyOrEnd      (* after [{] *)
| EKey           (* after [,] in an object *)
| EColon         (* after a key *)
| ECommaOrEnd    (* after a value inside an array or object *)
| EDone (v : json).

Definition complete (v : json) (stack : list frame) : expect * list frame :=
  match stack with
  | [] => (EDone v, [])
  | FArray items :: rest => (ECommaOrEnd, FArray (v :: items) :: rest)
  | FObject members key :: rest =>
      (ECommaOrEnd, FObject (set_property key v members) key :: rest)
  end.

Definition start_value (t : token) (stack : list frame)
  : option (expect * list frame) :=
  match t with
  | TStr s => Some (complete (JString s) stack)
  | TNum l => Some (complete (JNumber l) stack)
  | TTrue => Some (complete (JBool true) stack)
  | TFalse => Some (complete (JBool false) stack)
  | TNull => Some (complete JNull stack)
  | TLBracket => Some (EValueOrEnd, FArray [] :: stack)
  | TLBrace => Some (EKeyOrEnd, FObject [] [] :: stack)
  | _ => None
  end.

Definition parse_step (e : expect) (stack : list frame) (t : token)
  : option (expect * list frame) :=
  match e, t, stack with
  | EValue, _, _ => start_value t stack
  | EValueOrEnd, TRBracket, FArray items :: rest =>
      Some (complete (JArray (rev items)) rest)
  | EValueOrEnd, _, _ => start_value t stack
  | EKeyOrEnd, TRBrace, FObject members _ :: rest =>
      Some (complete (JObject members) rest)
  | (EKeyOrEnd | EKey), TStr k, FObject members _ :: rest =>
      Some (EColon, FObject members k :: rest)
  | EColon, TColon, _ => Some (EValue, stack)
  | ECommaOrEnd, TComma, FArray _ :: _ => Some (EValue, stack)
  | ECommaOrEnd, TComma, FObject _ _ :: _ => Some (EKey, stack)
  | ECommaOrEnd, TRBracket, FArray items :: rest =>
      Some (complete (JArray (rev items)) rest)
  | ECommaOrEnd, TRBrace, FObject members _ :: rest =>
      Some (complete (JObject members) rest)
  | _, _, _ => None
  end.

Fixpoint parse_tokens (e : expect) (stack : list frame) (ts : list token)
  : option json :=
  match ts with
  | [] => match e with EDone v => Some v | _ => None end
  | t :: ts' =>
      match parse_step e stack t with
      | Some (e', stack') => parse_tokens e' stack' ts'
      | None => None
      end
  end.

(** [JSON.parse(text)]: [None] stands for the [SyntaxError] it throws. *)
Definition parse (text : jsstr) : option json :=
  match lex LIdle text with
  | Some ts => parse_tokens EValue [] ts
  | None => None
  end.

(** *** [JSON.stringify(value, null, 2)] *)

Definition hex_digit (d : N) : N := if d <? 10 then 48 + d else 87 + d.

Definition unicode_escape (c : N) : jsstr :=
  [92; 117; hex_digit (c / 4096 mod 16); hex_digit (c / 256 mod 16);
   hex_digit (c / 16 mod 16); hex_digit (c mod 16)].

Definition is_high_surrogate (c : N) : bool := (55296 <=? c) && (c <=? 56319).
Definition is_low_surrogate (c : N) : bool := (56320 <=? c) && (c <=? 57343).

Definition quote_unit (c : N) : jsstr :=
  if c =? 8 then [92; 98]
  else if c =? 9 then [92; 116]
  else if c =? 10 then [92; 110]
  else if c =? 12 then [92; 102]
  else if c =? 13 then [92; 114]
  else if c =? 34 then [92; 34]
  else if c =? 92 then [92; 92]
  else if c <? 32 then unicode_escape c
  else [c].

(** Well-formed surrogate pairs pass; a lone surrogate is escaped. *)
Fixpoint quote_units (s : jsstr) : jsstr :=
  match s with
  | [] => []
  | c :: s' =>
      if is_high_surrogate c then
        match s' with
        | d :: s'' =>
            if is_low_surrogate d then c :: d :: quote_units s''
            else unicode_escape c ++ quote_units s'
        | [] => unicode_escape c
        end
      else if is_low_surrogate c then unicode_escape c ++ quote_units s'
      else quote_unit c ++ quote_units s'
  end.

Definition QuoteJSONString (s : jsstr) : jsstr := 34 :: quote_units s ++ [34].

Fixpoint join (sep : jsstr) (parts : list jsstr) : jsstr :=
  match parts with
  | [] => []
  | [p] => p
  | p :: ps => p ++ sep ++ join sep ps
  end.

Definition gap : jsstr := [32; 32].

Section Stringify.

(** The rendering of the Number a literal denotes ([Number::toString], or
    [null] when the value is not finite). *)
Variable NumberToString : jsstr -> jsstr.

Fixpoint serialize (indent : jsstr) (v : json) : jsstr :=
  match v with
  | JNull => js "null"
  | JBool true => js "true"
  | JBool false => js "false"
  | JNumber l => NumberToString l
  | JString s => QuoteJSONString s
  | JArray [] => js "[]"
  | JArray items =>
      let inner := indent ++ gap in
      [91; 10] ++ inner
        ++ join ([44; 10] ++ inner) (List.map (serialize inner) items)
        ++ [10] ++ indent ++ [93]
  | JObject [] => js "{}"
  | JObject members =>
      let inner := indent ++ gap in
      [123; 10] ++ inner
        ++ join ([44; 10] ++ inner)
             (List.map (fun kv => QuoteJSONString (fst kv) ++ [58; 32]
                                    ++ serialize inner (snd kv)) members)
        ++ [10] ++ indent ++ [125]
  end.

Definition stringify (v : json) : jsstr := serialize [] v.

End Stringify.

End JSON.

(** ** Regular-expression replacements of the sanitizers *)

(** [s.replace(/[class]/g, '')]: every code unit of the class is dropped. *)
Definition removeAll (class : N -> bool) (s : jsstr) : jsstr :=
  List.filter (fun c => negb (class c)) s.

(** [[\x00-\x08\x0B\x0C\x0E-\x1F\x7F-\xFF]] *)
Definition controlOrHigh (c : N) : bool :=
  (c <=? 8) || (c =? 11) || (c =? 12) || ((14 <=? c) && (c <=? 31))
  || ((127 <=? c) && (c <=? 255)).

(** [s.replace(/\r\n/g, '\n')] *)
Fixpoint replaceCRLF (s : jsstr) : jsstr :=
  match s with
  | [] => []
  | c :: s' =>
      match s' with
      | d :: s'' =>
          if (c =? 13) && (d =? 10) then 10 :: replaceCRLF s''
          else c :: replaceCRLF s'
      | [] => [c]
      end
  end.

(** [s.replace(/\r/g, '\n')] *)
Definition replaceCR (s : jsstr) : jsstr :=
  List.map (fun c => if c =? 13 then 10 else c) s.

(** The object literal both copies of [ultraCleanContent] fall back to. *)
Definition packageDefault : JSON.json :=
  JSON.JObject
    [ (js "name", JSON.JString (js "test"));
      (js "version", JSON.JString (js "1.0.0"));
      (js "main", JSON.JString (js "index.js"));
      (js "type", JSON.JString (js "module"));
      (js "scripts",
        JSON.JObject
          [ (js "test",
              JSON.JString (js "echo " ++ [34] ++ js "Error: no test specified"
                              ++ [34] ++ js " && exit 1")) ]);
      (js "keywords", JSON.JArray []);
      (js "author", JSON.JString []);
      (js "license", JSON.JString (js "ISC"));
      (js "description", JSON.JString []) ].

(** [Buffer.from(s, 'utf8')]: the UTF-8 bytes of a string; a surrogate that
    is not part of a pair is encoded as U+FFFD. *)
Definition utf8_of_code_point (c : N) : list N :=
  if c <? 128 then [c]
  else if c <? 2048 then [192 + c / 64; 128 + c mod 64]
  else if c <? 65536 then
    [224 + c / 4096; 128 + (c / 64) mod 64; 128 + c mod 64]
  else [240 + c / 262144; 128 + (c / 4096) mod 64;
        128 + (c / 64) mod 64; 128 + c mod 64].

Fixpoint utf8_encode (s : jsstr) : list N :=
  match s with
  | [] => []
  | c :: s' =>
      if JSON.is_high_surrogate c then
        match s' with
        | d :: s'' =>
            if JSON.is_low_surrogate d
            then utf8_of_code_point (65536 + (c - 55296) * 1024 + (d - 56320))
                   ++ utf8_encode s''
            else utf8_of_code_point 65533 ++ utf8_encode s'
        | [] => utf8_of_code_point 65533
        end
      else if JSON.is_low_surrogate c
      then utf8_of_code_point 65533 ++ utf8_encode s'
      else utf8_of_code_point c ++ utf8_encode s'
  end.

(** ** The socket and HTTP layer (current generation) *)

Module Index.

Section WithRuntime.

Variable NumberToString : jsstr -> jsstr.

(** [[^\x20-\x7E\x09\x0A\x0D]] *)
Definition unsafe (c : N) : bool :=
  negb (((32 <=? c) && (c <=? 126)) || (c =? 9) || (c =? 10) || (c =? 13)).

Definition ultraCleanContent (content filePath : jsstr) : jsstr :=
  if falsy content then []
  else
    let cleaned := content in
    (* Keep ONLY safe ASCII characters + \n + \t *)
    let cleaned := removeAll unsafe cleaned in
    (* Remove control characters but keep newlines and tabs *)
    let cleaned := removeAll controlOrHigh cleaned in
    (* Normalize line endings *)
    let cleaned := replaceCR (replaceCRLF cleaned) in
    (* Special handling for JSON files *)
    if includes filePath (js ".json") || includes filePath (js "package") then
      match JSON.parse cleaned with
      | Some parsed => JSON.stringify NumberToString parsed
      | None =>
          if includes filePath (js "package.json")
          then JSON.stringify NumberToString packageDefault
          else js "{}"
      end
    else cleaned.

End WithRuntime.

(** *** [toTree] (the same code in both generations of [index.ts]) *)

(** A value of the tree: [null] for a file, [{}] for a directory. *)
Inductive node : Type :=
| NullLeaf
| EmptyObject.

(** The prototype of the tree object: [Object.prototype] at first; the
    [__proto__] setter it inherits can replace it. *)
Inductive prototype : Type :=
| ObjectPrototype
| FreshObject      (* a new [{}], itself inheriting [Object.prototype] *)
| NullPrototype.

Record TreeObject : Type := mkTree {
  own : gmap jsstr node;     (* own enumerable properties: what [res.json] sends *)
  proto : prototype
}.

Definition emptyTree : TreeObject := mkTree ∅ ObjectPrototype.

(** [tree[name] = value] on an ordinary object.  Every property of
    [Object.prototype] but [__proto__] is a writable data property, so the
    assignment defines an own property; [__proto__] is an accessor whose
    setter, while it is inherited, replaces the prototype and defines
    nothing. *)
Definition assign (name : jsstr) (value : node) (tree : TreeObject) : TreeObject :=
  if bool_decide (name = js "__proto__") then
    match own tree !! name, proto tree with
    | Some _, _ | None, NullPrototype => mkTree (<[name := value]> (own tree)) (proto tree)
    | None, _ =>
        mkTree (own tree)
               (match value with NullLeaf => NullPrototype | EmptyObject => FreshObject end)
    end
  else mkTree (<[name := value]> (own tree)) (proto tree).

(** [Array.from(new Set(items))]: the first occurrence of each string, in
    order. *)
Fixpoint uniqueFrom (seen : list jsstr) (items : list jsstr) : list jsstr :=
  match items with
  | [] => []
  | x :: rest =>
      if bool_decide (x ∈ seen) then uniqueFrom seen rest
      else x :: uniqueFrom (x :: seen) rest
  end.

Definition uniqueItems (items : list jsstr) : list jsstr := uniqueFrom [] items.

(** The body of the [for (const item of uniqueItems)] loop. *)
Definition addItem (tree : TreeObject) (item : jsstr) : TreeObject :=
  if falsy item then tree
  else
    let parts := split 124 item in
    match parts !! 0%nat, parts !! 1%nat with
    | Some name, Some type =>
        if falsy name || falsy type then tree
        else assign name
               (if bool_decide (type = js "d") then EmptyObject else NullLeaf) tree
    | _, _ => tree      (* [type] is [undefined] *)
    end.

Definition toTree (items : list jsstr) : TreeObject :=
  foldl addItem emptyTree (uniqueItems items).

End Index.

(** ** Asynchronous programs over the isolation runtime

    Every [await] of the sources is a call into the runtime (dockerode, the
    [fs] module, a stream, a timer); the runtime answers by resolving or by
    rejecting.  A method is embedded as the tree of its calls; the manager's
    two maps are the state the tree reads and writes.  Console output is not
    part of the model. *)

Module Runtime.

Record Error : Type := mkError {
  message : jsstr;
  statusCode : option Z
}.

Definition newError (msg : jsstr) : Error := mkError msg None.

Inductive Res (R : Type) : Type :=
| Resolved (r : R)
| Rejected (e : Error).
Arguments Resolved {R} r.
Arguments Rejected {R} e.

(** Handles the runtime hands out. *)
Definition Container := N.
Definition Exec := N.
Definition Stream := N.

Record ExecOptions : Type := mkExec {
  Cmd : list jsstr;
  AttachStdout : bool;
  AttachStderr : bool;
  AttachStdin : bool;
  ExecTty : bool;
  ExecUser : option jsstr
}.

Record StartOptions : Type := mkStart {
  hijack : bool;
  stdin : bool;
  StartTty : bool
}.

Record HostConfig : Type := mkHost {
  Memory : N;
  CpuShares : N;
  AutoRemove : bool;
  Binds : list jsstr
}.

Record ContainerConfig : Type := mkConfig {
  Image : jsstr;
  name : jsstr;
  ConfigCmd : list jsstr;
  Tty : bool;
  OpenStdin : bool;
  WorkingDir : jsstr;
  User : jsstr;
  Env : list jsstr;
  ExposedPorts : list jsstr;
  Host : HostConfig
}.

(** The single entry of the archive [tar.pack()] builds. *)
Record TarEntry : Type := mkEntry {
  entryName : jsstr;
  entrySize : nat;
  entryMode : N;
  entryData : list N      (* the bytes of the content buffer *)
}.

(** What a timer or a socket is asked to do later. *)
Inductive Deferred : Type :=
| WriteAll (s : Stream) (chunks : list jsstr)
| EmitRefresh
| ResolvePromise.

Inductive SocketEvent : Type :=
| FileRefresh
| FileError (path : jsstr) (error : jsstr)
| FileSaved (path : jsstr) (success : bool) (error : option jsstr).

Inductive Call : Type -> Type :=
| FsStat (path : jsstr) : Call unit
| FsMkdir (path : jsstr) : Call unit
| FsChmod (path : jsstr) (mode : N) : Call unit
| CreateContainer (config : ContainerConfig) : Call Container
| ContainerStart (c : Container) : Call unit
| ContainerExec (c : Container) (options : ExecOptions) : Call Exec
| ExecStart (e : Exec) (options : StartOptions) : Call Stream
| ExecInspect (e : Exec) : Call (option Z)            (* [inspect.ExitCode] *)
| StreamData (s : Stream) : Call (list jsstr)         (* the ['data'] chunks up to ['end'];
                                                         rejected: the ['error'] event *)
| StreamEnd (s : Stream) : Call unit                  (* [stream.end()] *)
| PutArchive (c : Container) (entry : TarEntry) (path : jsstr) : Call unit
| ContainerStop (c : Container) : Call unit
| ContainerRemove (c : Container) : Call unit
| SetTimeout (action : Deferred) (ms : N) : Call unit
| SocketEmit (event : SocketEvent) : Call unit.

Section Programs.

(** [S]: the state the program reads and writes between calls. *)
Context {S : Type}.

Inductive Prog (A : Type) : Type :=
| Ret (a : A)
| Throw (e : Error)
| Get (k : S -> Prog A)
| Put (s : S) (k : Prog A)
| Await {R : Type} (c : Call R) (k : Res R -> Prog A)
| Uncaught (e : Error).   (* an ['error'] event without a listener *)

Arguments Ret {A} a.
Arguments Throw {A} e.
Arguments Get {A} k.
Arguments Put {A} s k.
Arguments Await {A R} c k.
Arguments Uncaught {A} e.

Fixpoint bind {A B : Type} (p : Prog A) (f : A -> Prog B) : Prog B :=
  match p with
  | Ret a => f a
  | Throw e => Throw e
  | Get k => Get (fun s => bind (k s) f)
  | Put s k => Put s (bind k f)
  | Await c k => Await c (fun r => bind (k r) f)
  | Uncaught e => Uncaught e
  end.

(** [try { p } catch (e) { h e }] *)
Fixpoint try_catch {A : Type} (p : Prog A) (h : Error -> Prog A) : Prog A :=
  match p with
  | Ret a => Ret a
  | Throw e => h e
  | Get k => Get (fun s => try_catch (k s) h)
  | Put s k => Put s (try_catch k h)
  | Await c k => Await c (fun r => try_catch (k r) h)
  | Uncaught e => Uncaught e
  end.

(** [await call]: a rejection is thrown at the [await]. *)
Definition await {R : Type} (c : Call R) : Prog R :=
  Await c (fun r => match r with Resolved x => Ret x | Rejected e => Throw e end).

Definition modify (f : S -> S) : Prog unit :=
  Get (fun s => Put (f s) (Ret tt)).

(** An environment answers each call and moves to its next state. *)
Record Environment : Type := mkEnv {
  world : Type;
  respond : forall R : Type, world -> Call R -> Res R * world
}.

Inductive Outcome (A : Type) : Type :=
| Returned (a : A)
| Threw (e : Error)
| Crashed (e : Error).
Arguments Returned {A} a.
Arguments Threw {A} e.
Arguments Crashed {A} e.

Fixpoint run {A : Type} (E : Environment) (p : Prog A) (s : S) (w : world E)
  : Outcome A * S * world E :=
  match p with
  | Ret a => (Returned a, s, w)
  | Throw e => (Threw e, s, w)
  | Get k => run E (k s) s w
  | Put s' k => run E k s' w
  | Await c k => let '(r, w') := respond E _ w c in run E (k r) s w'
  | Uncaught e => (Crashed e, s, w)
  end.

End Programs.

Arguments Prog S A : clear implicits.
Arguments Ret {S A} a.
Arguments Throw {S A} e.
Arguments Get {S A} k.
Arguments Put {S A} s k.
Arguments Await {S A R} c k.
Arguments Uncaught {S A} e.
Arguments Returned {A} a.
Arguments Threw {A} e.
Arguments Crashed {A} e.

#[global] Instance prog_ret {S} : MRet (Prog S) := fun A a => Ret a.
#[global] Instance prog_bind {S} : MBind (Prog S) := fun A B f p => bind p f.

End Runtime.

Import Runtime.

(** ** Helpers shared by the two generations of [DockerManager] *)

(** [path.resolve(process.cwd(), name)] for a plain segment: the working
    directory is absolute and normalized, so the segment is appended after
    one separator. *)
Definition path_resolve (cwd segment : jsstr) : jsstr :=
  if endsWith cwd (js "/") then cwd ++ segment else cwd ++ js "/" ++ segment.

(** [[\x00-\x1f\x7f-\x9f]] *)
Definition c0c1 (c : N) : bool := (c <=? 31) || ((127 <=? c) && (c <=? 159)).

Definition is_letter (c : N) : bool :=
  ((97 <=? c) && (c <=? 122)) || ((65 <=? c) && (c <=? 90)).

Fixpoint csiParameters (s : jsstr) : nat :=
  match s with
  | c :: s' => if JSON.is_digit c || (c =? 59) then S (csiParameters s') else O
  | [] => O
  end.

(** The length of the match of [\x1b\[[0-9;]*[a-zA-Z]] at the start of [s]:
    the greedy parameter run is never a letter, so giving some of it back
    cannot make the final letter match. *)
Definition csiMatch (s : jsstr) : option nat :=
  match s with
  | 27 :: 91 :: r =>
      let n := csiParameters r in
      match drop n r with
      | c :: _ => if is_letter c then Some (3 + n)%nat else None
      | [] => None
      end
  | _ => None
  end.

(** [s.replace(/\x1b\[[0-9;]*[a-zA-Z]/g, '')]; [skip] code units of a match
    are still to be dropped. *)
Fixpoint stripAnsiFrom (skip : nat) (s : jsstr) : jsstr :=
  match s with
  | [] => []
  | c :: s' =>
      match skip with
      | S k => stripAnsiFrom k s'
      | O =>
          match csiMatch s with
          | Some n => stripAnsiFrom (n - 1) s'
          | None => c :: stripAnsiFrom O s'
          end
      end
  end.

Definition stripAnsi (s : jsstr) : jsstr := stripAnsiFrom O s.

(** The ['data'] listeners: a chunk that includes one of the phrases goes to
    [error], any other chunk to [output]. *)
Definition collect (phrases : list jsstr) (chunks : list jsstr) : jsstr * jsstr :=
  foldl (fun acc data =>
           if existsb (includes data) phrases
           then (acc.1, acc.2 ++ data)
           else (acc.1 ++ data, acc.2))
        ([], []) chunks.

Definition plainExec (cmd : list jsstr) : ExecOptions :=
  mkExec cmd true true false false None.

Definition plainStart : StartOptions := mkStart true false false.

(** ** [DockerManager], current generation *)

Module DockerManager.

Record Manager : Type := mkManager {
  userContainers : gmap jsstr Container;
  userShells : gmap jsstr Stream
}.

Definition setContainer (userId : jsstr) (c : Container) (m : Manager) : Manager :=
  mkManager (<[userId := c]> (userContainers m)) (userShells m).
Definition deleteContainer (userId : jsstr) (m : Manager) : Manager :=
  mkManager (delete userId (userContainers m)) (userShells m).
Definition setShell (userId : jsstr) (sh : Stream) (m : Manager) : Manager :=
  mkManager (userContainers m) (<[userId := sh]> (userShells m)).
Definition deleteShell (userId : jsstr) (m : Manager) : Manager :=
  mkManager (userContainers m) (delete userId (userShells m)).

Abbreviation M := (Prog Manager).

Section WithRuntime.

Variable NumberToString : jsstr -> jsstr.
Variable cwd : jsstr.       (* [process.cwd()] *)

(** [[^\x20-\x7E\x09\x0A]] *)
Definition unsafe (c : N) : bool :=
  negb (((32 <=? c) && (c <=? 126)) || (c =? 9) || (c =? 10)).

Definition ultraCleanContent (content filePath : jsstr) : jsstr :=
  if falsy content then []
  else
    let cleaned := content in
    (* Step 1: Keep ONLY safe ASCII characters + \n + \t *)
    let cleaned := removeAll unsafe cleaned in
    (* Step 2: Remove any remaining control characters *)
    let cleaned := removeAll controlOrHigh cleaned in
    (* Step 3: Normalize line endings *)
    let cleaned := replaceCR (replaceCRLF cleaned) in
    (* Step 4: Special handling for JSON files *)
    if includes filePath (js ".json") || includes filePath (js "package") then
      match JSON.parse cleaned with
      | Some parsed => JSON.stringify NumberToString parsed
      | None =>
          if includes filePath (js "package.json")
          then JSON.stringify NumberToString packageDefault
          else js "{}"
      end
    else cleaned.

Definition hostPath : jsstr := path_resolve cwd (js "user").

Definition containerConfig (userId : jsstr) : ContainerConfig :=
  {| Image := js "user-env:latest";
     name := js "user-" ++ userId;
     ConfigCmd := [js "/bin/bash"];
     Tty := true;
     OpenStdin := true;
     WorkingDir := js "/workspace";
     User := js "0:0";
     Env := [js "LANG=C.UTF-8"; js "LC_ALL=C.UTF-8"; js "TERM=xterm-256color"];
     ExposedPorts := [js "3000/tcp"];
     Host := {| Memory := 536870912;
                CpuShares := 512;
                AutoRemove := true;
                Binds := [hostPath ++ js ":/workspace:rw"] |} |}.

Definition createPersistentShell (userId : jsstr) : M unit :=
  Get (fun m =>
    match userContainers m !! userId with
    | None => Ret tt
    | Some container =>
        try_catch
          (exec ← await (ContainerExec container
                           (mkExec [js "/bin/bash"; js "-i"] true true true true None));
           stream ← await (ExecStart exec (mkStart true true true));
           modify (setShell userId stream);;
           await (SetTimeout
                    (WriteAll stream
                       [ [10] ++ js "cd /workspace" ++ [10];
                         js "export PS1='\w$ '" ++ [10];
                         js "clear" ++ [10] ])
                    100))
          (fun err => Ret tt)
    end).

Definition createUserContainer (userId : jsstr) : M Container :=
  try_catch (await (FsStat hostPath)) (fun error => await (FsMkdir hostPath));;
  try_catch (await (FsChmod hostPath 493)) (fun error => Ret tt);;
  container ← await (CreateContainer (containerConfig userId));
  await (ContainerStart container);;
  modify (setContainer userId container);;
  try_catch
    (exec ← await (ContainerExec container
                     (plainExec [js "chmod"; js "-R"; js "755"; js "/workspace"]));
     _ ← await (ExecStart exec plainStart);
     Ret tt)
    (fun error => Ret tt);;
  createPersistentShell userId;;
  Ret container.

Definition getContainer (userId : jsstr) : M (option Container) :=
  Get (fun m => Ret (userContainers m !! userId)).

Definition writeFileToContainer (userId filePath content : jsstr) : M unit :=
  Get (fun m =>
    match userContainers m !! userId with
    | None => Throw (newError (js "Container not found"))
    | Some container =>
        (* Fix extension *)
        let fixedPath := fixIncompleteExtension filePath in
        (* Ultra-clean content *)
        let cleanContent := ultraCleanContent content fixedPath in
        (* Create clean buffer *)
        let contentBuffer := utf8_encode cleanContent in
        (* Create TAR with clean path *)
        let cleanFilePath := stripLeadingSlash fixedPath in
        let pack := mkEntry cleanFilePath (List.length contentBuffer) 420 contentBuffer in
        try_catch
          (await (PutArchive container pack (js "/workspace"));;
           (* Sync filesystem *)
           try_catch
             (syncExec ← await (ContainerExec container
                                  (mkExec [js "sync"] false false false false None));
              _ ← await (ExecStart syncExec (mkStart false false false));
              Ret tt)
             (fun syncErr => Ret tt))
          (fun archiveError =>
             Throw (newError (js "File upload failed: " ++ message archiveError)))
    end).

Definition incompleteExtensions : list jsstr :=
  [ js ".j"; js ".t"; js ".p"; js ".c"; js ".h"; js ".ja"; js ".ph"; js ".r";
    js ".g"; js ".ru"; js ".sw"; js ".k"; js ".s"; js ".ht"; js ".cs";
    js ".jso"; js ".x"; js ".m"; js ".y"; js ".do" ].

(** The patterns the [find] command excludes with [! -name]. *)
Definition keptPatterns : list jsstr :=
  [ js "*.js"; js "*.ts"; js "*.py"; js "*.cpp"; js "*.hpp"; js "*.java";
    js "*.php"; js "*.rb"; js "*.go"; js "*.rust"; js "*.swift"; js "*.kt";
    js "*.sh"; js "*.html"; js "*.css"; js "*.json"; js "*.xml"; js "*.md";
    js "*.yml"; js "*.dockerfile" ].

Definition findCommand (ext : jsstr) : list jsstr :=
  [js "find"; js "/workspace"; js "-name"; js "*" ++ ext; js "-type"; js "f"]
    ++ concat (List.map (fun pat => [js "!"; js "-name"; pat]) keptPatterns)
    ++ [js "-delete"].

Fixpoint cleanupEach (container : Container) (exts : list jsstr) : M unit :=
  match exts with
  | [] => Ret tt
  | ext :: rest =>
      try_catch
        (exec ← await (ContainerExec container (plainExec (findCommand ext)));
         _ ← await (ExecStart exec plainStart);
         Ret tt)
        (fun err => Ret tt);;
      cleanupEach container rest
  end.

Definition cleanupDuplicateFiles (userId : jsstr) : M unit :=
  Get (fun m =>
    match userContainers m !! userId with
    | None => Ret tt
    | Some container =>
        try_catch (cleanupEach container incompleteExtensions) (fun err => Ret tt)
    end).

Definition readFileFromContainer (userId filePath : jsstr) : M jsstr :=
  Get (fun m =>
    match userContainers m !! userId with
    | None => Throw (newError (js "Container not found"))
    | Some container =>
        let fixedPath := fixIncompleteExtension filePath in
        let cleanPath := stripLeadingSlash fixedPath in
        let cleanPath := removeAll c0c1 cleanPath in
        exec ← await (ContainerExec container
                        (plainExec [js "cat"; js "/workspace/" ++ cleanPath]));
        stream ← await (ExecStart exec plainStart);
        (* stream.on('error', reject) *)
        chunks ← await (StreamData stream);
        let '(output, error) :=
          collect [js "No such file or directory"; js "cannot access"] chunks in
        (* stream.on('end', ...) *)
        exitCode ← await (ExecInspect exec);
        if bool_decide (exitCode = Some 0%Z) && falsy error then
          let cleanedOutput := stripAnsi output in
          let cleanedOutput := ultraCleanContent cleanedOutput filePath in
          Ret cleanedOutput
        else Throw (newError (js "File not found: " ++ cleanPath))
    end).

Definition createDirectory (userId path : jsstr) : M unit :=
  Get (fun m =>
    match userContainers m !! userId with
    | None => Throw (newError (js "Container not found"))
    | Some container =>
        exec ← await (ContainerExec container
                        (mkExec [js "mkdir"; js "-p"; js "/workspace/" ++ path]
                                true true false false (Some (js "0"))));
        stream ← await (ExecStart exec plainStart);
        chunks ← await (StreamData stream);
        let error := (collect [js "Permission denied"; js "cannot create"] chunks).2 in
        exitCode ← await (ExecInspect exec);
        if bool_decide (exitCode = Some 0%Z) && falsy error then
          try_catch
            (chmodExec ← await (ContainerExec container
                                  (mkExec [js "chmod"; js "-R"; js "755";
                                           js "/workspace/" ++ path]
                                          true true false false (Some (js "0"))));
             _ ← await (ExecStart chmodExec plainStart);
             Ret tt)
            (fun chmodError => Ret tt)
        else Throw (newError (js "Directory creation failed: " ++ error))
    end).

Definition renamePath (userId oldPath newPath : jsstr) : M unit :=
  Get (fun m =>
    match userContainers m !! userId with
    | None => Throw (newError (js "Container not found"))
    | Some container =>
        exec ← await (ContainerExec container
                        (plainExec [js "mv"; js "/workspace/" ++ oldPath;
                                    js "/workspace/" ++ newPath]));
        stream ← await (ExecStart exec plainStart);
        chunks ← await (StreamData stream);
        let '(output, error) :=
          collect [js "No such file or directory"; js "cannot move"] chunks in
        exitCode ← await (ExecInspect exec);
        if bool_decide (exitCode = Some 0%Z) && falsy error then Ret tt
        else Throw (newError (js "Rename failed: "
                                ++ (if falsy error then output else error)))
    end).

Definition deletePath (userId path : jsstr) : M unit :=
  Get (fun m =>
    match userContainers m !! userId with
    | None => Ret tt
    | Some container =>
        exec ← await (ContainerExec container
                        (mkExec [js "rm"; js "-rf"; js "/workspace/" ++ path]
                                true false false false None));
        stream ← await (ExecStart exec plainStart);
        (* only an ['end'] listener is attached *)
        Await (StreamData stream)
              (fun r => match r with
                        | Resolved _ => Ret tt
                        | Rejected e => Uncaught e
                        end)
    end).

Definition cleanupContainer (userId : jsstr) : M unit :=
  Get (fun m =>
    let container := userContainers m !! userId in
    let shell := userShells m !! userId in
    match shell with
    | Some sh =>
        try_catch (await (StreamEnd sh)) (fun err => Ret tt);;
        modify (deleteShell userId)
    | None => Ret tt
    end;;
    match container with
    | None => Ret tt
    | Some c =>
        try_catch
          (await (ContainerStop c);;
           await (ContainerRemove c);;
           modify (deleteContainer userId))
          (fun err =>
             (* a status other than 409 is only logged *)
             modify (deleteContainer userId))
    end).

End WithRuntime.

End DockerManager.

(** ** [DockerManager], earlier generation ([server/src/Docker]) *)

Module Legacy.

(** [[\x00-\x08\x0B-\x0C\x0E-\x1F\x7F]] *)
Definition asciiControl (c : N) : bool :=
  (c <=? 8) || ((11 <=? c) && (c <=? 12)) || ((14 <=? c) && (c <=? 31))
  || (c =? 127).

(** [[\u0000-\u0008\u000B\u000C\u000E-\u001F\u007F-\u009F]] *)
Definition unicodeControl (c : N) : bool :=
  (c <=? 8) || (c =? 11) || (c =? 12) || ((14 <=? c) && (c <=? 31))
  || ((127 <=? c) && (c <=? 159)).

(** [Buffer.from(s, 'utf8').toString('utf8')]: encoding turns a surrogate
    without its pair into U+FFFD, decoding gives everything else back. *)
Fixpoint reencode (s : jsstr) : jsstr :=
  match s with
  | [] => []
  | c :: s' =>
      if JSON.is_high_surrogate c then
        match s' with
        | d :: s'' =>
            if JSON.is_low_surrogate d then c :: d :: reencode s''
            else 65533 :: reencode s'
        | [] => [65533]
        end
      else if JSON.is_low_surrogate c then 65533 :: reencode s'
      else c :: reencode s'
  end.

Definition sanitize (content : jsstr) : jsstr :=
  let sanitizedContent := content in
  let sanitizedContent := removeAll asciiControl sanitizedContent in
  let sanitizedContent := removeAll unicodeControl sanitizedContent in
  let sanitizedContent := replaceCR (replaceCRLF sanitizedContent) in
  reencode sanitizedContent.

Definition writeFileToContainer (userId filePath content : jsstr)
  : DockerManager.M unit :=
  Get (fun m =>
    match DockerManager.userContainers m !! userId with
    | None => Ret tt        (* logged with console.error, then [return] *)
    | Some container =>
        let sanitizedContent := sanitize content in
        let cleanFilePath := stripLeadingSlash filePath in
        let contentBuffer := utf8_encode sanitizedContent in
        let pack := mkEntry cleanFilePath (List.length contentBuffer) 420 contentBuffer in
        try_catch (await (PutArchive container pack (js "/workspace")))
                  (fun archiveError => Throw archiveError);;
        try_catch
          (syncExec ← await (ContainerExec container
                               (mkExec [js "sync"] false false false false None));
           _ ← await (ExecStart syncExec (mkStart false false false));
           await (SetTimeout ResolvePromise 100);;
           verifyExec ← await (ContainerExec container
                                 (plainExec [js "head"; js "-c"; js "50";
                                             js "/workspace/" ++ cleanFilePath]));
           verifyStream ← await (ExecStart verifyExec plainStart);
           Await (StreamData verifyStream)
                 (fun r => match r with
                           | Resolved _ => Ret tt
                           | Rejected e => Uncaught e
                           end))
          (fun err => Ret tt)
    end).

Definition readFileFromContainer (userId filePath : jsstr) : DockerManager.M jsstr :=
  Get (fun m =>
    match DockerManager.userContainers m !! userId with
    | None => Throw (newError (js "Container not found"))
    | Some container =>
        let cleanPath := stripLeadingSlash filePath in
        let cleanPath := removeAll c0c1 cleanPath in
        exec ← await (ContainerExec container
                        (plainExec [js "cat"; js "/workspace/" ++ cleanPath]));
        stream ← await (ExecStart exec plainStart);
        chunks ← await (StreamData stream);
        let '(output, error) :=
          collect [js "No such file or directory"; js "cannot access"] chunks in
        exitCode ← await (ExecInspect exec);
        if bool_decide (exitCode = Some 0%Z) && falsy error then
          Ret (stripAnsi output)
        else Throw (newError (js "File not found: " ++ cleanPath))
    end).

Definition cleanupDuplicateFiles (userId : jsstr) : DockerManager.M unit :=
  Get (fun m =>
    match DockerManager.userContainers m !! userId with
    | None => Ret tt
    | Some container =>
        try_catch
          (exec ← await (ContainerExec container
                           (plainExec [js "find"; js "/workspace"; js "-name"; js "*.j";
                                       js "-type"; js "f"; js "!"; js "-name"; js "*.js";
                                       js "!"; js "-name"; js "*.json"; js "-delete"]));
           _ ← await (ExecStart exec plainStart);
           exec2 ← await (ContainerExec container
                            (plainExec [js "find"; js "/workspace"; js "-name"; js "*.t";
                                        js "-type"; js "f"; js "!"; js "-name"; js "*.ts";
                                        js "!"; js "-name"; js "*.txt"; js "-delete"]));
           _ ← await (ExecStart exec2 plainStart);
           Ret tt)
          (fun err => Ret tt)
    end).

(** [ContainerService.handleFileChange] over this [DockerManager]. *)
Definition handleFileChange (userId filePath content : jsstr) : DockerManager.M unit :=
  try_catch (writeFileToContainer userId filePath content) (fun error => Throw error).

(** The ['file:change'] listener of [server/index.ts]. *)
Definition onFileChange (userId path content : jsstr) : DockerManager.M unit :=
  let fixedPath :=
    if endsWith path (js ".j") && negb (endsWith path (js ".js"))
       && negb (endsWith path (js ".json"))
    then path ++ js "s" else path in
  try_catch
    (handleFileChange userId fixedPath content;;
     cleanupDuplicateFiles userId;;
     try_catch
       (Get (fun m =>
          match DockerManager.userContainers m !! userId with
          | Some container =>
              syncExec ← await (ContainerExec container
                                  (mkExec [js "sync"] false false false false None));
              _ ← await (ExecStart syncExec (mkStart false false false));
              await (SetTimeout ResolvePromise 50);;
              syncExec2 ← await (ContainerExec container
                                   (mkExec [js "sync"] false false false false None));
              _ ← await (ExecStart syncExec2 (mkStart false false false));
              Ret tt
          | None => Ret tt
          end))
       (fun syncError => Ret tt);;
     await (SetTimeout EmitRefresh 100))
    (fun error => await (SocketEmit (FileError fixedPath (message error)))).

End Legacy.

(** ** Listings ([listFiles], [listDirectory])

    Both methods run [ls -la], concatenate the chunks of the stream and
    parse the text when the stream ends.  The two generations of
    [DockerManager] differ in one constant: the one-letter extensions a
    listed name may carry. *)

Module Listing.

(** [WhiteSpace] and [LineTerminator] of ECMA-262: what [trim] strips and
    what the class [\s] matches. *)
Definition is_space (c : N) : bool :=
  ((9 <=? c) && (c <=? 13)) || (c =? 32) || (c =? 160) || (c =? 5760)
  || ((8192 <=? c) && (c <=? 8202)) || (c =? 8232) || (c =? 8233)
  || (c =? 8239) || (c =? 8287) || (c =? 12288) || (c =? 65279).

(** The string without its leading run of units of a class. *)
Fixpoint dropLeading (class : N -> bool) (s : jsstr) : jsstr :=
  match s with
  | c :: s' => if class c then dropLeading class s' else s
  | [] => []
  end.

Definition dropTrailing (class : N -> bool) (s : jsstr) : jsstr :=
  rev (dropLeading class (rev s)).

(** [s.trim()] *)
Definition trim (s : jsstr) : jsstr :=
  dropTrailing is_space (dropLeading is_space s).

Definition is_slash (c : N) : bool := c =? 47.

(** [s.replace(/^\/+/, '')] and [s.replace(/\/+$/, '')] *)
Definition stripLeadingSlashes (s : jsstr) : jsstr := dropLeading is_slash s.
Definition stripTrailingSlashes (s : jsstr) : jsstr := dropTrailing is_slash s.

(** [s.split(/\s+/)]: the pieces between the runs of white space; a run at
    either end leaves an empty piece there.  [inRun]: the unit before was
    white space. *)
Fixpoint splitSpaces (inRun : bool) (s : jsstr) : list jsstr :=
  match s with
  | [] => [[]]
  | c :: s' =>
      if is_space c then
        if inRun then splitSpaces true s' else [] :: splitSpaces true s'
      else
        match splitSpaces false s' with
        | piece :: rest => (c :: piece) :: rest
        | [] => [[c]]
        end
  end.

Definition splitWhitespace (s : jsstr) : list jsstr := splitSpaces false s.

(** [permissions.charAt(0) === 'd'] *)
Definition isDirectory (permissions : jsstr) : bool :=
  match permissions with
  | c :: _ => c =? 100
  | [] => false
  end.

(** [name.split('.').pop()] *)
Definition lastDotPiece (name : jsstr) : jsstr := List.last (split 46 name) [].

Section Parse.

(** [validSingleExtensions] (an inline array in the earlier generation). *)
Variable validSingleExtensions : list jsstr.

(** [ext && ext.length === 1 && !validSingleExtensions.includes(ext)] for a
    name that includes a dot. *)
Definition incompleteName (name : jsstr) : bool :=
  includes name (js ".")
  && (let ext := lastDotPiece name in
      negb (falsy ext) && (length ext =? 1)%nat
      && negb (bool_decide (ext ∈ validSingleExtensions))).

(** The body of the loop of [listFiles]: what a line adds to [result]. *)
Definition fileItem (line : jsstr) : option jsstr :=
  let parts := splitWhitespace (trim line) in
  if (length parts <? 9)%nat then None
  else
    let permissions := default [] (parts !! 0%nat) in
    if falsy permissions then None
    else
      let isDir := isDirectory permissions in
      let name := JSON.join (js " ") (drop 8 parts) in
      if negb (falsy name) && negb (startsWith name (js "."))
         && negb (bool_decide (name = js ".."))
         && negb (bool_decide (name = js "workspace"))
      then
        if incompleteName name then None
        else Some (name ++ js "|" ++ (if isDir then js "d" else js "f"))
      else None.

(** The body of the loop of [listDirectory]. *)
Definition directoryItem (line : jsstr) : option jsstr :=
  if falsy (trim line) then None
  else
    let parts := splitWhitespace (trim line) in
    if (length parts <? 9)%nat then None
    else
      let permissions := default [] (parts !! 0%nat) in
      if falsy permissions then None
      else
        let isDir := isDirectory permissions in
        let name := JSON.join (js " ") (drop 8 parts) in
        if negb (falsy name) && negb (startsWith name (js "."))
           && negb (bool_decide (name = js ".."))
        then
          if incompleteName name then None
          else Some (name ++ js "|" ++ (if isDir then js "d" else js "f"))
        else None.

(** The ['end'] listener of [listFiles]. *)
Definition parseFiles (output : jsstr) : list jsstr :=
  let lines := drop 1 (split 10 (trim output)) in
  omap fileItem lines.

(** The ['end'] listener of [listDirectory]. *)
Definition parseDirectory (output : jsstr) : list jsstr :=
  let lines := split 10 (trim output) in
  if (length lines <=? 1)%nat then []
  else
    let fileLines := drop 1 lines in
    omap directoryItem fileLines.

Definition listFiles (userId : jsstr) : DockerManager.M (list jsstr) :=
  Get (fun m =>
    match DockerManager.userContainers m !! userId with
    | None => Ret []
    | Some container =>
        exec ← await (ContainerExec container
                        (plainExec [js "ls"; js "-la"; js "/workspace"]));
        stream ← await (ExecStart exec plainStart);
        (* stream.on('error', reject) *)
        chunks ← await (StreamData stream);
        Ret (parseFiles (concat chunks))
    end).

(** [directoryPath] is the [path] parameter of the query, which may be
    absent. *)
Definition listDirectory (userId : jsstr) (directoryPath : option jsstr)
  : DockerManager.M (list jsstr) :=
  Get (fun m =>
    match DockerManager.userContainers m !! userId with
    | None => Ret []
    | Some container =>
        let cleanPath := default [] directoryPath in
        let cleanPath := stripTrailingSlashes (stripLeadingSlashes cleanPath) in
        let fullPath := if falsy cleanPath then js "/workspace"
                        else js "/workspace/" ++ cleanPath in
        exec ← await (ContainerExec container (plainExec [js "ls"; js "-la"; fullPath]));
        stream ← await (ExecStart exec plainStart);
        chunks ← await (StreamData stream);
        Ret (parseDirectory (concat chunks))
    end).

End Parse.

(** The constant of the current [DockerManager] and the one of the earlier. *)
Definition validSingleExtensions : list jsstr :=
  [ js "c"; js "r"; js "go"; js "h"; js "m"; js "d"; js "s"; js "f"; js "v";
    js "l"; js "y" ].

Definition legacyValidSingleExtensions : list jsstr :=
  [ js "c"; js "r"; js "go"; js "h" ].

End Listing.

(** ** The socket and HTTP layer: listeners, ids, created paths

    The current socket layer imports its [ContainerService] from
    [./src/services/ContainerService.js].  That class is not among the
    sources (the class shipped with [server/index.ts] belongs to the earlier
    generation and lacks methods this layer calls), so the one method of it
    the listeners call, [handleFileChange], is a parameter of the listeners.
    What they call on [containerService.dockerManager] is the current
    [DockerManager]. *)

Module Socket.

Section WithRuntime.

Variable NumberToString : jsstr -> jsstr.

(** [containerService.handleFileChange(userId, filePath, content)] *)
Variable handleFileChange : jsstr -> jsstr -> jsstr -> DockerManager.M unit.

(** [socket.on('file:change', async ({ path, content }) => ...)] for the
    connection of [userId]; [content] is a string. *)
Definition onFileChange (userId path content : jsstr) : DockerManager.M unit :=
  try_catch
    (let finalPath := fixIncompleteExtension path in
     let cleanContent := Index.ultraCleanContent NumberToString content finalPath in
     handleFileChange userId finalPath cleanContent;;
     DockerManager.cleanupDuplicateFiles userId;;
     await (SetTimeout EmitRefresh 100))
    (fun error => await (SocketEmit (FileError path (message error)))).

(** [socket.on('file:save', async ({ path, content }) => ...)] *)
Definition onFileSave (userId path content : jsstr) : DockerManager.M unit :=
  try_catch
    (let fixedPath := fixIncompleteExtension path in
     let cleanContent := Index.ultraCleanContent NumberToString content fixedPath in
     handleFileChange userId fixedPath cleanContent;;
     DockerManager.cleanupDuplicateFiles userId;;
     container ← DockerManager.getContainer userId;
     match container with
     | Some c =>
         syncExec ← await (ContainerExec c (mkExec [js "sync"] false false false false None));
         _ ← await (ExecStart syncExec (mkStart false false false));
         Ret tt
     | None => Ret tt
     end;;
     await (SocketEmit (FileSaved fixedPath true None));;
     await (SocketEmit FileRefresh))
    (fun error => await (SocketEmit (FileSaved path false (Some (message error))))).

End WithRuntime.

(** [n.toString()] for a time value: an integer below 10^21, which
    [Number::toString] writes with all its decimal digits. *)
Definition decimal (n : N) : jsstr :=
  js (NilZero.string_of_uint (N.to_uint n)).

(** [buffer.toString('hex')] for one byte. *)
Definition hexByte (b : N) : jsstr :=
  [JSON.hex_digit (b / 16); JSON.hex_digit (b mod 16)].

(** [generateCleanUserId]: [now] is the value of [Date.now()], [random] the
    bytes of [randomBytes(3)]. *)
Definition generateCleanUserId (now : N) (random : list N) : jsstr :=
  js "user" ++ decimal now ++ concat (List.map hexByte random).

(** [s.replace(/^\/+|\/+$/g, '')] *)
Definition stripSlashes (s : jsstr) : jsstr :=
  Listing.stripTrailingSlashes (Listing.stripLeadingSlashes s).

(** [fullPath] of [POST /files/create], the same in both generations:
    [parentPath] is [req.body.parentPath || ''], [requestPath] the path of
    the request (after the extension repair, for a file). *)
Definition fullPath (parentPath requestPath : jsstr) : jsstr :=
  if negb (falsy (Listing.trim parentPath)) then
    let cleanParent := stripSlashes parentPath in
    let cleanRequest := stripSlashes requestPath in
    if negb (falsy cleanParent) then cleanParent ++ js "/" ++ cleanRequest
    else cleanRequest
  else requestPath.

End Socket.

(** ** The socket layer of the earlier generation ([server/index.ts]) *)

Module LegacySocket.

(** The repair written out in the listeners and routes: a final [.j]
    becomes [.js]. *)
Definition fixedPath (path : jsstr) : jsstr :=
  if endsWith path (js ".j") && negb (endsWith path (js ".js"))
     && negb (endsWith path (js ".json"))
  then path ++ js "s" else path.

(** The ['file:save'] listener. *)
Definition onFileSave (userId path content : jsstr) : DockerManager.M unit :=
  let fixedPath := fixedPath path in
  try_catch
    (Legacy.handleFileChange userId fixedPath content;;
     Legacy.cleanupDuplicateFiles userId;;
     container ← DockerManager.getContainer userId;
     match container with
     | Some c =>
         syncExec ← await (ContainerExec c (mkExec [js "sync"] false false false false None));
         _ ← await (ExecStart syncExec (mkStart false false false));
         Ret tt
     | None => Ret tt
     end;;
     await (SocketEmit (FileSaved fixedPath true None));;
     await (SocketEmit FileRefresh))
    (fun error => await (SocketEmit (FileSaved fixedPath false (Some (message error))))).

(** The content cleaning of [POST /files/create] for a file:
    [requestContent || ''] without the control characters. *)
Definition createContent (requestContent : option jsstr) : jsstr :=
  let cleanContent := default [] requestContent in
  let cleanContent := removeAll Legacy.asciiControl cleanContent in
  removeAll Legacy.unicodeControl cleanContent.

End LegacySocket.

(** ** A file store to run the programs against

    Every container the manager creates binds the one host directory
    [hostPath] at [/workspace] ([containerConfig]), so the files below
    [/workspace/] are one directory, seen and changed by every container; a
    file anywhere else belongs to the container it was written in.  Files
    are keyed by the path an archive entry lands on (the target directory, a
    slash and the entry name, as given).  The store interprets what the write
    path issues: archive injection, [sync], and the [find ... -delete]
    sweeps; every other command runs without effect and every call
    succeeds. *)

Module FileStore.

Record World : Type := mkWorld {
  files : gmap jsstr (list N);                        (* below [/workspace/] *)
  containerFiles : gmap (Container * jsstr) (list N); (* anywhere else *)
  execs : gmap Exec (Container * list jsstr);
  next : N;
  emitted : list SocketEvent
}.

Definition emptyWorld : World := mkWorld ∅ ∅ ∅ 0 [].

(** The [! -name pattern]* [-delete] tail of a [find] command. *)
Fixpoint excludedNames (args : list jsstr) : option (list jsstr) :=
  match args with
  | bang :: nm :: pat :: rest =>
      if bool_decide (bang = js "!") && bool_decide (nm = js "-name") then
        option_map (cons pat) (excludedNames rest)
      else None
  | [d] => if bool_decide (d = js "-delete") then Some [] else None
  | _ => None
  end.

(** [find /workspace -name P -type f (! -name Q)* -delete] *)
Definition findDelete (cmd : list jsstr) : option (jsstr * list jsstr) :=
  match cmd with
  | f :: dir :: nm :: pat :: ty :: kind :: rest =>
      if bool_decide (f = js "find") && bool_decide (dir = js "/workspace")
         && bool_decide (nm = js "-name") && bool_decide (ty = js "-type")
         && bool_decide (kind = js "f")
      then option_map (pair pat) (excludedNames rest)
      else None
  | _ => None
  end.

Definition basename (path : jsstr) : jsstr :=
  List.last (split 47 path) [].

(** [-name '*suffix']: the patterns of the sweeps are a star and a literal. *)
Definition globMatches (pattern name : jsstr) : bool :=
  match pattern with
  | 42 :: suffix => endsWith name suffix
  | _ => bool_decide (pattern = name)
  end.

Definition swept (pattern : jsstr) (excluded : list jsstr) (path : jsstr) : bool :=
  startsWith path (js "/workspace/")
  && globMatches pattern (basename path)
  && negb (existsb (fun q => globMatches q (basename path)) excluded).

(** A command run in a container: a sweep works on the shared directory,
    whichever container runs it. *)
Definition runCommand (cmd : list jsstr) (fs : gmap jsstr (list N))
  : gmap jsstr (list N) :=
  match findDelete cmd with
  | Some (pattern, excluded) =>
      filter (fun kv => ¬ (swept pattern excluded kv.1 = true)) fs
  | None => fs
  end.

Definition respond (R : Type) (w : World) (call : Call R) : Res R * World :=
  match call in Call R return Res R * World with
  | PutArchive c entry path =>
      let target := path ++ js "/" ++ entryName entry in
      (Resolved tt,
       if startsWith target (js "/workspace/")
       then mkWorld (<[target := entryData entry]> (files w)) (containerFiles w)
                    (execs w) (next w) (emitted w)
       else mkWorld (files w) (<[(c, target) := entryData entry]> (containerFiles w))
                    (execs w) (next w) (emitted w))
  | ContainerExec c options =>
      (Resolved (next w),
       mkWorld (files w) (containerFiles w) (<[next w := (c, Cmd options)]> (execs w))
               (next w + 1) (emitted w))
  | ExecStart e _ =>
      (Resolved (next w),
       mkWorld (match execs w !! e with
                | Some (c, cmd) => runCommand cmd (files w)
                | None => files w
                end)
               (containerFiles w) (execs w) (next w + 1) (emitted w))
  | CreateContainer _ =>
      (Resolved (next w),
       mkWorld (files w) (containerFiles w) (execs w) (next w + 1) (emitted w))
  | SocketEmit ev =>
      (Resolved tt,
       mkWorld (files w) (containerFiles w) (execs w) (next w) (emitted w ++ [ev]))
  | ExecInspect _ => (Resolved (Some 0%Z), w)
  | StreamData _ => (Resolved [], w)
  | FsStat _ | FsMkdir _ | FsChmod _ _ | ContainerStart _ | StreamEnd _
  | ContainerStop _ | ContainerRemove _ | SetTimeout _ _ => (Resolved tt, w)
  end.

Definition runtime : Environment := mkEnv World respond.

End FileStore.

(** ** Overlapping listeners

    The process is single-threaded: a listener runs until it reaches an
    [await], and is resumed when the runtime settles that call.  The calls
    of different listeners that are in flight settle in the order the
    runtime picks. *)

Module Scheduler.

Import DockerManager.

Inductive Task : Type :=
| Blocked {R : Type} (call : Call R) (k : Res R -> M unit)
| Finished (o : Outcome unit).

(** Run the synchronous stretch of a listener, up to its next [await]. *)
Fixpoint advance (p : M unit) (m : Manager) : Task * Manager :=
  match p with
  | Ret a => (Finished (Returned a), m)
  | Throw e => (Finished (Threw e), m)
  | Get k => advance (k m) m
  | Put m' k => advance k m'
  | Await c k => (Blocked c k, m)
  | Uncaught e => (Finished (Crashed e), m)
  end.

Inductive Step : Type :=
| Submit (listener : M unit)     (* an event arrives: its listener starts *)
| Settle (i : nat).              (* the runtime settles the call of task [i] *)

Record System : Type := mkSystem {
  manager : Manager;
  storeWorld : FileStore.World;
  tasks : list Task
}.

Definition step (sys : System) (st : Step) : System :=
  match st with
  | Submit p =>
      let '(t, m') := advance p (manager sys) in
      mkSystem m' (storeWorld sys) (tasks sys ++ [t])
  | Settle i =>
      match tasks sys !! i with
      | Some (Blocked c k) =>
          let '(r, w') := FileStore.respond _ (storeWorld sys) c in
          let '(t, m') := advance (k r) (manager sys) in
          mkSystem m' w' (<[i := t]> (tasks sys))
      | _ => sys
      end
  end.

Definition runSchedule (sys : System) (schedule : list Step) : System :=
  foldl step sys schedule.

End Scheduler.

(** Every call a program issues, in order, against an environment. *)

Module Trace.

Inductive Request : Type :=
| request {R : Type} (call : Call R).

Fixpoint requests {S A : Type} (E : Environment) (p : Prog S A) (s : S)
  (w : world E) : list Request :=
  match p with
  | Ret _ | Throw _ | Uncaught _ => []
  | Get k => requests E (k s) s w
  | Put s' k => requests E k s' w
  | Await c k =>
      request c :: (let '(r, w') := respond E _ w c in requests E (k r) s w')
  end.

(** An environment that replays one [cat]: the chunks its stream emits and
    the exit code [inspect] reports; everything else succeeds. *)
Definition replayRespond (chunks : list jsstr) (code : option Z)
  (R : Type) (w : unit) (call : Call R) : Res R * unit :=
  match call in Call R return Res R * unit with
  | StreamData _ => (Resolved chunks, w)
  | ExecInspect _ => (Resolved code, w)
  | ContainerExec _ _ | ExecStart _ _ | CreateContainer _ => (Resolved 0, w)
  | FsStat _ | FsMkdir _ | FsChmod _ _ | ContainerStart _ | StreamEnd _
  | PutArchive _ _ _ | ContainerStop _ | ContainerRemove _ | SetTimeout _ _
  | SocketEmit _ => (Resolved tt, w)
  end.

Definition replay (chunks : list jsstr) (code : option Z) : Environment :=
  mkEnv unit (replayRespond chunks code).

(** An environment in which every call is rejected. *)
Definition failingRespond (e : Error) (R : Type) (w : unit) (call : Call R)
  : Res R * unit := (Rejected e, w).

Definition failing (e : Error) : Environment := mkEnv unit (failingRespond e).



End Trace.

(** ** Notions the statements below are phrased with *)

(** A string literal of a JSON text: the text between two quotes. *)
Definition quoted (s : string) : jsstr := [34] ++ js s ++ [34].

(** Two strings that differ at a position both have: no string starts with
    both. *)
Fixpoint diverge (a b : jsstr) : bool :=
  match a, b with
  | x :: a', y :: b' => negb (x =? y) || diverge a' b'
  | _, _ => false
  end.

(** [s.indexOf(p)] *)
Fixpoint indexOf (s p : jsstr) : option nat :=
  if startsWith s p then Some O
  else match s with
       | [] => None
       | _ :: s' => option_map S (indexOf s' p)
       end.

Definition fragments : list jsstr := List.map fst extensionMap.
Definition canonicalExtensions : list jsstr := List.map snd extensionMap.

(** What one raw item contributes to the tree: the name and the value the
    loop body assigns, when it assigns. *)
Definition entryOf (item : jsstr) : option (jsstr * Index.node) :=
  if falsy item then None
  else
    match split 124 item !! 0%nat, split 124 item !! 1%nat with
    | Some name, Some type =>
        if falsy name || falsy type then None
        else Some (name, if bool_decide (type = js "d")
                         then Index.EmptyObject else Index.NullLeaf)
    | _, _ => None
    end.

(** The value the loop leaves under [name]: the one of the last item that
    assigns it. *)
Definition assigned (name : jsstr) (start : option Index.node) (items : list jsstr)
  : option Index.node :=
  foldl (fun acc item =>
           match entryOf item with
           | Some (n, v) => if bool_decide (n = name) then Some v else acc
           | None => acc
           end)
        start items.

(** The configurations a run asks the runtime to create containers from,
    and the archive entries it injects. *)
Definition createRequests (l : list Trace.Request) : list ContainerConfig :=
  flat_map (fun r =>
              match r with
              | Trace.request c =>
                  match c with
                  | CreateContainer config => [config]
                  | _ => []
                  end
              end) l.

Definition archiveRequests (l : list Trace.Request) : list TarEntry :=
  flat_map (fun r =>
              match r with
              | Trace.request c =>
                  match c with
                  | PutArchive _ entry _ => [entry]
                  | _ => []
                  end
              end) l.

(** A chunk the ['data'] listener of [readFileFromContainer] files under
    [error]. *)
Definition readFailurePhrases : list jsstr :=
  [js "No such file or directory"; js "cannot access"].

Definition flagged (data : jsstr) : bool :=
  existsb (includes data) readFailurePhrases.

(** The whitelist: printable ASCII, newline and tab. *)
Definition whitelisted (c : N) : bool :=
  ((32 <=? c) && (c <=? 126)) || (c =? 9) || (c =? 10).

(** The text step 4 of [ultraCleanContent] parses: the content after the
    three replacements, in the socket layer and in [DockerManager]. *)
Definition indexCleaned (content : jsstr) : jsstr :=
  replaceCR (replaceCRLF (removeAll controlOrHigh (removeAll Index.unsafe content))).

Definition managerCleaned (content : jsstr) : jsstr :=
  replaceCR (replaceCRLF
               (removeAll controlOrHigh (removeAll DockerManager.unsafe content))).

(** The paths step 4 treats as JSON. *)
Definition jsonPath (filePath : jsstr) : bool :=
  includes filePath (js ".json") || includes filePath (js "package").

(** What the earlier [DockerManager] leaves in a content: no C0 or C1
    control character but tab and line feed, whatever else the unit is. *)
Definition noControl (c : N) : bool :=
  negb (Legacy.unicodeControl c) && negb (c =? 13).

(** A path one of the [find ... -delete] sweeps of [cleanupDuplicateFiles]
    removes. *)
Definition sweptByCleanup (path : jsstr) : bool :=
  existsb (fun ext => FileStore.swept (js "*" ++ ext) DockerManager.keptPatterns path)
          DockerManager.incompleteExtensions.

(** The two sweeps of the earlier [cleanupDuplicateFiles]. *)
Definition legacySweepJ : list jsstr :=
  [js "find"; js "/workspace"; js "-name"; js "*.j"; js "-type"; js "f";
   js "!"; js "-name"; js "*.js"; js "!"; js "-name"; js "*.json"; js "-delete"].

Definition legacySweepT : list jsstr :=
  [js "find"; js "/workspace"; js "-name"; js "*.t"; js "-type"; js "f";
   js "!"; js "-name"; js "*.ts"; js "!"; js "-name"; js "*.txt"; js "-delete"].

(** A path one of the two sweeps of the earlier [cleanupDuplicateFiles]
    removes. *)
Definition sweptByLegacyCleanup (path : jsstr) : bool :=
  FileStore.swept (js "*.j") [js "*.js"; js "*.json"] path
  || FileStore.swept (js "*.t") [js "*.ts"; js "*.txt"] path.

(** Where a ['file:change'] of the earlier generation lands, and the archive
    entry its write injects. *)
Definition legacyWrittenPath (path : jsstr) : jsstr :=
  js "/workspace" ++ js "/" ++ stripLeadingSlash (LegacySocket.fixedPath path).

Definition legacyEntry (filePath content : jsstr) : TarEntry :=
  let bytes := utf8_encode (Legacy.sanitize content) in
  mkEntry (stripLeadingSlash filePath) (List.length bytes) 420 bytes.

(** What the statements about the current listeners assume of the
    [handleFileChange] they are given: against the file store it does what
    [writeFileToContainer] of the current [DockerManager] does (the method of
    the earlier class hands the call over in this way). *)
Definition handsOver (NumberToString : jsstr -> jsstr)
  (handleFileChange : jsstr -> jsstr -> jsstr -> DockerManager.M unit) : Prop :=
  forall (userId filePath content : jsstr) (m : DockerManager.Manager)
         (w : FileStore.World),
    run FileStore.runtime (handleFileChange userId filePath content) m w
    = run FileStore.runtime
        (DockerManager.writeFileToContainer NumberToString userId filePath content) m w.

(** Where a ['file:change'] of the current generation for [path] lands when
    the call is handed over, and the bytes it leaves there: the listener
    repairs the path and cleans the content, and [writeFileToContainer]
    repairs and cleans once more. *)
Definition writtenPath (path : jsstr) : jsstr :=
  js "/workspace" ++ js "/"
    ++ stripLeadingSlash (fixIncompleteExtension (fixIncompleteExtension path)).

Definition writtenBytes (NumberToString : jsstr -> jsstr) (path content : jsstr)
  : list N :=
  utf8_encode
    (DockerManager.ultraCleanContent NumberToString
       (Index.ultraCleanContent NumberToString content (fixIncompleteExtension path))
       (fixIncompleteExtension (fixIncompleteExtension path))).

(** Two changes of one file whose listeners overlap: [old] is submitted
    first, [new] second; the runtime settles the archive injection of the
    second listener, then the one of the first, then lets each listener run
    to its end. *)
Definition legacyRaceOutcome : Scheduler.System :=
  Scheduler.runSchedule
    (Scheduler.mkSystem (DockerManager.mkManager {[ js "s1" := 7 ]} ∅)
                        FileStore.emptyWorld [])
    ([ Scheduler.Submit (Legacy.onFileChange (js "s1") (js "notes.txt") (js "old"));
       Scheduler.Submit (Legacy.onFileChange (js "s1") (js "notes.txt") (js "new"));
       Scheduler.Settle 1;
       Scheduler.Settle 0 ]
     ++ repeat (Scheduler.Settle 0) 16 ++ repeat (Scheduler.Settle 1) 16).


(** The socket events a run emits and the commands it has containers run. *)
Definition emitRequests (l : list Trace.Request) : list SocketEvent :=
  flat_map (fun r =>
              match r with
              | Trace.request c =>
                  match c with
                  | SocketEmit event => [event]
                  | _ => []
                  end
              end) l.

Definition execRequests (l : list Trace.Request) : list (Container * list jsstr) :=
  flat_map (fun r =>
              match r with
              | Trace.request c =>
                  match c with
                  | ContainerExec container options => [(container, Cmd options)]
                  | _ => []
                  end
              end) l.

(** The table entry a path is repaired by, if any: the first whose fragment
    the path ends in (and whose extension it does not end in). *)
Definition repairedBy (path : jsstr) : option (jsstr * jsstr) :=
  List.find (fun e => endsWith path (fst e) && negb (endsWith path (snd e)))
            extensionMap.

(** A line of words: the first word, then every further word after its run
    of white space. *)
Fixpoint weave (first : jsstr) (rest : list (jsstr * jsstr)) : jsstr :=
  match rest with
  | [] => first
  | (blank, word) :: rest' => first ++ blank ++ weave word rest'
  end.

Definition isWord (w : jsstr) : bool :=
  negb (falsy w) && forallb (fun c => negb (Listing.is_space c)) w.

Definition isBlank (b : jsstr) : bool :=
  negb (falsy b) && forallb Listing.is_space b.

(** The archive entry a write of the current [DockerManager] injects. *)
Definition archiveEntry (NumberToString : jsstr -> jsstr) (filePath content : jsstr)
  : TarEntry :=
  let bytes := utf8_encode (DockerManager.ultraCleanContent NumberToString content
                              (fixIncompleteExtension filePath)) in
  mkEntry (stripLeadingSlash (fixIncompleteExtension filePath)) (List.length bytes) 420 bytes.

(** A runtime in which emitting on the socket always succeeds. *)
Definition emitsResolve (E : Environment) : Prop :=
  forall (w : world E) (event : SocketEvent),
    fst (respond E _ w (SocketEmit event)) = Resolved tt.

(** What a run returns together with what it emits on the socket. *)
Definition observe {S A : Type} (E : Environment) (p : Prog S A) (s : S) (w : world E)
  : (Outcome A * S * world E) * list SocketEvent :=
  (run E p s w, emitRequests (Trace.requests E p s w)).

(** A program that leaves the registry as it is and injects no archive,
    whatever the runtime answers. *)
Definition tame {A : Type} (E : Environment) (p : DockerManager.M A) : Prop :=
  forall (m : DockerManager.Manager) (w : world E),
    (run E p m w).1.2 = m /\ archiveRequests (Trace.requests E p m w) = [].

(** ** Tactics for running a program symbolically *)

(** Unfold one layer of a run: the monad operations, nothing of the data. *)
Ltac step_run :=
  cbn [run Trace.requests bind try_catch await modify mbind mret prog_bind
       prog_ret fst snd world respond].

(** Case on the answer the environment gives to the next call. *)
Ltac answer :=
  match goal with
  | |- context [respond ?E ?R ?w ?c] =>
      let r := fresh "r" in
      let w' := fresh "w" in
      destruct (respond E R w c) as [r w'] eqn:?; destruct r; simpl
  end.

(** Case on the answer to the next call of a trace. *)
Ltac answer_in_trace :=
  match goal with
  | |- context [respond ?E ?R ?w ?c] =>
      let r := fresh "r" in
      let w' := fresh "w" in
      destruct (respond E R w c) as [r w'] eqn:?; destruct r; simpl;
      rewrite ?lookup_insert_eq; simpl
  end.

(** Case on the answer to the next call, unfolding only the monad. *)
Ltac answer_step :=
  match goal with
  | |- context [respond ?E ?R ?w ?c] =>
      let r := fresh "r" in
      let w' := fresh "w" in
      destruct (respond E R w c) as [r w'] eqn:?; destruct r;
      cbn [run Trace.requests bind try_catch await modify mbind mret prog_bind
           prog_ret fst snd archiveRequests createRequests flat_map app]
  end.

(** Unfold one layer of a run against the file store. *)
Ltac store_steps :=
  cbn [run bind try_catch await mbind prog_bind world respond FileStore.runtime
       FileStore.respond FileStore.execs FileStore.files FileStore.containerFiles
       FileStore.next FileStore.emitted Cmd plainExec entryName entryData];
  rewrite ?lookup_insert_eq;
  cbn [run].

(** * Properties *)

Import DockerManager.

Arguments js : simpl never.

(** ** Strings *)

Lemma startsWith_app (p r : jsstr) : startsWith (p ++ r) p = true.
Proof.
  induction p as [|a p IH]; simpl; [done|].
  by rewrite N.eqb_refl, IH.
Qed.

Lemma startsWith_inv (s p : jsstr) :
  startsWith s p = true -> exists r, s = p ++ r.
Proof.
  revert s. induction p as [|a p IH]; intros s H.
  - by exists s.
  - destruct s as [|b s]; simpl in H; [done|].
    apply andb_true_iff in H as [Hab H]. apply N.eqb_eq in Hab as ->.
    destruct (IH _ H) as [r ->]. by exists r.
Qed.

Lemma endsWith_app (r p : jsstr) : endsWith (r ++ p) p = true.
Proof.
  unfold endsWith. rewrite length_app.
  replace (length r + length p - length p)%nat with (length r) by lia.
  rewrite drop_app_length.
  apply andb_true_iff. split; [apply Nat.leb_le; lia|].
  rewrite <- (app_nil_r p) at 1. apply startsWith_app.
Qed.

Lemma endsWith_inv (s p : jsstr) :
  endsWith s p = true -> exists r, s = r ++ p.
Proof.
  unfold endsWith. intros H. apply andb_true_iff in H as [Hlen H].
  apply Nat.leb_le in Hlen.
  destruct (startsWith_inv _ _ H) as [t Ht].
  assert (t = []) as ->.
  { apply (f_equal length) in Ht. rewrite length_drop, length_app in Ht.
    destruct t; [done|]. simpl in Ht. lia. }
  rewrite app_nil_r in Ht.
  exists (take (length s - length p) s).
  rewrite <- (take_drop (length s - length p) s) at 1. by rewrite Ht.
Qed.

Lemma endsWith_rev (s p : jsstr) :
  endsWith s p = startsWith (rev s) (rev p).
Proof.
  destruct (endsWith s p) eqn:E.
  - destruct (endsWith_inv _ _ E) as [r ->].
    by rewrite rev_app_distr, startsWith_app.
  - destruct (startsWith (rev s) (rev p)) eqn:E'; [|done].
    destruct (startsWith_inv _ _ E') as [r Hr].
    apply (f_equal (@rev N)) in Hr.
    rewrite rev_involutive, rev_app_distr, rev_involutive in Hr.
    subst s. by rewrite endsWith_app in E.
Qed.

Lemma diverge_startsWith (a b s : jsstr) :
  diverge a b = true -> startsWith s a = true -> startsWith s b = false.
Proof.
  revert b s. induction a as [|x a IH]; intros [|y b] [|c s]; simpl; try done.
  intros Hd Ha. apply andb_true_iff in Ha as [Hcx Ha].
  apply N.eqb_eq in Hcx as ->.
  destruct (x =? y) eqn:Exy; simpl in *; [|done].
  by rewrite (IH _ _ Hd Ha).
Qed.

Lemma diverge_endsWith (a b s : jsstr) :
  diverge (rev a) (rev b) = true -> endsWith s a = true -> endsWith s b = false.
Proof.
  rewrite !endsWith_rev. apply diverge_startsWith.
Qed.

(** ** The models on examples *)

Example parse_orders_index_keys_first :
  JSON.parse (js "{ " ++ quoted "b" ++ js ": [1, true, null], " ++ quoted "10"
              ++ js ": {}, " ++ quoted "9" ++ js ": " ++ quoted "x" ++ js ", "
              ++ quoted "b" ++ js ": -2.5e3 }")
  = Some (JSON.JObject [ (js "9", JSON.JString (js "x"));
                         (js "10", JSON.JObject []);
                         (js "b", JSON.JNumber (js "-2.5e3")) ]).
Proof. reflexivity. Qed.

Example parse_reads_escapes :
  JSON.parse ([34; 92; 110; 92; 117] ++ js "00E9" ++ [92; 34; 34])
  = Some (JSON.JString [10; 233; 34]).
Proof. reflexivity. Qed.

Example parse_rejects :
  JSON.parse (js "[1,]") = None
  /\ JSON.parse (js "{" ++ quoted "a" ++ js ":1,}") = None
  /\ JSON.parse (js "01") = None
  /\ JSON.parse (js "1.") = None
  /\ JSON.parse (js "tru") = None
  /\ JSON.parse (js "[1 2]") = None
  /\ JSON.parse ([34; 10; 34]) = None
  /\ JSON.parse (js "{} x") = None.
Proof. repeat split; reflexivity. Qed.

Example stringify_indents :
  JSON.stringify (fun l => l)
    (JSON.JObject [ (js "a", JSON.JArray [JSON.JNumber (js "1"); JSON.JArray []]);
                    (js "b", JSON.JObject [(js "c", JSON.JString [9; 34])]) ])
  = js "{" ++ [10] ++ js "  " ++ quoted "a" ++ js ": [" ++ [10]
      ++ js "    1," ++ [10]
      ++ js "    []" ++ [10]
      ++ js "  ]," ++ [10]
      ++ js "  " ++ quoted "b" ++ js ": {" ++ [10]
      ++ js "    " ++ quoted "c" ++ js ": " ++ [34; 92; 116; 92; 34; 34] ++ [10]
      ++ js "  }" ++ [10]
      ++ js "}".
Proof. reflexivity. Qed.

Example stripAnsi_colours :
  stripAnsi ([27] ++ js "[1;31mred" ++ [27] ++ js "[0m [x" ++ [27] ++ js "[12")
  = js "red [x" ++ [27] ++ js "[12".
Proof. reflexivity. Qed.

Example repair_of_a_truncated_script :
  fixIncompleteExtension (js "src/app.j") = js "src/app.js"
  /\ fixIncompleteExtension (js "src/app.js") = js "src/app.js"
  /\ fixIncompleteExtension (js "README") = js "README".
Proof. repeat split; reflexivity. Qed.

(** ** Path repair *)

Lemma replace_indexOf (s p r : jsstr) :
  replace s p r =
  match indexOf s p with
  | Some k => take k s ++ r ++ drop (k + length p) s
  | None => s
  end.
Proof.
  induction s as [|a s IH]; simpl.
  - destruct (startsWith [] p); [|done]. simpl. by rewrite !drop_nil.
  - destruct (startsWith (a :: s) p); [done|].
    rewrite IH. by destruct (indexOf s p).
Qed.

Lemma fixWith_none (table : list (jsstr * jsstr)) (path : jsstr) :
  (forall i c, (i, c) ∈ table -> endsWith path i = false) ->
  fixWith table path = path.
Proof.
  induction table as [|[i c] table IH]; intros H; simpl; [done|].
  rewrite (H i c) by left. simpl. apply IH.
  intros i' c' Hin. apply (H i' c'). by right.
Qed.

Lemma fixWith_single (table : list (jsstr * jsstr)) (path i c : jsstr) :
  (i, c) ∈ table ->
  endsWith path i = true ->
  endsWith path c = false ->
  (forall i' c', (i', c') ∈ table -> (i', c') = (i, c) \/ endsWith path i' = false) ->
  fixWith table path = replace path i c.
Proof.
  induction table as [|[i0 c0] table IH]; intros Hin Hi Hc Hothers.
  - by apply elem_of_nil in Hin.
  - simpl. destruct (Hothers i0 c0) as [[= -> ->]|Hno]; [by left| |].
    + by rewrite Hi, Hc.
    + rewrite Hno. simpl.
      apply elem_of_cons in Hin as [[= -> ->]|Hin]; [congruence|].
      apply IH; try done.
      intros i' c' Hin'. apply Hothers. by right.
Qed.

Lemma canonical_diverges_from_fragments :
  forallb (fun c => forallb (fun i => diverge (rev c) (rev i)) fragments)
          canonicalExtensions = true.
Proof. vm_compute. reflexivity. Qed.

Lemma fragments_diverge_pairwise :
  forallb (fun e =>
             forallb (fun e' => bool_decide (e' = e)
                                || diverge (rev (fst e)) (rev (fst e')))
                     extensionMap)
          extensionMap = true.
Proof. vm_compute. reflexivity. Qed.

Lemma fragment_diverges_from_its_extension :
  forallb (fun e => diverge (rev (fst e)) (rev (snd e))) extensionMap = true.
Proof. vm_compute. reflexivity. Qed.

(** A path that ends in a canonical extension of the table is returned
    unchanged. *)
Lemma fixIncompleteExtension_canonical (path c : jsstr) :
  c ∈ canonicalExtensions ->
  endsWith path c = true ->
  fixIncompleteExtension path = path.
Proof.
  intros Hc Hend. apply fixWith_none. intros i c' Hin.
  pose proof canonical_diverges_from_fragments as H.
  rewrite forallb_forall in H.
  specialize (H c (proj1 (list_elem_of_In _ _) Hc)).
  rewrite forallb_forall in H.
  apply (diverge_endsWith c i path); [|done].
  apply H. apply list_elem_of_In. unfold fragments.
  apply (list_elem_of_fmap_2 fst _ (i, c')) in Hin. exact Hin.
Qed.

(** When the fragment a path ends in does not occur earlier in the path,
    the repair swaps exactly that final fragment for its extension. *)
Lemma fixIncompleteExtension_final_fragment (path i c : jsstr) :
  (i, c) ∈ extensionMap ->
  endsWith path i = true ->
  indexOf path i = Some (length path - length i)%nat ->
  fixIncompleteExtension path = take (length path - length i) path ++ c
  /\ endsWith (fixIncompleteExtension path) c = true.
Proof.
  intros Hin Hend Hidx.
  assert (fixIncompleteExtension path = take (length path - length i) path ++ c) as E.
  { unfold fixIncompleteExtension.
    rewrite (fixWith_single extensionMap path i c); try done.
    - rewrite replace_indexOf, Hidx.
      destruct (endsWith_inv _ _ Hend) as [r ->].
      rewrite length_app.
      replace (length r + length i - length i + length i)%nat
        with (length (r ++ i)) by (rewrite length_app; lia).
      by rewrite drop_all, app_nil_r.
    - pose proof fragment_diverges_from_its_extension as H.
      rewrite forallb_forall in H.
      specialize (H (i, c) (proj1 (list_elem_of_In _ _) Hin)). simpl in H.
      by apply (diverge_endsWith i c path).
    - intros i' c' Hin'.
      pose proof fragments_diverge_pairwise as H.
      rewrite forallb_forall in H.
      specialize (H (i, c) (proj1 (list_elem_of_In _ _) Hin)).
      rewrite forallb_forall in H.
      specialize (H (i', c') (proj1 (list_elem_of_In _ _) Hin')).
      apply orb_true_iff in H as [H|H].
      + left. by apply bool_decide_eq_true in H.
      + right. simpl in H. by apply (diverge_endsWith i i' path). }
  split; [done|]. rewrite E. apply endsWith_app.
Qed.

Lemma fixIncompleteExtension_final_fragment_witness :
  fixIncompleteExtension (js "src/main.j") = js "src/main.js"
  /\ endsWith (fixIncompleteExtension (js "src/main.j")) (js ".js") = true.
Proof.
  apply (fixIncompleteExtension_final_fragment (js "src/main.j") (js ".j") (js ".js"));
    [by left | reflexivity | reflexivity].
Defined.

Lemma fixIncompleteExtension_canonical_witness :
  fixIncompleteExtension (js "src/main.js") = js "src/main.js".
Proof.
  apply (fixIncompleteExtension_canonical (js "src/main.js") (js ".js"));
    [by left | reflexivity].
Defined.

(** C2 (the repair on a path whose fragment also occurs earlier):
    [my.project/main.p] ends in the fragment [.p], whose extension is [.py];
    [replace] rewrites the first occurrence of [.p], the one inside the
    directory name, so the result still ends in [.p] and not in [.py]. *)
Theorem fixIncompleteExtension_rewrites_first_occurrence :
  endsWith (js "my.project/main.p") (js ".p") = true
  /\ (js ".p", js ".py") ∈ extensionMap
  /\ fixIncompleteExtension (js "my.project/main.p") = js "my.pyroject/main.p"
  /\ endsWith (fixIncompleteExtension (js "my.project/main.p")) (js ".py") = false.
Proof.
  repeat split; try reflexivity.
  do 2 right. by left.
Qed.

(** ** Tree building *)

Import Index.

Lemma addItem_entryOf (tree : TreeObject) (item : jsstr) :
  addItem tree item =
  match entryOf item with
  | Some (n, v) => assign n v tree
  | None => tree
  end.
Proof.
  unfold addItem, entryOf. destruct (falsy item); [done|].
  destruct (split 124 item !! 0%nat) as [nm|]; [|done].
  destruct (split 124 item !! 1%nat) as [ty|]; [|done].
  by destruct (falsy nm || falsy ty).
Qed.

Lemma own_assign (n n' : jsstr) (v : node) (t : TreeObject) :
  n' <> js "__proto__" ->
  own (assign n v t) !! n' = if bool_decide (n = n') then Some v else own t !! n'.
Proof.
  intros Hn'. unfold assign.
  destruct (bool_decide (n = js "__proto__")) eqn:Ep.
  - apply bool_decide_eq_true in Ep. subst n.
    rewrite bool_decide_eq_false_2 by congruence.
    destruct (own t !! js "__proto__"), (proto t); simpl;
      try done; by rewrite lookup_insert_ne by congruence.
  - simpl. rewrite lookup_insert. destruct (decide (n = n')) as [->|Hne].
    + by rewrite bool_decide_eq_true_2.
    + by rewrite bool_decide_eq_false_2.
Qed.

Lemma own_foldl_addItem (items : list jsstr) (t : TreeObject) (n : jsstr) :
  n <> js "__proto__" ->
  own (foldl addItem t items) !! n = assigned n (own t !! n) items.
Proof.
  intros Hn. revert t. induction items as [|item items IH]; intros t; [done|].
  unfold assigned in *. simpl. rewrite IH. f_equal.
  rewrite addItem_entryOf. destruct (entryOf item) as [[n' v]|]; [|done].
  by rewrite own_assign.
Qed.

Lemma elem_of_uniqueFrom (seen items : list jsstr) (x : jsstr) :
  x ∈ uniqueFrom seen items <-> x ∈ items /\ x ∉ seen.
Proof.
  revert seen. induction items as [|y items IH]; intros seen; simpl.
  - split; [intros H; by apply elem_of_nil in H | intros [H _]; by apply elem_of_nil in H].
  - destruct (bool_decide (y ∈ seen)) eqn:E.
    + apply bool_decide_eq_true in E. rewrite IH, elem_of_cons.
      split; [tauto|]. intros [[->|H] Hs]; [done|tauto].
    + apply bool_decide_eq_false in E. rewrite !elem_of_cons, IH, elem_of_cons.
      split.
      * intros [->|[H Hs]]; [tauto|]. split; [tauto|]. tauto.
      * intros [[->|H] Hs]; [tauto|].
        destruct (decide (x = y)) as [->|Hne]; [tauto|]. right. tauto.
Qed.

Lemma elem_of_uniqueItems (items : list jsstr) (x : jsstr) :
  x ∈ uniqueItems items <-> x ∈ items.
Proof.
  unfold uniqueItems. rewrite elem_of_uniqueFrom.
  split; [tauto|]. intros H. split; [done|]. apply not_elem_of_nil.
Qed.

Lemma assigned_Some (n : jsstr) (items : list jsstr) (start : option node) (v : node) :
  assigned n start items = Some v ->
  start = Some v \/ exists item, item ∈ items /\ entryOf item = Some (n, v).
Proof.
  revert start. induction items as [|item items IH]; intros start H; [by left|].
  unfold assigned in *. simpl in H. apply IH in H as [H|(it & Hin & He)].
  - destruct (entryOf item) as [[n' v']|] eqn:E; [|by left].
    destruct (bool_decide (n' = n)) eqn:En; [|by left].
    apply bool_decide_eq_true in En. subst n'. injection H as ->.
    right. exists item. split; [by left|done].
  - right. exists it. split; [by right|done].
Qed.

Lemma assigned_is_Some (n : jsstr) (items : list jsstr) (start : option node) :
  is_Some start \/ (exists item v, item ∈ items /\ entryOf item = Some (n, v)) ->
  is_Some (assigned n start items).
Proof.
  revert start. induction items as [|item items IH]; intros start H.
  - destruct H as [H|(it & v & Hin & _)]; [done|by apply elem_of_nil in Hin].
  - unfold assigned in *. simpl. apply IH.
    destruct H as [H|(it & v & Hin & He)].
    + left. destruct (entryOf item) as [[n' v']|]; [|done].
      by destruct (bool_decide (n' = n)).
    + apply elem_of_cons in Hin as [->|Hin].
      * left. rewrite He. by rewrite bool_decide_eq_true_2.
      * right. by exists it, v.
Qed.

(** Every name but [__proto__]: it is a key of the tree exactly when some raw
    item assigns it, and its value is the one of such an item. *)
Lemma toTree_lookup (items : list jsstr) (n : jsstr) :
  n <> js "__proto__" ->
  (is_Some (own (toTree items) !! n)
     <-> exists item v, item ∈ items /\ entryOf item = Some (n, v))
  /\ (forall v, own (toTree items) !! n = Some v ->
        exists item, item ∈ items /\ entryOf item = Some (n, v)).
Proof.
  intros Hn. unfold toTree. rewrite own_foldl_addItem by done.
  simpl. rewrite lookup_empty. split; [split|].
  - intros [v Hv]. apply assigned_Some in Hv as [Hv|(it & Hin & He)]; [done|].
    exists it, v. by rewrite <- elem_of_uniqueItems.
  - intros (it & v & Hin & He). apply assigned_is_Some. right.
    exists it, v. by rewrite elem_of_uniqueItems.
  - intros v Hv. apply assigned_Some in Hv as [Hv|(it & Hin & He)]; [done|].
    exists it. by rewrite <- elem_of_uniqueItems.
Qed.

Lemma toTree_lookup_witness :
  is_Some (own (toTree [js "a.txt|f"; js "b|d"; js "a.txt|f"]) !! js "b").
Proof.
  assert (js "b" <> js "__proto__") as Hn by discriminate.
  destruct (toTree_lookup [js "a.txt|f"; js "b|d"; js "a.txt|f"] (js "b") Hn)
    as [[_ Hback] _].
  apply Hback. exists (js "b|d"), EmptyObject.
  split; [right; left|reflexivity].
Defined.

(** C8 (a raw item named [__proto__]): the documented example gives one [a.txt]
    (null) and one [b] (an empty object); but for the item [__proto__|f] the
    assignment [tree[name] = null] runs the [__proto__] setter inherited from
    [Object.prototype]: the tree gets no key at all for that name, its
    prototype becomes null. *)
Theorem toTree_loses_proto_name :
  own (toTree [js "a.txt|f"; js "b|d"; js "a.txt|f"])
    = {[ js "a.txt" := NullLeaf; js "b" := EmptyObject ]}
  /\ entryOf (js "__proto__|f") = Some (js "__proto__", NullLeaf)
  /\ own (toTree [js "__proto__|f"]) !! js "__proto__" = None
  /\ toTree [js "__proto__|f"] = mkTree ∅ NullPrototype.
Proof.
  repeat split; reflexivity.
Qed.

(** ** Session destruction *)

Lemma cleanupContainer_idle (E : Environment) (w : world E) (m : Manager)
  (userId : jsstr) :
  userContainers m !! userId = None ->
  userShells m !! userId = None ->
  run E (cleanupContainer userId) m w = (Returned tt, m, w).
Proof.
  intros Hc Hs. unfold cleanupContainer. simpl. by rewrite Hc, Hs.
Qed.

Lemma cleanupContainer_run (E : Environment) (w : world E) (m : Manager)
  (userId : jsstr) :
  exists w', run E (cleanupContainer userId) m w
             = (Returned tt, deleteContainer userId (deleteShell userId m), w').
Proof.
  unfold cleanupContainer, deleteContainer, deleteShell. simpl.
  destruct (userShells m !! userId) as [sh|] eqn:Hs;
    destruct (userContainers m !! userId) as [c|] eqn:Hc; simpl.
  all: repeat answer.
  all: eexists; repeat f_equal.
  all: destruct m as [cs shs]; simpl in *; f_equal;
    by rewrite ?delete_id by done.
Qed.

(** C6: [cleanupContainer] returns normally whatever the runtime answers
    (a throwing [shell.end()], a failing stop or remove), for a known and
    for an unknown id; afterwards neither map has an entry for the id, the
    entries of other ids are as before, and a second call returns normally
    without calling the runtime or changing anything. *)
Theorem cleanupContainer_total_and_clears
  (E : Environment) (w : world E) (m : Manager) (userId : jsstr) :
  (run E (cleanupContainer userId) m w).1.1 = Returned tt
  /\ userContainers (run E (cleanupContainer userId) m w).1.2 !! userId = None
  /\ userShells (run E (cleanupContainer userId) m w).1.2 !! userId = None
  /\ (forall other, other <> userId ->
        userContainers (run E (cleanupContainer userId) m w).1.2 !! other
          = userContainers m !! other
        /\ userShells (run E (cleanupContainer userId) m w).1.2 !! other
          = userShells m !! other)
  /\ (forall w', run E (cleanupContainer userId)
                   (run E (cleanupContainer userId) m w).1.2 w'
                 = (Returned tt, (run E (cleanupContainer userId) m w).1.2, w')).
Proof.
  destruct (cleanupContainer_run E w m userId) as [w1 ->]. cbn [fst snd].
  split; [done|]. split; [apply lookup_delete_eq|].
  split; [apply lookup_delete_eq|]. split.
  - intros other Hne. simpl. by rewrite !lookup_delete_ne by done.
  - intros w'. apply cleanupContainer_idle; simpl; apply lookup_delete_eq.
Qed.

(** Teardown in a runtime that rejects every call: the shell's [end] throws,
    [stop] fails with status 500; the maps are cleared all the same. *)
Example cleanupContainer_when_teardown_fails :
  run (Trace.failing (mkError (js "server error") (Some 500%Z)))
      (cleanupContainer (js "s1"))
      (mkManager {[ js "s1" := 7 ]} {[ js "s1" := 8 ]}) tt
  = (Returned tt, mkManager ∅ ∅, tt).
Proof. reflexivity. Qed.

(** ** Unknown session ids *)

(** C9, as the code has it: for a session id without a container the
    write, read, make-directory and rename operations throw
    [Container not found] before any call into the runtime, while delete and
    the duplicate sweep return normally, also without any call. *)
Theorem unknown_session_outcomes
  (NumberToString : jsstr -> jsstr) (E : Environment) (w : world E)
  (m : Manager) (userId : jsstr) :
  userContainers m !! userId = None ->
  (forall path content,
      run E (writeFileToContainer NumberToString userId path content) m w
      = (Threw (newError (js "Container not found")), m, w))
  /\ (forall path,
        run E (readFileFromContainer NumberToString userId path) m w
        = (Threw (newError (js "Container not found")), m, w))
  /\ (forall path,
        run E (createDirectory userId path) m w
        = (Threw (newError (js "Container not found")), m, w))
  /\ (forall oldPath newPath,
        run E (renamePath userId oldPath newPath) m w
        = (Threw (newError (js "Container not found")), m, w))
  /\ (forall path, run E (deletePath userId path) m w = (Returned tt, m, w))
  /\ run E (cleanupDuplicateFiles userId) m w = (Returned tt, m, w).
Proof.
  intros Hnone.
  unfold writeFileToContainer, readFileFromContainer, createDirectory,
    renamePath, deletePath, cleanupDuplicateFiles.
  simpl. rewrite Hnone. by repeat split.
Qed.

Lemma unknown_session_outcomes_witness :
  (forall path content,
      run FileStore.runtime (writeFileToContainer (fun l => l) (js "ghost") path content)
          (mkManager ∅ ∅) FileStore.emptyWorld
      = (Threw (newError (js "Container not found")), mkManager ∅ ∅, FileStore.emptyWorld))
  /\ (forall path,
        run FileStore.runtime (readFileFromContainer (fun l => l) (js "ghost") path)
            (mkManager ∅ ∅) FileStore.emptyWorld
        = (Threw (newError (js "Container not found")), mkManager ∅ ∅, FileStore.emptyWorld))
  /\ (forall path,
        run FileStore.runtime (createDirectory (js "ghost") path)
            (mkManager ∅ ∅) FileStore.emptyWorld
        = (Threw (newError (js "Container not found")), mkManager ∅ ∅, FileStore.emptyWorld))
  /\ (forall oldPath newPath,
        run FileStore.runtime (renamePath (js "ghost") oldPath newPath)
            (mkManager ∅ ∅) FileStore.emptyWorld
        = (Threw (newError (js "Container not found")), mkManager ∅ ∅, FileStore.emptyWorld))
  /\ (forall path,
        run FileStore.runtime (deletePath (js "ghost") path)
            (mkManager ∅ ∅) FileStore.emptyWorld
        = (Returned tt, mkManager ∅ ∅, FileStore.emptyWorld))
  /\ run FileStore.runtime (cleanupDuplicateFiles (js "ghost"))
         (mkManager ∅ ∅) FileStore.emptyWorld
     = (Returned tt, mkManager ∅ ∅, FileStore.emptyWorld).
Proof.
  apply (unknown_session_outcomes (fun l => l) FileStore.runtime FileStore.emptyWorld
           (mkManager ∅ ∅) (js "ghost")).
  reflexivity.
Defined.

(** C9 as stated fails: deleting a path for an id no container is registered
    for returns normally, and nothing is asked of the runtime. *)
Lemma deletePath_unknown_session_succeeds :
  userContainers (mkManager ∅ ∅) !! js "ghost" = None
  /\ run FileStore.runtime (deletePath (js "ghost") (js "notes.txt"))
         (mkManager ∅ ∅) FileStore.emptyWorld
     = (Returned tt, mkManager ∅ ∅, FileStore.emptyWorld)
  /\ Trace.requests FileStore.runtime (deletePath (js "ghost") (js "notes.txt"))
         (mkManager ∅ ∅) FileStore.emptyWorld = [].
Proof. repeat split; reflexivity. Qed.

(** The earlier [DockerManager] returns from a write for an unknown id as if
    it had succeeded, where the current one throws. *)
Lemma Legacy_write_unknown_session_returns :
  run FileStore.runtime (Legacy.writeFileToContainer (js "ghost") (js "a.txt") (js "x"))
      (mkManager ∅ ∅) FileStore.emptyWorld
  = (Returned tt, mkManager ∅ ∅, FileStore.emptyWorld).
Proof. reflexivity. Qed.

(** ** Workspace creation *)

Lemma createUserContainer_requests (cwd : jsstr) (E : Environment) (w : world E)
  (m : Manager) (userId : jsstr) :
  Forall (fun config => config = containerConfig cwd userId)
         (createRequests (Trace.requests E (createUserContainer cwd userId) m w)).
Proof.
  unfold createUserContainer, createPersistentShell, createRequests. simpl.
  repeat answer_in_trace.
  all: repeat constructor.
Qed.

Lemma app_inj_user (u1 u2 : jsstr) : js "user-" ++ u1 = js "user-" ++ u2 -> u1 = u2.
Proof. apply app_inv_head. Qed.

(** C1, as the code has it: whatever the session id, every container
    [createUserContainer] asks for binds the same host directory, [user]
    under the working directory of the process; only the container's name,
    [user-] followed by the id, is derived from the id (and differs for
    different ids).  Against the file store the run asks for exactly one container. *)
Theorem createUserContainer_binds_one_shared_directory
  (cwd : jsstr) (E : Environment) (w : world E) (m : Manager) (u1 u2 : jsstr) :
  Forall (fun config => config = containerConfig cwd u1)
         (createRequests (Trace.requests E (createUserContainer cwd u1) m w))
  /\ createRequests (Trace.requests FileStore.runtime (createUserContainer cwd u1)
                       m FileStore.emptyWorld)
     = [containerConfig cwd u1]
  /\ Binds (Host (containerConfig cwd u1)) = [path_resolve cwd (js "user") ++ js ":/workspace:rw"]
  /\ Binds (Host (containerConfig cwd u1)) = Binds (Host (containerConfig cwd u2))
  /\ (name (containerConfig cwd u1) = name (containerConfig cwd u2) -> u1 = u2).
Proof.
  split; [apply createUserContainer_requests|].
  split.
  { unfold createUserContainer, createPersistentShell, createRequests. simpl.
    rewrite lookup_insert_eq. reflexivity. }
  split; [reflexivity|]. split; [reflexivity|].
  simpl. apply app_inj_user.
Qed.

(** C1 as stated fails: the sessions [alice] and [bob] are given the same
    host directory. *)
Lemma createUserContainer_shares_host_directory :
  js "alice" <> js "bob"
  /\ List.map (fun config => Binds (Host config))
       (createRequests (Trace.requests FileStore.runtime
                          (createUserContainer (js "/srv/app") (js "alice"))
                          (mkManager ∅ ∅) FileStore.emptyWorld))
     = [[js "/srv/app/user:/workspace:rw"]]
  /\ List.map (fun config => Binds (Host config))
       (createRequests (Trace.requests FileStore.runtime
                          (createUserContainer (js "/srv/app") (js "bob"))
                          (mkManager ∅ ∅) FileStore.emptyWorld))
     = [[js "/srv/app/user:/workspace:rw"]].
Proof. split; [discriminate|]. split; reflexivity. Qed.

(** ** Reading a file back *)

Lemma collect_acc (phrases chunks : list jsstr) (output error : jsstr) :
  foldl (fun acc data =>
           if existsb (includes data) phrases
           then (acc.1, acc.2 ++ data)
           else (acc.1 ++ data, acc.2))
        (output, error) chunks
  = (output ++ concat (List.filter (fun d => negb (existsb (includes d) phrases)) chunks),
     error ++ concat (List.filter (fun d => existsb (includes d) phrases) chunks)).
Proof.
  revert output error. induction chunks as [|d chunks IH]; intros output error; simpl.
  - by rewrite !app_nil_r.
  - destruct (existsb (includes d) phrases); simpl; rewrite IH; simpl;
      by rewrite <- ?app_assoc.
Qed.

Lemma flagged_nonempty (data : jsstr) : flagged data = true -> data <> [].
Proof. intros H ->. vm_compute in H. discriminate. Qed.

Lemma filter_none (f : jsstr -> bool) (l : list jsstr) :
  forallb (fun d => negb (f d)) l = true ->
  List.filter (fun d => negb (f d)) l = l /\ List.filter f l = [].
Proof.
  induction l as [|d l IH]; intros H; [done|].
  cbn in *. apply andb_true_iff in H as [Hd Hl].
  destruct (IH Hl) as [-> ->]. rewrite Hd.
  apply negb_true_iff in Hd. by rewrite Hd.
Qed.

Lemma falsy_concat_filter (f : jsstr -> bool) (l : list jsstr) :
  (forall d, f d = true -> d <> []) ->
  falsy (concat (List.filter f l)) = forallb (fun d => negb (f d)) l.
Proof.
  intros Hne. induction l as [|d l IH]; [done|].
  cbn. destruct (f d) eqn:Ed; cbn; [|done].
  specialize (Hne d Ed). by destruct d.
Qed.

Lemma collect_read (chunks : list jsstr) :
  collect readFailurePhrases chunks
  = (if forallb (fun d => negb (flagged d)) chunks
     then (concat chunks, [])
     else (concat (List.filter (fun d => negb (flagged d)) chunks),
           concat (List.filter flagged chunks)))
  /\ falsy (collect readFailurePhrases chunks).2
     = forallb (fun d => negb (flagged d)) chunks.
Proof.
  unfold collect. rewrite collect_acc.
  change (fun d => existsb (includes d) readFailurePhrases) with flagged.
  change (fun d => negb (existsb (includes d) readFailurePhrases))
    with (fun d => negb (flagged d)).
  cbn [app fst snd]. split.
  - destruct (forallb (fun d => negb (flagged d)) chunks) eqn:Eall; [|done].
    by destruct (filter_none flagged chunks Eall) as [-> ->].
  - apply falsy_concat_filter, flagged_nonempty.
Qed.

(** C7, as the code has it, for a session with a container: the [cat]
    command is issued on the repaired path (the repair of the write path,
    one leading slash and the control characters dropped); when the four
    runtime calls settle, the promise resolves exactly when the exit code is 0
    and no chunk includes [No such file or directory] or [cannot access];
    it then returns the concatenated chunks without ANSI sequences, passed
    through [ultraCleanContent]; every other outcome of the command is the
    single error [File not found], whatever the exit code; a rejected
    [container.exec], [exec.start] or [exec.inspect] and an error of the
    stream are thrown as they are. *)
Theorem readFileFromContainer_outcome
  (NumberToString : jsstr -> jsstr) (E : Environment) (w : world E)
  (m : Manager) (userId filePath : jsstr) (container : Container) :
  userContainers m !! userId = Some container ->
  let cleanPath := removeAll c0c1 (stripLeadingSlash (fixIncompleteExtension filePath)) in
  let cat := ContainerExec container (plainExec [js "cat"; js "/workspace/" ++ cleanPath]) in
  (forall exec stream chunks exitCode w1 w2 w3 w4,
      respond E _ w cat = (Resolved exec, w1) ->
      respond E _ w1 (ExecStart exec plainStart) = (Resolved stream, w2) ->
      respond E _ w2 (StreamData stream) = (Resolved chunks, w3) ->
      respond E _ w3 (ExecInspect exec) = (Resolved exitCode, w4) ->
      run E (readFileFromContainer NumberToString userId filePath) m w
      = (if bool_decide (exitCode = Some 0%Z)
            && forallb (fun data => negb (flagged data)) chunks
         then Returned (DockerManager.ultraCleanContent NumberToString
                          (stripAnsi (concat chunks)) filePath)
         else Threw (newError (js "File not found: " ++ cleanPath)),
         m, w4))
  /\ (forall e w1,
        respond E _ w cat = (Rejected e, w1) ->
        run E (readFileFromContainer NumberToString userId filePath) m w
        = (Threw e, m, w1))
  /\ (forall exec e w1 w2,
        respond E _ w cat = (Resolved exec, w1) ->
        respond E _ w1 (ExecStart exec plainStart) = (Rejected e, w2) ->
        run E (readFileFromContainer NumberToString userId filePath) m w
        = (Threw e, m, w2))
  /\ (forall exec stream e w1 w2 w3,
        respond E _ w cat = (Resolved exec, w1) ->
        respond E _ w1 (ExecStart exec plainStart) = (Resolved stream, w2) ->
        respond E _ w2 (StreamData stream) = (Rejected e, w3) ->
        run E (readFileFromContainer NumberToString userId filePath) m w
        = (Threw e, m, w3))
  /\ (forall exec stream chunks e w1 w2 w3 w4,
        respond E _ w cat = (Resolved exec, w1) ->
        respond E _ w1 (ExecStart exec plainStart) = (Resolved stream, w2) ->
        respond E _ w2 (StreamData stream) = (Resolved chunks, w3) ->
        respond E _ w3 (ExecInspect exec) = (Rejected e, w4) ->
        run E (readFileFromContainer NumberToString userId filePath) m w
        = (Threw e, m, w4)).
Proof.
  intros Hc cleanPath cat. subst cleanPath cat.
  unfold readFileFromContainer. step_run. rewrite Hc. step_run.
  split; [|split; [|split; [|split]]].
  - intros exec stream chunks exitCode w1 w2 w3 w4 H1 H2 H3 H4.
    rewrite H1. step_run. rewrite H2. step_run. rewrite H3. step_run.
    change [js "No such file or directory"; js "cannot access"] with readFailurePhrases.
    destruct (collect_read chunks) as [Hcol Hfalsy].
    destruct (collect readFailurePhrases chunks) as [output error] eqn:Ecol.
    cbn [snd] in Hfalsy. step_run. rewrite H4. step_run. rewrite Hfalsy.
    destruct (bool_decide (exitCode = Some 0%Z)); cbn [andb]; [|done].
    destruct (forallb (fun d => negb (flagged d)) chunks); [|done].
    by injection Hcol as -> ->.
  - intros e w1 H1. by rewrite H1.
  - intros exec e w1 w2 H1 H2. rewrite H1. step_run. by rewrite H2.
  - intros exec stream e w1 w2 w3 H1 H2 H3.
    rewrite H1. step_run. rewrite H2. step_run. by rewrite H3.
  - intros exec stream chunks e w1 w2 w3 w4 H1 H2 H3 H4.
    rewrite H1. step_run. rewrite H2. step_run. rewrite H3. step_run.
    destruct (collect [js "No such file or directory"; js "cannot access"] chunks)
      as [output error].
    step_run. by rewrite H4.
Qed.

Lemma readFileFromContainer_outcome_witness :
  run (Trace.replay [js "print(1)"] (Some 0%Z))
      (readFileFromContainer (fun l => l) (js "s1") (js "main.py"))
      (mkManager {[ js "s1" := 7 ]} ∅) tt
  = (Returned (js "print(1)"), mkManager {[ js "s1" := 7 ]} ∅, tt).
Proof.
  assert (userContainers (mkManager {[ js "s1" := 7 ]} ∅) !! js "s1" = Some 7) as Hc
    by (vm_compute; reflexivity).
  destruct (readFileFromContainer_outcome (fun l => l)
              (Trace.replay [js "print(1)"] (Some 0%Z)) tt
              (mkManager {[ js "s1" := 7 ]} ∅) (js "s1") (js "main.py") 7 Hc)
    as [H _].
  rewrite (H 0 0 [js "print(1)"] (Some 0%Z) tt tt tt tt); reflexivity.
Defined.

(** C7 as stated fails: [cat] exits with 0 on a file whose text holds the
    phrase, and the read is rejected as not found, in both generations of
    [DockerManager]. *)
Lemma readFileFromContainer_rejects_exit_zero :
  (Trace.replayRespond [js "ENOENT: No such file or directory"] (Some 0%Z) _ tt
     (ExecInspect 0)).1 = Resolved (Some 0%Z)
  /\ (forall NumberToString,
        run (Trace.replay [js "ENOENT: No such file or directory"] (Some 0%Z))
            (readFileFromContainer NumberToString (js "s1") (js "errors.txt"))
            (mkManager {[ js "s1" := 7 ]} ∅) tt
        = (Threw (newError (js "File not found: errors.txt")),
           mkManager {[ js "s1" := 7 ]} ∅, tt))
  /\ run (Trace.replay [js "ENOENT: No such file or directory"] (Some 0%Z))
         (Legacy.readFileFromContainer (js "s1") (js "errors.txt"))
         (mkManager {[ js "s1" := 7 ]} ∅) tt
     = (Threw (newError (js "File not found: errors.txt")),
        mkManager {[ js "s1" := 7 ]} ∅, tt).
Proof. split; [reflexivity|]. split; [intros N2S; reflexivity|reflexivity]. Qed.

(** ** Content cleaning *)

Lemma includes_startsWith (s p : jsstr) :
  startsWith s p = true -> includes s p = true.
Proof. intros H. destruct s; simpl; by rewrite H. Qed.

Lemma includes_intro (a p b : jsstr) : includes (a ++ p ++ b) p = true.
Proof.
  induction a as [|x a IH].
  - apply includes_startsWith. apply (startsWith_app p b).
  - simpl. rewrite IH. apply orb_true_r.
Qed.

Lemma includes_inv (s p : jsstr) :
  includes s p = true -> exists a b, s = a ++ p ++ b.
Proof.
  induction s as [|x s IH]; simpl; intros H.
  - rewrite orb_false_r in H. destruct (startsWith_inv _ _ H) as [r Hr].
    by exists [], r.
  - apply orb_true_iff in H as [H|H].
    + destruct (startsWith_inv _ _ H) as [r Hr]. by exists [], r.
    + destruct (IH H) as (a & b & ->). by exists (x :: a), b.
Qed.

Lemma includes_package_json (path : jsstr) :
  includes path (js "package.json") = true -> jsonPath path = true.
Proof.
  intros H. destruct (includes_inv _ _ H) as (a & b & ->).
  unfold jsonPath. apply orb_true_iff. right.
  change (js "package.json") with (js "package" ++ js ".json").
  rewrite <- app_assoc. apply includes_intro.
Qed.

Lemma removeAll_fixed (class : N -> bool) (s : jsstr) :
  forallb (fun c => negb (class c)) s = true -> removeAll class s = s.
Proof.
  unfold removeAll. induction s as [|c s IH]; simpl; [done|].
  intros H. apply andb_true_iff in H as [-> H]. by rewrite IH.
Qed.

Lemma forallb_removeAll (class : N -> bool) (P : N -> bool) (s : jsstr) :
  forallb P s = true -> forallb P (removeAll class s) = true.
Proof.
  unfold removeAll. induction s as [|c s IH]; simpl; [done|].
  intros H. apply andb_true_iff in H as [Hc H].
  destruct (negb (class c)); simpl; [by rewrite Hc, IH|by apply IH].
Qed.

Lemma forallb_removeAll_self (class : N -> bool) (s : jsstr) :
  forallb (fun c => negb (class c)) (removeAll class s) = true.
Proof.
  unfold removeAll. induction s as [|c s IH]; simpl; [done|].
  destruct (negb (class c)) eqn:E; simpl; [by rewrite E|done].
Qed.

Lemma forallb_impl (P Q : N -> bool) (s : jsstr) :
  (forall c, P c = true -> Q c = true) ->
  forallb P s = true -> forallb Q s = true.
Proof.
  intros HPQ. induction s as [|c s IH]; simpl; [done|].
  intros H. apply andb_true_iff in H as [Hc H]. by rewrite (HPQ _ Hc), IH.
Qed.

Lemma replaceCRLF_cons (c d : N) (s : jsstr) :
  replaceCRLF (c :: d :: s)
  = if (c =? 13) && (d =? 10) then 10 :: replaceCRLF s
    else c :: replaceCRLF (d :: s).
Proof. reflexivity. Qed.

(** [replaceCRLF] only ever puts a line feed where it changes anything. *)
Lemma forallb_replaceCRLF (P : N -> bool) (s : jsstr) :
  P 10 = true -> forallb P s = true -> forallb P (replaceCRLF s) = true.
Proof.
  intros H10.
  assert (forall s, (forallb P s = true -> forallb P (replaceCRLF s) = true)
                    /\ (forall c, forallb P (c :: s) = true ->
                                  forallb P (replaceCRLF (c :: s)) = true)) as H.
  { clear s. induction s as [|d s [IH1 IH2]]; (split; [done || apply IH2|]); intros c Hc.
    - simpl in *. done.
    - rewrite replaceCRLF_cons. destruct ((c =? 13) && (d =? 10)).
      + cbn [forallb]. rewrite H10. apply IH1.
        cbn in Hc. apply andb_true_iff in Hc as [_ Hc].
        by apply andb_true_iff in Hc as [_ Hc].
      + cbn [forallb]. cbn [forallb] in Hc.
        apply andb_true_iff in Hc as [-> Hc]. by apply IH2. }
  apply H.
Qed.

Lemma replaceCRLF_fixed (s : jsstr) :
  forallb (fun c => negb (c =? 13)) s = true -> replaceCRLF s = s.
Proof.
  assert (forall s, (forallb (fun c => negb (c =? 13)) s = true -> replaceCRLF s = s)
                    /\ (forall c, forallb (fun c => negb (c =? 13)) (c :: s) = true ->
                                  replaceCRLF (c :: s) = c :: s)) as H.
  { clear s. induction s as [|d s [IH1 IH2]]; (split; [done || apply IH2|]); intros c Hc.
    - done.
    - rewrite replaceCRLF_cons. cbn [forallb] in Hc.
      apply andb_true_iff in Hc as [Hc13 Hc].
      apply negb_true_iff in Hc13. rewrite Hc13. cbn [andb].
      by rewrite IH2. }
  apply H.
Qed.

Lemma replaceCR_fixed (s : jsstr) :
  forallb (fun c => negb (c =? 13)) s = true -> replaceCR s = s.
Proof.
  unfold replaceCR. induction s as [|c s IH]; simpl; [done|].
  intros H. apply andb_true_iff in H as [Hc H].
  apply negb_true_iff in Hc. by rewrite Hc, IH.
Qed.

Lemma forallb_replaceCR (P : N -> bool) (s : jsstr) :
  P 10 = true -> forallb (fun c => P c || (c =? 13)) s = true ->
  forallb P (replaceCR s) = true.
Proof.
  intros H10. unfold replaceCR. induction s as [|c s IH]; simpl; [done|].
  intros H. apply andb_true_iff in H as [Hc H]. rewrite (IH H), andb_true_r.
  destruct (c =? 13); [done|]. by rewrite orb_false_r in Hc.
Qed.

Lemma whitelisted_no_CR (c : N) : whitelisted c = true -> negb (c =? 13) = true.
Proof.
  unfold whitelisted. intros H. apply negb_true_iff, N.eqb_neq. intros ->.
  vm_compute in H. discriminate.
Qed.

Lemma whitelisted_not_control (c : N) :
  whitelisted c = true -> negb (controlOrHigh c) = true.
Proof.
  unfold whitelisted, controlOrHigh. intros H. apply negb_true_iff.
  repeat match type of H with
         | (_ || _) = true => apply orb_true_iff in H as [H|H]
         | (_ && _) = true => apply andb_true_iff in H as [? H]
         end;
    repeat match goal with
           | H : (_ <=? _) = true |- _ => apply N.leb_le in H
           | H : (_ =? _) = true |- _ => apply N.eqb_eq in H
           end;
    repeat (apply orb_false_iff; split);
    try (apply N.leb_gt; lia); try (apply N.eqb_neq; lia);
    apply andb_false_iff; first [left; apply N.leb_gt; lia | right; apply N.leb_gt; lia].
Qed.

Lemma whitelisted_safe_manager (c : N) :
  whitelisted c = negb (DockerManager.unsafe c).
Proof. unfold whitelisted, DockerManager.unsafe. by rewrite negb_involutive. Qed.

Lemma whitelisted_safe_index (c : N) :
  negb (Index.unsafe c) = whitelisted c || (c =? 13).
Proof. unfold whitelisted, Index.unsafe. by rewrite negb_involutive. Qed.

(** A whitelisted text is left as it is by the three replacements. *)
Lemma managerCleaned_fixed (s : jsstr) :
  forallb whitelisted s = true -> managerCleaned s = s.
Proof.
  intros H. unfold managerCleaned.
  rewrite (removeAll_fixed DockerManager.unsafe).
  2:{ eapply forallb_impl; [|exact H]. intros c Hc. by rewrite <- whitelisted_safe_manager. }
  rewrite (removeAll_fixed controlOrHigh).
  2:{ eapply forallb_impl; [|exact H]. apply whitelisted_not_control. }
  rewrite replaceCRLF_fixed, replaceCR_fixed; try done;
    (eapply forallb_impl; [|exact H]; apply whitelisted_no_CR).
Qed.

Lemma indexCleaned_fixed (s : jsstr) :
  forallb whitelisted s = true -> indexCleaned s = s.
Proof.
  intros H. unfold indexCleaned.
  rewrite (removeAll_fixed Index.unsafe).
  2:{ eapply forallb_impl; [|exact H]. intros c Hc.
      by rewrite whitelisted_safe_index, Hc. }
  rewrite (removeAll_fixed controlOrHigh).
  2:{ eapply forallb_impl; [|exact H]. apply whitelisted_not_control. }
  rewrite replaceCRLF_fixed, replaceCR_fixed; try done;
    (eapply forallb_impl; [|exact H]; apply whitelisted_no_CR).
Qed.

(** In [DockerManager] the first replacement already drops every carriage
    return, so the cleaned text is the whitelisted units of the content. *)
Lemma managerCleaned_filter (content : jsstr) :
  managerCleaned content = List.filter whitelisted content.
Proof.
  assert (removeAll DockerManager.unsafe content = List.filter whitelisted content) as E.
  { unfold removeAll. apply filter_ext. intros c. by rewrite whitelisted_safe_manager. }
  assert (forallb whitelisted (List.filter whitelisted content) = true) as Hw.
  { rewrite forallb_forall. intros c Hc. by apply filter_In in Hc as [_ Hc]. }
  unfold managerCleaned. rewrite E.
  rewrite (removeAll_fixed controlOrHigh).
  2:{ eapply forallb_impl; [|exact Hw]. apply whitelisted_not_control. }
  rewrite replaceCRLF_fixed, replaceCR_fixed; try done;
    (eapply forallb_impl; [|exact Hw]; apply whitelisted_no_CR).
Qed.

Lemma managerCleaned_whitelisted (content : jsstr) :
  forallb whitelisted (managerCleaned content) = true.
Proof.
  rewrite managerCleaned_filter, forallb_forall.
  intros c Hc. by apply filter_In in Hc as [_ Hc].
Qed.

Lemma indexCleaned_whitelisted (content : jsstr) :
  forallb whitelisted (indexCleaned content) = true.
Proof.
  unfold indexCleaned. apply forallb_replaceCR; [done|].
  apply forallb_replaceCRLF; [done|].
  apply forallb_removeAll.
  eapply forallb_impl; [|apply (forallb_removeAll_self Index.unsafe)].
  intros c Hc. by rewrite <- whitelisted_safe_index.
Qed.

Lemma whitelisted_ascii (c : N) : whitelisted c = true -> c <= 126.
Proof.
  unfold whitelisted. intros H.
  repeat match type of H with
         | (_ || _) = true => apply orb_true_iff in H as [H|H]
         | (_ && _) = true => apply andb_true_iff in H as [? H]
         end;
    repeat match goal with
           | H : (_ <=? _) = true |- _ => apply N.leb_le in H
           | H : (_ =? _) = true |- _ => apply N.eqb_eq in H
           end; lia.
Qed.

(** A whitelisted text is its own UTF-8 encoding. *)
Lemma utf8_encode_ascii (s : jsstr) :
  forallb whitelisted s = true -> utf8_encode s = s.
Proof.
  induction s as [|c s IH]; [done|].
  cbn [forallb]. intros H. apply andb_true_iff in H as [Hc H].
  apply whitelisted_ascii in Hc.
  cbn [utf8_encode]. unfold JSON.is_high_surrogate, JSON.is_low_surrogate.
  replace (55296 <=? c) with false by (symmetry; apply N.leb_gt; lia).
  replace (56320 <=? c) with false by (symmetry; apply N.leb_gt; lia).
  cbn [andb]. unfold utf8_of_code_point.
  replace (c <? 128) with true by (symmetry; apply N.ltb_lt; lia).
  cbn [app]. by rewrite IH.
Qed.

Lemma manager_ultraCleanContent_unfold (NumberToString : jsstr -> jsstr)
  (content filePath : jsstr) :
  DockerManager.ultraCleanContent NumberToString content filePath
  = if falsy content then []
    else if jsonPath filePath then
      match JSON.parse (managerCleaned content) with
      | Some parsed => JSON.stringify NumberToString parsed
      | None => if includes filePath (js "package.json")
                then JSON.stringify NumberToString packageDefault
                else js "{}"
      end
    else managerCleaned content.
Proof. reflexivity. Qed.

Lemma index_ultraCleanContent_unfold (NumberToString : jsstr -> jsstr)
  (content filePath : jsstr) :
  Index.ultraCleanContent NumberToString content filePath
  = if falsy content then []
    else if jsonPath filePath then
      match JSON.parse (indexCleaned content) with
      | Some parsed => JSON.stringify NumberToString parsed
      | None => if includes filePath (js "package.json")
                then JSON.stringify NumberToString packageDefault
                else js "{}"
      end
    else indexCleaned content.
Proof. reflexivity. Qed.

(** The fallback texts: whitelisted, not empty, and read back by
    [JSON.parse] as the values they were written from. *)
Lemma fallback_facts (NumberToString : jsstr -> jsstr) :
  forallb whitelisted (JSON.stringify NumberToString packageDefault) = true
  /\ falsy (JSON.stringify NumberToString packageDefault) = false
  /\ JSON.parse (JSON.stringify NumberToString packageDefault) = Some packageDefault
  /\ JSON.parse (js "{}") = Some (JSON.JObject [])
  /\ JSON.stringify NumberToString (JSON.JObject []) = js "{}".
Proof. repeat split; vm_compute; reflexivity. Qed.

Lemma cleaned_or_fallback_whitelisted (NumberToString : jsstr -> jsstr)
  (cleaned : jsstr -> jsstr) (content filePath : jsstr) :
  (forall s, forallb whitelisted (cleaned s) = true) ->
  jsonPath filePath = false \/ JSON.parse (cleaned content) = None ->
  forallb whitelisted
    (if falsy content then []
     else if jsonPath filePath then
       match JSON.parse (cleaned content) with
       | Some parsed => JSON.stringify NumberToString parsed
       | None => if includes filePath (js "package.json")
                 then JSON.stringify NumberToString packageDefault
                 else js "{}"
       end
     else cleaned content) = true.
Proof.
  intros Hw Hcond. destruct (falsy content); [done|].
  destruct (jsonPath filePath) eqn:Ej.
  - destruct Hcond as [|Hnone]; [done|]. rewrite Hnone.
    destruct (includes filePath (js "package.json")); [|done].
    apply fallback_facts.
  - apply Hw.
Qed.

Lemma cleaned_or_fallback_idempotent (NumberToString : jsstr -> jsstr)
  (cleaned : jsstr -> jsstr) (content filePath : jsstr) :
  (forall s, forallb whitelisted (cleaned s) = true) ->
  (forall s, forallb whitelisted s = true -> cleaned s = s) ->
  jsonPath filePath = false \/ JSON.parse (cleaned content) = None ->
  let clean := fun c =>
    if falsy c then []
    else if jsonPath filePath then
      match JSON.parse (cleaned c) with
      | Some parsed => JSON.stringify NumberToString parsed
      | None => if includes filePath (js "package.json")
                then JSON.stringify NumberToString packageDefault
                else js "{}"
      end
    else cleaned c in
  clean (clean content) = clean content.
Proof.
  intros Hw Hfix Hcond clean. subst clean. cbv beta.
  destruct (falsy content) eqn:Ec; [done|].
  destruct (jsonPath filePath) eqn:Ej.
  - destruct Hcond as [|Hnone]; [done|]. rewrite Hnone.
    destruct (fallback_facts NumberToString) as (Hdw & Hdf & Hdp & Hep & Hes).
    destruct (includes filePath (js "package.json")).
    + rewrite Hdf, (Hfix _ Hdw), Hdp. done.
    + change (falsy (js "{}")) with false. cbv iota.
      rewrite (Hfix (js "{}")) by done. by rewrite Hep, Hes.
  - destruct (falsy (cleaned content)) eqn:Ef.
    + by destruct (cleaned content).
    + apply Hfix, Hw.
Qed.

(** What a write injects, whatever the runtime answers: one archive entry,
    named by the repaired path and holding the UTF-8 bytes of the cleaned
    content. *)
Lemma writeFileToContainer_requests (NumberToString : jsstr -> jsstr)
  (E : Environment) (w : world E) (m : Manager)
  (userId filePath content : jsstr) (container : Container) :
  userContainers m !! userId = Some container ->
  archiveRequests
    (Trace.requests E (writeFileToContainer NumberToString userId filePath content) m w)
  = [ mkEntry (stripLeadingSlash (fixIncompleteExtension filePath))
        (length (utf8_encode (DockerManager.ultraCleanContent NumberToString content
                                (fixIncompleteExtension filePath))))
        420
        (utf8_encode (DockerManager.ultraCleanContent NumberToString content
                        (fixIncompleteExtension filePath))) ].
Proof.
  intros Hc. unfold writeFileToContainer.
  cbn [Trace.requests]. rewrite Hc.
  cbn [run Trace.requests bind try_catch await modify mbind mret prog_bind
       prog_ret fst snd archiveRequests createRequests flat_map app].
  repeat answer_step; reflexivity.
Qed.

Lemma writeFileToContainer_succeeds (NumberToString : jsstr -> jsstr)
  (E : Environment) (w w' : world E) (m : Manager)
  (userId filePath content : jsstr) (container : Container) :
  userContainers m !! userId = Some container ->
  respond E _ w
    (PutArchive container
       (mkEntry (stripLeadingSlash (fixIncompleteExtension filePath))
          (length (utf8_encode (DockerManager.ultraCleanContent NumberToString content
                                  (fixIncompleteExtension filePath))))
          420
          (utf8_encode (DockerManager.ultraCleanContent NumberToString content
                          (fixIncompleteExtension filePath))))
       (js "/workspace"))
  = (Resolved tt, w') ->
  (run E (writeFileToContainer NumberToString userId filePath content) m w).1.1
  = Returned tt.
Proof.
  intros Hc Hput. unfold writeFileToContainer.
  step_run. rewrite Hc. step_run. rewrite Hput. step_run.
  repeat answer_step; reflexivity.
Qed.

(** ** Manifest recovery *)

(** C3, as the code has it: for a content that is not empty, on a repaired
    path that includes [package.json], when the cleaned text does not parse
    the cleaner returns the one fallback text; that text parses back to the
    fallback object (name, version, main, type, scripts, keywords, author,
    license, description); and a write for a session with a container
    returns normally once the runtime accepts the archive holding it. *)
Theorem manifest_recovery (NumberToString : jsstr -> jsstr)
  (content filePath : jsstr) :
  content <> [] ->
  includes (fixIncompleteExtension filePath) (js "package.json") = true ->
  let fixedPath := fixIncompleteExtension filePath in
  let fallback := JSON.stringify NumberToString packageDefault in
  JSON.parse fallback = Some packageDefault
  /\ (JSON.parse (indexCleaned content) = None ->
      Index.ultraCleanContent NumberToString content fixedPath = fallback)
  /\ (JSON.parse (managerCleaned content) = None ->
      DockerManager.ultraCleanContent NumberToString content fixedPath = fallback
      /\ forall (E : Environment) (w w' : world E) (m : Manager) userId container,
          userContainers m !! userId = Some container ->
          respond E _ w
            (PutArchive container
               (mkEntry (stripLeadingSlash fixedPath) (length (utf8_encode fallback))
                  420 (utf8_encode fallback))
               (js "/workspace"))
          = (Resolved tt, w') ->
          (run E (writeFileToContainer NumberToString userId filePath content) m w).1.1
          = Returned tt).
Proof.
  intros Hne Hpkg fixedPath fallback. subst fixedPath fallback.
  pose proof (includes_package_json _ Hpkg) as Hj.
  assert (falsy content = false) as Hf by (by destruct content).
  split; [apply fallback_facts|]. split.
  - intros Hnone.
    by rewrite index_ultraCleanContent_unfold, Hf, Hj, Hnone, Hpkg.
  - intros Hnone.
    assert (DockerManager.ultraCleanContent NumberToString content
              (fixIncompleteExtension filePath)
            = JSON.stringify NumberToString packageDefault) as Hclean.
    { by rewrite manager_ultraCleanContent_unfold, Hf, Hj, Hnone, Hpkg. }
    split; [done|].
    intros E w w' m userId container Hc Hput.
    apply (writeFileToContainer_succeeds NumberToString E w w' m userId filePath
             content container Hc).
    by rewrite Hclean.
Qed.

Lemma manifest_recovery_witness :
  Index.ultraCleanContent (fun l => l) (js "{ name: broken") (js "package.json")
  = JSON.stringify (fun l => l) packageDefault
  /\ DockerManager.ultraCleanContent (fun l => l) (js "{ name: broken") (js "package.json")
     = JSON.stringify (fun l => l) packageDefault
  /\ (run FileStore.runtime
        (writeFileToContainer (fun l => l) (js "s1") (js "package.json")
           (js "{ name: broken"))
        (mkManager {[ js "s1" := 7 ]} ∅) FileStore.emptyWorld).1.1
     = Returned tt.
Proof.
  destruct (manifest_recovery (fun l => l) (js "{ name: broken") (js "package.json"))
    as (_ & Hindex & Hmanager); [discriminate | vm_compute; reflexivity |].
  split; [apply Hindex; vm_compute; reflexivity|].
  destruct Hmanager as [Hclean Hwrite]; [vm_compute; reflexivity|].
  split; [exact Hclean|].
  eapply (Hwrite FileStore.runtime FileStore.emptyWorld _ _ (js "s1") 7);
    vm_compute; reflexivity.
Defined.

(** C3 as stated fails: the empty content is no manifest, yet for
    [package.json] both cleaners return it as it is, and the write injects an
    empty file. *)
Lemma empty_manifest_is_written_empty :
  JSON.parse [] = None
  /\ includes (fixIncompleteExtension (js "package.json")) (js "package.json") = true
  /\ (forall NumberToString,
        Index.ultraCleanContent NumberToString [] (js "package.json") = []
        /\ DockerManager.ultraCleanContent NumberToString [] (js "package.json") = []
        /\ JSON.stringify NumberToString packageDefault <> []
        /\ archiveRequests
             (Trace.requests FileStore.runtime
                (writeFileToContainer NumberToString (js "s1") (js "package.json") [])
                (mkManager {[ js "s1" := 7 ]} ∅) FileStore.emptyWorld)
           = [mkEntry (js "package.json") 0 420 []]).
Proof.
  split; [reflexivity|]. split; [reflexivity|].
  intros N2S. repeat split; try reflexivity. discriminate.
Qed.

(** ** What a write injects *)

Lemma reencode_cons (c d : N) (s : jsstr) :
  Legacy.reencode (c :: d :: s)
  = if JSON.is_high_surrogate c then
      if JSON.is_low_surrogate d then c :: d :: Legacy.reencode s
      else 65533 :: Legacy.reencode (d :: s)
    else if JSON.is_low_surrogate c then 65533 :: Legacy.reencode (d :: s)
    else c :: Legacy.reencode (d :: s).
Proof. reflexivity. Qed.

Lemma forallb_reencode (P : N -> bool) (s : jsstr) :
  P 65533 = true -> forallb P s = true -> forallb P (Legacy.reencode s) = true.
Proof.
  intros HP.
  assert (forall s, (forallb P s = true -> forallb P (Legacy.reencode s) = true)
                    /\ (forall c, forallb P (c :: s) = true ->
                                  forallb P (Legacy.reencode (c :: s)) = true)) as H.
  { clear s. induction s as [|d s [IH1 IH2]]; (split; [done || apply IH2|]); intros c Hc.
    - cbn [forallb] in Hc. rewrite andb_true_r in Hc. cbn [Legacy.reencode].
      destruct (JSON.is_high_surrogate c); [cbn [forallb]; by rewrite HP|].
      destruct (JSON.is_low_surrogate c); cbn [forallb]; by rewrite ?HP, ?Hc.
    - rewrite reencode_cons. cbn [forallb] in Hc.
      apply andb_true_iff in Hc as [Hc Hds].
      pose proof Hds as Hds'. cbn [forallb] in Hds'.
      apply andb_true_iff in Hds' as [Hd Hs].
      destruct (JSON.is_high_surrogate c).
      + destruct (JSON.is_low_surrogate d); cbn [forallb].
        * by rewrite Hc, Hd, (IH1 Hs).
        * by rewrite HP, (IH2 d Hds).
      + destruct (JSON.is_low_surrogate c); cbn [forallb].
        * by rewrite HP, (IH2 d Hds).
        * by rewrite Hc, (IH2 d Hds). }
  apply H.
Qed.

Lemma Legacy_sanitize_noControl (content : jsstr) :
  forallb noControl (Legacy.sanitize content) = true.
Proof.
  unfold Legacy.sanitize. apply forallb_reencode; [done|].
  apply forallb_replaceCR; [done|].
  apply forallb_replaceCRLF; [done|].
  eapply forallb_impl; [|apply (forallb_removeAll_self Legacy.unicodeControl)].
  intros c Hc. unfold noControl. rewrite Hc. cbn [andb].
  by destruct (c =? 13).
Qed.

Lemma Legacy_write_requests (E : Environment) (w : world E) (m : Manager)
  (userId filePath content : jsstr) (container : Container) :
  userContainers m !! userId = Some container ->
  archiveRequests
    (Trace.requests E (Legacy.writeFileToContainer userId filePath content) m w)
  = [ mkEntry (stripLeadingSlash filePath)
        (length (utf8_encode (Legacy.sanitize content))) 420
        (utf8_encode (Legacy.sanitize content)) ].
Proof.
  intros Hc. unfold Legacy.writeFileToContainer.
  cbn [Trace.requests]. rewrite Hc.
  cbn [run Trace.requests bind try_catch await modify mbind mret prog_bind
       prog_ret fst snd archiveRequests createRequests flat_map app].
  repeat answer_step; reflexivity.
Qed.

Lemma indexCleaned_filter (content : jsstr) :
  indexCleaned content
  = replaceCR (replaceCRLF (List.filter (fun c => whitelisted c || (c =? 13)) content)).
Proof.
  assert (removeAll Index.unsafe content
          = List.filter (fun c => whitelisted c || (c =? 13)) content) as E.
  { unfold removeAll. apply filter_ext. intros c. apply whitelisted_safe_index. }
  unfold indexCleaned. rewrite E. do 2 f_equal.
  apply removeAll_fixed. rewrite forallb_forall. intros c Hc.
  apply filter_In in Hc as [_ Hc]. apply orb_true_iff in Hc as [Hc|Hc].
  - by apply whitelisted_not_control.
  - apply N.eqb_eq in Hc as ->. reflexivity.
Qed.

Lemma ascii_control_is_unicode_control (c : N) :
  Legacy.asciiControl c = true -> Legacy.unicodeControl c = true.
Proof.
  unfold Legacy.asciiControl, Legacy.unicodeControl. intros H.
  repeat match type of H with
         | (_ || _) = true => apply orb_true_iff in H as [H|H]
         | (_ && _) = true => apply andb_true_iff in H as [? H]
         end;
    repeat match goal with
           | H : (_ <=? _) = true |- _ => apply N.leb_le in H
           | H : (_ =? _) = true |- _ => apply N.eqb_eq in H
           end.
  - replace (c <=? 8) with true by (symmetry; apply N.leb_le; lia). done.
  - destruct (N.eq_dec c 11) as [->|?]; [done|].
    assert (c = 12) as -> by lia. done.
  - replace (14 <=? c) with true by (symmetry; apply N.leb_le; lia).
    replace (c <=? 31) with true by (symmetry; apply N.leb_le; lia).
    cbn [andb]. by rewrite !orb_true_r.
  - subst c. done.
Qed.

(** The first replacement of the earlier sanitizer removes nothing the
    second would keep. *)
Lemma removeAll_ascii_unicode (s : jsstr) :
  removeAll Legacy.unicodeControl (removeAll Legacy.asciiControl s)
  = List.filter (fun c => negb (Legacy.unicodeControl c)) s.
Proof.
  unfold removeAll. induction s as [|c s IH]; [done|].
  cbn [List.filter].
  destruct (Legacy.asciiControl c) eqn:Ea; cbn [negb].
  - by rewrite (ascii_control_is_unicode_control c Ea).
  - cbn [List.filter]. by rewrite IH.
Qed.

(** The re-encoding changes nothing in a text without surrogates. *)
Lemma reencode_fixed (s : jsstr) :
  forallb (fun c => negb (JSON.is_high_surrogate c || JSON.is_low_surrogate c)) s = true ->
  Legacy.reencode s = s.
Proof.
  induction s as [|c s IH]; [done|]. cbn [forallb]. intros H.
  apply andb_true_iff in H as [Hc Hs]. apply negb_true_iff, orb_false_iff in Hc as [Hh Hl].
  cbn [Legacy.reencode]. rewrite Hh, Hl. by rewrite (IH Hs).
Qed.

(** Off the JSON paths [DockerManager] writes a whitelisted text as it is. *)
Lemma whitelisted_written_unchanged (NumberToString : jsstr -> jsstr)
  (content filePath : jsstr) :
  jsonPath filePath = false ->
  forallb whitelisted content = true ->
  utf8_encode (DockerManager.ultraCleanContent NumberToString content filePath) = content.
Proof.
  intros Hj Hw. rewrite manager_ultraCleanContent_unfold, Hj.
  destruct content as [|c content]; [reflexivity|]. cbn [falsy].
  rewrite (managerCleaned_fixed _ Hw). by apply utf8_encode_ascii.
Qed.

(** C4, as the code has it.  Whatever the runtime answers, a write of the
    current [DockerManager] for a session with a container injects one entry:
    the UTF-8 bytes of the cleaned content.  When the repaired path is no
    JSON path, or the cleaned text does not parse, these bytes are all
    printable ASCII, line feed or tab, none a carriage return.  The cleaner
    of the socket layer gives whitelisted text under the same condition; off
    the JSON paths its text is the whitelisted units and the carriage returns
    of the content with CRLF and then CR replaced by LF, and [DockerManager]
    writes a whitelisted text as it is.  The earlier [DockerManager] injects
    the bytes of the sanitized content: the content without its C0 and C1
    control characters other than tab, line feed and carriage return, with
    CRLF and then CR replaced by LF, and with every surrogate that is not part
    of a pair replaced by U+FFFD; every other unit is kept. *)
Theorem written_content_whitelisted (NumberToString : jsstr -> jsstr)
  (E : Environment) (w : world E) (m : Manager)
  (userId filePath content : jsstr) (container : Container) :
  userContainers m !! userId = Some container ->
  let fixedPath := fixIncompleteExtension filePath in
  let cleanContent := DockerManager.ultraCleanContent NumberToString content fixedPath in
  archiveRequests
    (Trace.requests E (writeFileToContainer NumberToString userId filePath content) m w)
  = [ mkEntry (stripLeadingSlash fixedPath) (length (utf8_encode cleanContent)) 420
        (utf8_encode cleanContent) ]
  /\ (jsonPath fixedPath = false \/ JSON.parse (managerCleaned content) = None ->
      forallb whitelisted (utf8_encode cleanContent) = true
      /\ forallb (fun b => negb (b =? 13)) (utf8_encode cleanContent) = true)
  /\ (jsonPath fixedPath = false \/ JSON.parse (indexCleaned content) = None ->
      forallb whitelisted (Index.ultraCleanContent NumberToString content fixedPath) = true)
  /\ (jsonPath fixedPath = false ->
      Index.ultraCleanContent NumberToString content fixedPath
      = replaceCR (replaceCRLF
                     (List.filter (fun c => whitelisted c || (c =? 13)) content))
      /\ (forallb whitelisted content = true -> utf8_encode cleanContent = content))
  /\ (archiveRequests
        (Trace.requests E (Legacy.writeFileToContainer userId filePath content) m w)
      = [ mkEntry (stripLeadingSlash filePath)
            (length (utf8_encode (Legacy.sanitize content))) 420
            (utf8_encode (Legacy.sanitize content)) ]
      /\ Legacy.sanitize content
         = Legacy.reencode
             (replaceCR (replaceCRLF
                           (List.filter (fun c => negb (Legacy.unicodeControl c)) content)))
      /\ (forallb (fun c => negb (JSON.is_high_surrogate c || JSON.is_low_surrogate c))
                  content = true ->
          Legacy.sanitize content
          = replaceCR (replaceCRLF
                         (List.filter (fun c => negb (Legacy.unicodeControl c)) content)))
      /\ forallb noControl (Legacy.sanitize content) = true).
Proof.
  intros Hc fixedPath cleanContent. subst cleanContent fixedPath.
  split; [by apply (writeFileToContainer_requests _ _ _ _ _ _ _ container)|].
  assert (jsonPath (fixIncompleteExtension filePath) = false
          \/ JSON.parse (managerCleaned content) = None ->
          forallb whitelisted
            (DockerManager.ultraCleanContent NumberToString content
               (fixIncompleteExtension filePath)) = true) as Hw.
  { intros Hcond. rewrite manager_ultraCleanContent_unfold.
    apply cleaned_or_fallback_whitelisted; [apply managerCleaned_whitelisted|done]. }
  split; [|split; [|split]].
  - intros Hcond. specialize (Hw Hcond). rewrite (utf8_encode_ascii _ Hw).
    split; [done|]. eapply forallb_impl; [|exact Hw]. apply whitelisted_no_CR.
  - intros Hcond. rewrite index_ultraCleanContent_unfold.
    apply cleaned_or_fallback_whitelisted; [apply indexCleaned_whitelisted|done].
  - intros Hj. split.
    + rewrite index_ultraCleanContent_unfold, Hj, <- indexCleaned_filter.
      by destruct content.
    + by apply whitelisted_written_unchanged.
  - split; [by apply (Legacy_write_requests _ _ _ _ _ _ container)|].
    assert (Legacy.sanitize content
            = Legacy.reencode
                (replaceCR (replaceCRLF
                              (List.filter (fun c => negb (Legacy.unicodeControl c))
                                           content)))) as Hs.
    { unfold Legacy.sanitize. cbv zeta. by rewrite removeAll_ascii_unicode. }
    split; [exact Hs|]. split; [|apply Legacy_sanitize_noControl].
    intros Hplain. rewrite Hs. apply reencode_fixed.
    set (plain := fun c => negb (JSON.is_high_surrogate c || JSON.is_low_surrogate c)) in *.
    apply forallb_replaceCR; [done|].
    apply (forallb_impl plain); [intros c Hpc; by rewrite Hpc|].
    apply forallb_replaceCRLF; [done|].
    exact (forallb_removeAll Legacy.unicodeControl plain content Hplain).
Qed.

(** The units the earlier sanitizer changes that are no control characters:
    a surrogate without its pair becomes U+FFFD, a pair is kept. *)
Example Legacy_sanitize_surrogates :
  Legacy.sanitize [97; 55296; 98] = [97; 65533; 98]
  /\ Legacy.sanitize [97; 56832; 98] = [97; 65533; 98]
  /\ Legacy.sanitize [55357; 56832] = [55357; 56832]
  /\ utf8_encode (Legacy.sanitize [55357; 56832]) = [240; 159; 152; 128].
Proof. repeat split; reflexivity. Qed.

Lemma written_content_whitelisted_witness :
  archiveRequests
    (Trace.requests FileStore.runtime
       (writeFileToContainer (fun l => l) (js "s1") (js "main.py")
          (js "print(1)" ++ [13; 10; 7; 233] ++ js "x" ++ [13] ++ js "y"))
       (mkManager {[ js "s1" := 7 ]} ∅) FileStore.emptyWorld)
  = [ mkEntry (js "main.py") 11 420 (js "print(1)" ++ [10] ++ js "xy") ]
  /\ forallb whitelisted (js "print(1)" ++ [10] ++ js "xy") = true.
Proof.
  assert (userContainers (mkManager {[ js "s1" := 7 ]} ∅) !! js "s1" = Some 7) as Hc
    by (vm_compute; reflexivity).
  destruct (written_content_whitelisted (fun l => l) FileStore.runtime FileStore.emptyWorld
              (mkManager {[ js "s1" := 7 ]} ∅) (js "s1") (js "main.py")
              (js "print(1)" ++ [13; 10; 7; 233] ++ js "x" ++ [13] ++ js "y") 7 Hc)
    as (Hreq & Hw & _).
  split; [rewrite Hreq; vm_compute; reflexivity|].
  destruct Hw as [Hw _]; [left; vm_compute; reflexivity|].
  revert Hw. vm_compute. exact (fun H => H).
Defined.

(** C4 as stated fails.  In the earlier generation a ['file:change'] with
    the content U+00E9 for [notes.txt] has the bytes C3 A9 injected: the
    sanitizer keeps the unit.  In the current generation the JSON text that
    holds, as escapes, U+00E9 between the two halves of a surrogate pair is
    pure ASCII; the cleaner of the socket layer parses it and writes U+00E9
    itself between the two escapes, and [writeFileToContainer], given that
    text for [data.json], strips the unit, parses the pair and has the bytes
    F0 9F 98 80 injected between the quotes. *)
Lemma json_write_leaves_whitelist :
  archiveRequests
    (Trace.requests FileStore.runtime
       (Legacy.onFileChange (js "s1") (js "notes.txt") [233])
       (mkManager {[ js "s1" := 7 ]} ∅) FileStore.emptyWorld)
  = [mkEntry (js "notes.txt") 2 420 [195; 169]]
  /\ forallb whitelisted [195; 169] = false
  /\ forallb whitelisted ([34] ++ js "\ud83d\u00e9\ude00" ++ [34]) = true
  /\ (forall NumberToString,
        Index.ultraCleanContent NumberToString
          ([34] ++ js "\ud83d\u00e9\ude00" ++ [34]) (js "data.json")
        = [34] ++ js "\ud83d" ++ [233] ++ js "\ude00" ++ [34])
  /\ (forall NumberToString,
        archiveRequests
          (Trace.requests FileStore.runtime
             (writeFileToContainer NumberToString (js "s1") (js "data.json")
                (Index.ultraCleanContent NumberToString
                   ([34] ++ js "\ud83d\u00e9\ude00" ++ [34]) (js "data.json")))
             (mkManager {[ js "s1" := 7 ]} ∅) FileStore.emptyWorld)
        = [mkEntry (js "data.json") 6 420 [34; 240; 159; 152; 128; 34]])
  /\ forallb whitelisted [34; 240; 159; 152; 128; 34] = false.
Proof.
  split; [reflexivity|]. split; [reflexivity|]. split; [reflexivity|].
  split; [intros N2S; reflexivity|]. split; [intros N2S; reflexivity|reflexivity].
Qed.

(** ** Cleaning twice *)

(** C5, as the code has it: cleaning a second time changes nothing when the
    path is no JSON path, and on a JSON path when the cleaned text does not
    parse (the fallback is its own cleaning), for the cleaner of the socket
    layer and for the one of [DockerManager]. *)
Theorem ultraCleanContent_idempotent_outside_reserialization
  (NumberToString : jsstr -> jsstr) (content filePath : jsstr) :
  (jsonPath filePath = false \/ JSON.parse (indexCleaned content) = None ->
   Index.ultraCleanContent NumberToString
     (Index.ultraCleanContent NumberToString content filePath) filePath
   = Index.ultraCleanContent NumberToString content filePath)
  /\ (jsonPath filePath = false \/ JSON.parse (managerCleaned content) = None ->
      DockerManager.ultraCleanContent NumberToString
        (DockerManager.ultraCleanContent NumberToString content filePath) filePath
      = DockerManager.ultraCleanContent NumberToString content filePath).
Proof.
  split; intros Hcond.
  - apply (cleaned_or_fallback_idempotent NumberToString indexCleaned content filePath
             indexCleaned_whitelisted indexCleaned_fixed Hcond).
  - apply (cleaned_or_fallback_idempotent NumberToString managerCleaned content filePath
             managerCleaned_whitelisted managerCleaned_fixed Hcond).
Qed.

Lemma ultraCleanContent_idempotent_witness :
  Index.ultraCleanContent (fun l => l)
    (Index.ultraCleanContent (fun l => l) (js "a" ++ [13; 10; 233] ++ js "b") (js "main.py"))
    (js "main.py")
  = Index.ultraCleanContent (fun l => l) (js "a" ++ [13; 10; 233] ++ js "b") (js "main.py")
  /\ DockerManager.ultraCleanContent (fun l => l)
       (DockerManager.ultraCleanContent (fun l => l) (js "{ broken") (js "package.json"))
       (js "package.json")
     = DockerManager.ultraCleanContent (fun l => l) (js "{ broken") (js "package.json").
Proof.
  split.
  - apply (ultraCleanContent_idempotent_outside_reserialization (fun l => l)
             (js "a" ++ [13; 10; 233] ++ js "b") (js "main.py")).
    left. vm_compute. reflexivity.
  - apply (ultraCleanContent_idempotent_outside_reserialization (fun l => l)
             (js "{ broken") (js "package.json")).
    right. vm_compute. reflexivity.
Defined.

(** C5 as stated fails on the re-serialization branch: the content is the
    JSON string with the escape for U+00E9; cleaning parses it and writes the
    unit itself between the quotes, and cleaning that again strips the unit. *)
Lemma ultraCleanContent_not_idempotent :
  (forall NumberToString,
     DockerManager.ultraCleanContent NumberToString
       ([34; 92; 117] ++ js "00e9" ++ [34]) (js "data.json")
     = [34; 233; 34]
     /\ DockerManager.ultraCleanContent NumberToString [34; 233; 34] (js "data.json")
        = [34; 34])
  /\ (forall NumberToString,
        Index.ultraCleanContent NumberToString
          ([34; 92; 117] ++ js "00e9" ++ [34]) (js "data.json")
        = [34; 233; 34]
        /\ Index.ultraCleanContent NumberToString [34; 233; 34] (js "data.json")
           = [34; 34]).
Proof. split; intros N2S; split; reflexivity. Qed.

(** ** Running a program: the monad laws the proofs use *)

Lemma run_bind {S A B : Type} (E : Environment) (p : Prog S A) (f : A -> Prog S B)
  (s : S) (w : world E) :
  run E (bind p f) s w
  = match run E p s w with
    | (Returned a, s', w') => run E (f a) s' w'
    | (Threw e, s', w') => (Threw e, s', w')
    | (Crashed e, s', w') => (Crashed e, s', w')
    end.
Proof.
  revert s w. induction p as [a|e|k IH|s' k IH|R c k IH|e]; intros s w; cbn [bind run];
    try done.
  destruct (respond E R w c) as [r w']. apply IH.
Qed.

Lemma run_try_catch {S A : Type} (E : Environment) (p : Prog S A)
  (h : Error -> Prog S A) (s : S) (w : world E) :
  run E (try_catch p h) s w
  = match run E p s w with
    | (Threw e, s', w') => run E (h e) s' w'
    | other => other
    end.
Proof.
  revert s w. induction p as [a|e|k IH|s' k IH|R c k IH|e]; intros s w;
    cbn [try_catch run]; try done.
  destruct (respond E R w c) as [r w']. apply IH.
Qed.

Lemma requests_bind {S A B : Type} (E : Environment) (p : Prog S A) (f : A -> Prog S B)
  (s : S) (w : world E) :
  Trace.requests E (bind p f) s w
  = Trace.requests E p s w
    ++ match run E p s w with
       | (Returned a, s', w') => Trace.requests E (f a) s' w'
       | _ => []
       end.
Proof.
  revert s w. induction p as [a|e|k IH|s' k IH|R c k IH|e]; intros s w;
    cbn [bind run Trace.requests app]; try done.
  destruct (respond E R w c) as [r w']. by rewrite IH.
Qed.

Lemma requests_try_catch {S A : Type} (E : Environment) (p : Prog S A)
  (h : Error -> Prog S A) (s : S) (w : world E) :
  Trace.requests E (try_catch p h) s w
  = Trace.requests E p s w
    ++ match run E p s w with
       | (Threw e, s', w') => Trace.requests E (h e) s' w'
       | _ => []
       end.
Proof.
  revert s w. induction p as [a|e|k IH|s' k IH|R c k IH|e]; intros s w;
    cbn [try_catch run Trace.requests app]; try done.
  destruct (respond E R w c) as [r w']. by rewrite IH.
Qed.

Lemma execRequests_app (l1 l2 : list Trace.Request) :
  execRequests (l1 ++ l2) = execRequests l1 ++ execRequests l2.
Proof. unfold execRequests. apply flat_map_app. Qed.

Lemma emitRequests_app (l1 l2 : list Trace.Request) :
  emitRequests (l1 ++ l2) = emitRequests l1 ++ emitRequests l2.
Proof. unfold emitRequests. apply flat_map_app. Qed.

Lemma archiveRequests_app (l1 l2 : list Trace.Request) :
  archiveRequests (l1 ++ l2) = archiveRequests l1 ++ archiveRequests l2.
Proof. unfold archiveRequests. apply flat_map_app. Qed.

(** ** Programs that leave the registry alone and inject nothing *)

Lemma tame_Ret {A : Type} (E : Environment) (a : A) : tame E (Ret a).
Proof. by intros m w. Qed.

Lemma tame_Throw {A : Type} (E : Environment) (e : Error) : tame E (Throw e : M A).
Proof. by intros m w. Qed.

Lemma tame_Uncaught {A : Type} (E : Environment) (e : Error) : tame E (Uncaught e : M A).
Proof. by intros m w. Qed.

Lemma tame_Get {A : Type} (E : Environment) (k : Manager -> M A) :
  (forall m, tame E (k m)) -> tame E (Get k).
Proof. intros H m w. apply (H m). Qed.

Lemma tame_Await {A R : Type} (E : Environment) (c : Call R) (k : Res R -> M A) :
  archiveRequests [Trace.request c] = [] ->
  (forall r, tame E (k r)) -> tame E (Await c k).
Proof.
  intros Hc H m w. cbn [run Trace.requests].
  destruct (respond E R w c) as [r w'].
  destruct (H r m w') as [Hm Ha]. split; [exact Hm|].
  change (Trace.request c :: Trace.requests E (k r) m w')
    with ([Trace.request c] ++ Trace.requests E (k r) m w').
  by rewrite archiveRequests_app, Hc, Ha.
Qed.

Lemma tame_await {R : Type} (E : Environment) (c : Call R) :
  archiveRequests [Trace.request c] = [] -> tame E (await c).
Proof.
  intros Hc. apply tame_Await; [exact Hc|]. intros [x|e]; [apply tame_Ret|apply tame_Throw].
Qed.

Lemma tame_bind {A B : Type} (E : Environment) (p : M A) (f : A -> M B) :
  tame E p -> (forall a, tame E (f a)) -> tame E (bind p f).
Proof.
  intros Hp Hf m w. rewrite run_bind, requests_bind, archiveRequests_app.
  destruct (Hp m w) as [Hm Ha]. rewrite Ha.
  destruct (run E p m w) as [[[a|e|e] m'] w']; cbn [fst snd] in Hm; subst m'.
  - apply Hf.
  - done.
  - done.
Qed.

Lemma tame_try_catch {A : Type} (E : Environment) (p : M A) (h : Error -> M A) :
  tame E p -> (forall e, tame E (h e)) -> tame E (try_catch p h).
Proof.
  intros Hp Hh m w. rewrite run_try_catch, requests_try_catch, archiveRequests_app.
  destruct (Hp m w) as [Hm Ha]. rewrite Ha.
  destruct (run E p m w) as [[[a|e|e] m'] w']; cbn [fst snd] in Hm; subst m'.
  - done.
  - apply Hh.
  - done.
Qed.

Ltac tame_steps :=
  repeat first
    [ apply tame_Ret | apply tame_Throw | apply tame_Uncaught
    | apply tame_await; reflexivity
    | apply tame_bind; [|intros ?]
    | apply tame_try_catch; [|intros ?]
    | apply tame_Await; [reflexivity|intros [?|?]] ].

Lemma tame_Legacy_cleanup (E : Environment) (userId : jsstr) :
  tame E (Legacy.cleanupDuplicateFiles userId).
Proof.
  unfold Legacy.cleanupDuplicateFiles. apply tame_Get. intros m.
  destruct (userContainers m !! userId); unfold mbind, prog_bind; tame_steps.
Qed.

(** What a write of the earlier generation does to registry and archives,
    whatever the runtime answers. *)
Lemma Legacy_write_any (E : Environment) (w : world E) (m : Manager)
  (userId filePath content : jsstr) (container : Container) :
  userContainers m !! userId = Some container ->
  (run E (Legacy.writeFileToContainer userId filePath content) m w).1.2 = m
  /\ archiveRequests
       (Trace.requests E (Legacy.writeFileToContainer userId filePath content) m w)
     = [legacyEntry filePath content].
Proof.
  intros Hc. split; [|by apply (Legacy_write_requests _ _ _ _ _ _ container)].
  unfold Legacy.writeFileToContainer. cbn [run]. rewrite Hc. cbv zeta.
  unfold mbind, prog_bind. rewrite run_bind, run_try_catch. cbn [run await].
  destruct (respond E _ w _) as [[[]|e] w1]; cbn [run]; [|done].
  match goal with
  | |- (run E ?p m w1).1.2 = m => assert (tame E p) as Ht
  end.
  { tame_steps. }
  apply Ht.
Qed.

(** The ['file:change'] listener of the earlier generation, whatever the
    runtime answers: the registry is left as it is and one archive is
    injected, the entry of the repaired path and the sanitized content. *)
Lemma Legacy_onFileChange_any (E : Environment) (w : world E) (m : Manager)
  (userId path content : jsstr) (container : Container) :
  userContainers m !! userId = Some container ->
  (run E (Legacy.onFileChange userId path content) m w).1.2 = m
  /\ archiveRequests (Trace.requests E (Legacy.onFileChange userId path content) m w)
     = [legacyEntry (LegacySocket.fixedPath path) content].
Proof.
  intros Hc. unfold Legacy.onFileChange. cbv zeta.
  change (if endsWith path (js ".j") && negb (endsWith path (js ".js"))
             && negb (endsWith path (js ".json"))
          then path ++ js "s" else path) with (LegacySocket.fixedPath path).
  unfold Legacy.handleFileChange, mbind, prog_bind.
  rewrite run_try_catch, requests_try_catch, run_bind, requests_bind,
    run_try_catch, requests_try_catch, !archiveRequests_app.
  destruct (Legacy_write_any E w m userId (LegacySocket.fixedPath path) content container Hc)
    as [Hm Ha].
  rewrite Ha.
  assert (forall e, tame E (await (SocketEmit (FileError (LegacySocket.fixedPath path)
                                                 (message e))) : M unit)) as Hemit.
  { intros e. tame_steps. }
  destruct (run E (Legacy.writeFileToContainer userId (LegacySocket.fixedPath path) content)
              m w) as [[[[]|e|e] m'] w1]; cbn [fst snd] in Hm; subst m'; cbn [run app].
  - match goal with
    | |- context [run E ?p m w1] => assert (tame E p) as Ht
    end.
    { apply tame_bind; [apply tame_Legacy_cleanup|intros ?].
      apply tame_bind; [|intros ?; tame_steps].
      apply tame_try_catch; [|intros ?; tame_steps].
      apply tame_Get. intros m0. destruct (userContainers m0 !! userId); tame_steps. }
    destruct (Ht m w1) as [Hm1 Ha1]. rewrite Ha1.
    match goal with
    | |- context [run E ?p m w1] =>
        destruct (run E p m w1) as [[[[]|e|e] m'] w2]
    end; cbn [fst snd] in Hm1; subst m'; cbn [fst snd app]; try done.
    destruct (Hemit e m w2) as [Hm2 Ha2]. by rewrite Ha2.
  - destruct (Hemit e m w1) as [Hm2 Ha2]. by rewrite Ha2.
  - done.
Qed.

(** ** Running against the file store *)

Lemma workspace_target (x : jsstr) :
  startsWith (js "/workspace" ++ js "/" ++ x) (js "/workspace/") = true.
Proof. apply (startsWith_app (js "/workspace/") x). Qed.

Lemma findDelete_findCommand (ext : jsstr) :
  FileStore.findDelete (findCommand ext) = Some (42 :: ext, keptPatterns).
Proof. reflexivity. Qed.

Lemma lookup_runCommand (cmd : list jsstr) (pattern : jsstr) (excluded : list jsstr)
  (path : jsstr) (fs : gmap jsstr (list N)) :
  FileStore.findDelete cmd = Some (pattern, excluded) ->
  FileStore.runCommand cmd fs !! path
  = if FileStore.swept pattern excluded path then None else fs !! path.
Proof.
  intros Hcmd. unfold FileStore.runCommand. rewrite Hcmd, map_lookup_filter.
  destruct (fs !! path) as [x|]; [|by destruct (FileStore.swept _ _ _)].
  cbn. destruct (FileStore.swept pattern excluded path) eqn:Es.
  - rewrite option_guard_False; [done|]. cbn. tauto.
  - rewrite option_guard_True; [done|]. cbn. congruence.
Qed.

Lemma cleanupEach_store (c : Container) (exts : list jsstr) (m : Manager)
  (w : FileStore.World) :
  exists w',
    run FileStore.runtime (cleanupEach c exts) m w = (Returned tt, m, w')
    /\ FileStore.emitted w' = FileStore.emitted w
    /\ FileStore.containerFiles w' = FileStore.containerFiles w
    /\ forall path,
         FileStore.files w' !! path
         = if existsb (fun ext => FileStore.swept (42 :: ext) keptPatterns path) exts
           then None else FileStore.files w !! path.
Proof.
  revert w. induction exts as [|ext exts IH]; intros w.
  - exists w. by repeat split.
  - cbn [cleanupEach]. unfold mbind, prog_bind.
    rewrite run_bind, run_try_catch. store_steps.
    match goal with
    | |- context [run FileStore.runtime (cleanupEach c exts) m ?w1] =>
        destruct (IH w1) as (w' & Hrun & Hemit & Hother & Hfiles)
    end.
    exists w'. split; [exact Hrun|]. split; [exact Hemit|]. split; [exact Hother|].
    intros path. rewrite Hfiles. cbn [FileStore.files existsb].
    rewrite (lookup_runCommand _ _ _ _ _ (findDelete_findCommand ext)).
    destruct (FileStore.swept (42 :: ext) keptPatterns path); cbn [orb]; [|done].
    match goal with
    | |- context [existsb ?f exts] => by destruct (existsb f exts)
    end.
Qed.

Lemma cleanupDuplicateFiles_store (m : Manager) (w : FileStore.World)
  (userId : jsstr) (container : Container) :
  userContainers m !! userId = Some container ->
  exists w',
    run FileStore.runtime (cleanupDuplicateFiles userId) m w = (Returned tt, m, w')
    /\ FileStore.emitted w' = FileStore.emitted w
    /\ FileStore.containerFiles w' = FileStore.containerFiles w
    /\ forall path,
         FileStore.files w' !! path
         = if sweptByCleanup path then None else FileStore.files w !! path.
Proof.
  intros Hc. unfold cleanupDuplicateFiles. cbn [run]. rewrite Hc, run_try_catch.
  destruct (cleanupEach_store container incompleteExtensions m w)
    as (w' & Hrun & Hemit & Hother & Hfiles).
  exists w'. rewrite Hrun. by repeat split.
Qed.

Lemma writeFileToContainer_store (NumberToString : jsstr -> jsstr)
  (m : Manager) (w : FileStore.World) (userId filePath content : jsstr)
  (container : Container) :
  userContainers m !! userId = Some container ->
  exists w',
    run FileStore.runtime (writeFileToContainer NumberToString userId filePath content) m w
    = (Returned tt, m, w')
    /\ FileStore.emitted w' = FileStore.emitted w
    /\ FileStore.containerFiles w' = FileStore.containerFiles w
    /\ FileStore.files w'
       = <[js "/workspace" ++ js "/" ++ stripLeadingSlash (fixIncompleteExtension filePath)
           := utf8_encode (DockerManager.ultraCleanContent NumberToString content
                             (fixIncompleteExtension filePath))]> (FileStore.files w).
Proof.
  intros Hc. unfold writeFileToContainer. cbn [run]. rewrite Hc. store_steps.
  rewrite workspace_target. store_steps.
  eexists. split; [reflexivity|]. by repeat split.
Qed.

Lemma Legacy_write_store (m : Manager) (w : FileStore.World)
  (userId filePath content : jsstr) (container : Container) :
  userContainers m !! userId = Some container ->
  exists w',
    run FileStore.runtime (Legacy.writeFileToContainer userId filePath content) m w
    = (Returned tt, m, w')
    /\ FileStore.emitted w' = FileStore.emitted w
    /\ FileStore.containerFiles w' = FileStore.containerFiles w
    /\ FileStore.files w'
       = <[js "/workspace" ++ js "/" ++ stripLeadingSlash filePath
           := utf8_encode (Legacy.sanitize content)]> (FileStore.files w).
Proof.
  intros Hc. unfold Legacy.writeFileToContainer. cbn [run]. rewrite Hc. store_steps.
  rewrite workspace_target. store_steps.
  cbn [FileStore.runCommand FileStore.findDelete FileStore.files]. store_steps.
  cbn [FileStore.runCommand FileStore.findDelete FileStore.files].
  eexists. split; [reflexivity|]. by repeat split.
Qed.

Lemma findDelete_legacy :
  FileStore.findDelete
    [js "find"; js "/workspace"; js "-name"; js "*.j"; js "-type"; js "f";
     js "!"; js "-name"; js "*.js"; js "!"; js "-name"; js "*.json"; js "-delete"]
  = Some (js "*.j", [js "*.js"; js "*.json"])
  /\ FileStore.findDelete
       [js "find"; js "/workspace"; js "-name"; js "*.t"; js "-type"; js "f";
        js "!"; js "-name"; js "*.ts"; js "!"; js "-name"; js "*.txt"; js "-delete"]
     = Some (js "*.t", [js "*.ts"; js "*.txt"]).
Proof. split; reflexivity. Qed.

Lemma Legacy_cleanup_store (m : Manager) (w : FileStore.World)
  (userId : jsstr) (container : Container) :
  userContainers m !! userId = Some container ->
  exists w',
    run FileStore.runtime (Legacy.cleanupDuplicateFiles userId) m w = (Returned tt, m, w')
    /\ FileStore.emitted w' = FileStore.emitted w
    /\ FileStore.containerFiles w' = FileStore.containerFiles w
    /\ forall path,
         FileStore.files w' !! path
         = if sweptByLegacyCleanup path then None else FileStore.files w !! path.
Proof.
  intros Hc. unfold Legacy.cleanupDuplicateFiles. cbn [run]. rewrite Hc. store_steps.
  eexists. split; [reflexivity|]. split; [reflexivity|]. split; [reflexivity|].
  intros path. cbn [FileStore.files]. destruct findDelete_legacy as [Hj Ht].
  rewrite (lookup_runCommand _ _ _ _ _ Ht), (lookup_runCommand _ _ _ _ _ Hj).
  unfold sweptByLegacyCleanup.
  destruct (FileStore.swept (js "*.t") _ path); [by rewrite orb_true_r|].
  by rewrite orb_false_r.
Qed.

(** The ['file:change'] listener of the earlier generation against the file
    store: it returns normally and emits nothing; the file it wrote is in
    the shared directory unless one of the two sweeps removes it, and the
    sweeps remove what they match of everything else there. *)
Lemma Legacy_onFileChange_store (m : Manager) (w : FileStore.World)
  (userId path content : jsstr) (container : Container) :
  userContainers m !! userId = Some container ->
  exists w',
    run FileStore.runtime (Legacy.onFileChange userId path content) m w
    = (Returned tt, m, w')
    /\ FileStore.emitted w' = FileStore.emitted w
    /\ FileStore.containerFiles w' = FileStore.containerFiles w
    /\ forall p,
         FileStore.files w' !! p
         = if sweptByLegacyCleanup p then None
           else <[legacyWrittenPath path := utf8_encode (Legacy.sanitize content)]>
                  (FileStore.files w) !! p.
Proof.
  intros Hc. unfold Legacy.onFileChange. cbv zeta.
  change (if endsWith path (js ".j") && negb (endsWith path (js ".js"))
             && negb (endsWith path (js ".json"))
          then path ++ js "s" else path) with (LegacySocket.fixedPath path).
  unfold Legacy.handleFileChange, mbind, prog_bind.
  rewrite run_try_catch, run_bind, run_try_catch.
  destruct (Legacy_write_store m w userId (LegacySocket.fixedPath path) content container Hc)
    as (w1 & -> & Hemit1 & Hother1 & Hfiles1).
  rewrite run_bind.
  destruct (Legacy_cleanup_store m w1 userId container Hc)
    as (w2 & -> & Hemit2 & Hother2 & Hfiles2).
  rewrite run_bind, run_try_catch. cbn [run]. rewrite Hc. store_steps.
  cbn [FileStore.runCommand FileStore.findDelete FileStore.files]. store_steps.
  cbn [FileStore.runCommand FileStore.findDelete FileStore.files].
  eexists. split; [reflexivity|]. cbn [FileStore.emitted FileStore.containerFiles
                                        FileStore.files].
  split; [congruence|]. split; [congruence|].
  intros p. by rewrite Hfiles2, Hfiles1.
Qed.

(** The ['file:change'] listener of the current generation against the
    file store, when the call is handed over to [writeFileToContainer]. *)
Lemma onFileChange_store (NumberToString : jsstr -> jsstr)
  (handleFileChange : jsstr -> jsstr -> jsstr -> M unit)
  (m : Manager) (w : FileStore.World) (userId path content : jsstr)
  (container : Container) :
  handsOver NumberToString handleFileChange ->
  userContainers m !! userId = Some container ->
  exists w',
    run FileStore.runtime
        (Socket.onFileChange NumberToString handleFileChange userId path content) m w
    = (Returned tt, m, w')
    /\ FileStore.emitted w' = FileStore.emitted w
    /\ FileStore.containerFiles w' = FileStore.containerFiles w
    /\ forall p,
         FileStore.files w' !! p
         = if sweptByCleanup p then None
           else <[writtenPath path := writtenBytes NumberToString path content]>
                  (FileStore.files w) !! p.
Proof.
  intros Hhands Hc. unfold Socket.onFileChange. cbv zeta. unfold mbind, prog_bind.
  rewrite run_try_catch, run_bind, Hhands.
  destruct (writeFileToContainer_store NumberToString m w userId
              (fixIncompleteExtension path)
              (Index.ultraCleanContent NumberToString content (fixIncompleteExtension path))
              container Hc) as (w1 & -> & Hemit1 & Hother1 & Hfiles1).
  rewrite run_bind.
  destruct (cleanupDuplicateFiles_store m w1 userId container Hc)
    as (w2 & -> & Hemit2 & Hother2 & Hfiles2).
  store_steps.
  exists w2. split; [reflexivity|]. split; [congruence|]. split; [congruence|].
  intros p. by rewrite Hfiles2, Hfiles1.
Qed.

(** ** File changes, one after another and overlapping *)

(** When the runtime settles every call of the first listener before the
    second event arrives, the interleaved run agrees with the sequential
    one: both listeners finish and the file holds the later content. *)
Example in_order_schedule_keeps_the_later :
  let sys :=
    Scheduler.runSchedule
      (Scheduler.mkSystem (mkManager {[ js "s1" := 7 ]} ∅) FileStore.emptyWorld [])
      ([ Scheduler.Submit (Legacy.onFileChange (js "s1") (js "notes.txt") (js "old")) ]
       ++ repeat (Scheduler.Settle 0) 17
       ++ [ Scheduler.Submit (Legacy.onFileChange (js "s1") (js "notes.txt") (js "new")) ]
       ++ repeat (Scheduler.Settle 1) 17) in
  Scheduler.tasks sys
  = [Scheduler.Finished (Returned tt); Scheduler.Finished (Returned tt)]
  /\ FileStore.files (Scheduler.storeWorld sys) !! js "/workspace/notes.txt"
     = Some (js "new").
Proof. split; vm_compute; reflexivity. Qed.

(** C10, as the code has it: the listeners keep no queue.  When a second
    [file:change] for a path is handled after the first has finished:
    - in the earlier generation, whatever the runtime answers, the first
      listener leaves the registry as it is and the two archives are
      injected in the order of the events, the later content last; against
      the file store both listeners return normally and the file holds the
      later content, sanitized (provided the path is not one the two sweeps
      delete);
    - in the current generation, when [handleFileChange] hands the call over
      to [writeFileToContainer], against the file store both listeners
      return normally and the file holds the later content, cleaned by the
      socket layer and again by [DockerManager] (provided the repaired path
      is not one the duplicate sweep deletes). *)
Theorem sequential_changes_keep_the_later (m : Manager)
  (userId path older newer : jsstr) (container : Container) :
  userContainers m !! userId = Some container ->
  (forall (E : Environment) (w : world E),
     let first := run E (Legacy.onFileChange userId path older) m w in
     first.1.2 = m
     /\ archiveRequests (Trace.requests E (Legacy.onFileChange userId path older) m w)
          ++ archiveRequests
               (Trace.requests E (Legacy.onFileChange userId path newer)
                  first.1.2 first.2)
        = [ legacyEntry (LegacySocket.fixedPath path) older;
            legacyEntry (LegacySocket.fixedPath path) newer ])
  /\ (forall w : FileStore.World,
        sweptByLegacyCleanup (legacyWrittenPath path) = false ->
        let first := run FileStore.runtime (Legacy.onFileChange userId path older) m w in
        let second := run FileStore.runtime (Legacy.onFileChange userId path newer)
                        first.1.2 first.2 in
        first.1.1 = Returned tt
        /\ second.1.1 = Returned tt
        /\ FileStore.files second.2 !! legacyWrittenPath path
           = Some (utf8_encode (Legacy.sanitize newer)))
  /\ (forall (NumberToString : jsstr -> jsstr)
             (handleFileChange : jsstr -> jsstr -> jsstr -> M unit)
             (w : FileStore.World),
        handsOver NumberToString handleFileChange ->
        sweptByCleanup (writtenPath path) = false ->
        let first := run FileStore.runtime
                       (Socket.onFileChange NumberToString handleFileChange userId path
                          older) m w in
        let second := run FileStore.runtime
                        (Socket.onFileChange NumberToString handleFileChange userId path
                           newer) first.1.2 first.2 in
        first.1.1 = Returned tt
        /\ second.1.1 = Returned tt
        /\ FileStore.files second.2 !! writtenPath path
           = Some (writtenBytes NumberToString path newer)).
Proof.
  intros Hc. split; [|split].
  - intros E w first. subst first.
    destruct (Legacy_onFileChange_any E w m userId path older container Hc) as [Hm Ha].
    split; [exact Hm|]. rewrite Hm, Ha.
    destruct (Legacy_onFileChange_any E (run E (Legacy.onFileChange userId path older) m w).2
                m userId path newer container Hc) as [_ Ha'].
    by rewrite Ha'.
  - intros w Hswept first second. subst second first.
    destruct (Legacy_onFileChange_store m w userId path older container Hc)
      as (w1 & -> & _).
    cbn [fst snd].
    destruct (Legacy_onFileChange_store m w1 userId path newer container Hc)
      as (w2 & -> & _ & _ & Hfiles).
    cbn [fst snd]. split; [done|]. split; [done|].
    by rewrite Hfiles, Hswept, lookup_insert_eq.
  - intros N2S handle w Hhands Hswept first second. subst second first.
    destruct (onFileChange_store N2S handle m w userId path older container Hhands Hc)
      as (w1 & -> & _).
    cbn [fst snd].
    destruct (onFileChange_store N2S handle m w1 userId path newer container Hhands Hc)
      as (w2 & -> & _ & _ & Hfiles).
    cbn [fst snd]. split; [done|]. split; [done|].
    by rewrite Hfiles, Hswept, lookup_insert_eq.
Qed.

Lemma sequential_changes_witness :
  FileStore.files
    (run FileStore.runtime
       (Legacy.onFileChange (js "s1") (js "notes.txt") (js "new"))
       (run FileStore.runtime
          (Legacy.onFileChange (js "s1") (js "notes.txt") (js "old"))
          (mkManager {[ js "s1" := 7 ]} ∅) FileStore.emptyWorld).1.2
       (run FileStore.runtime
          (Legacy.onFileChange (js "s1") (js "notes.txt") (js "old"))
          (mkManager {[ js "s1" := 7 ]} ∅) FileStore.emptyWorld).2).2
    !! js "/workspace/notes.txt"
  = Some (js "new")
  /\ FileStore.files
       (run FileStore.runtime
          (Socket.onFileChange (fun l => l) (writeFileToContainer (fun l => l))
             (js "s1") (js "notes.txt") (js "new"))
          (run FileStore.runtime
             (Socket.onFileChange (fun l => l) (writeFileToContainer (fun l => l))
                (js "s1") (js "notes.txt") (js "old"))
             (mkManager {[ js "s1" := 7 ]} ∅) FileStore.emptyWorld).1.2
          (run FileStore.runtime
             (Socket.onFileChange (fun l => l) (writeFileToContainer (fun l => l))
                (js "s1") (js "notes.txt") (js "old"))
             (mkManager {[ js "s1" := 7 ]} ∅) FileStore.emptyWorld).2).2
       !! js "/workspace/notes.txt"
     = Some (js "new").
Proof.
  assert (userContainers (mkManager {[ js "s1" := 7 ]} ∅) !! js "s1" = Some 7) as Hc
    by (vm_compute; reflexivity).
  destruct (sequential_changes_keep_the_later (mkManager {[ js "s1" := 7 ]} ∅)
              (js "s1") (js "notes.txt") (js "old") (js "new") 7 Hc)
    as (_ & Hlegacy & Hcurrent).
  split.
  - destruct (Hlegacy FileStore.emptyWorld) as (_ & _ & H); [vm_compute; reflexivity|].
    exact H.
  - destruct (Hcurrent (fun l => l) (writeFileToContainer (fun l => l))
                FileStore.emptyWorld) as (_ & _ & H);
      [intros u p c m0 w0; reflexivity | vm_compute; reflexivity |].
    exact H.
Defined.

(** C10 as stated fails: two changes of [notes.txt] arrive, [old] first;
    both listeners of the earlier generation are at their archive injection
    when the runtime performs the second one's before the first one's.  Both
    listeners finish normally and the file holds [old], although [new] is
    what the later call would leave. *)
Lemma overlapping_changes_lose_the_later :
  Scheduler.tasks legacyRaceOutcome
  = [Scheduler.Finished (Returned tt); Scheduler.Finished (Returned tt)]
  /\ FileStore.files (Scheduler.storeWorld legacyRaceOutcome) !! js "/workspace/notes.txt"
     = Some (js "old")
  /\ utf8_encode (Legacy.sanitize (js "new")) = js "new".
Proof. split; [|split]; vm_compute; reflexivity. Qed.

(** * Further properties of the sources *)

(** ** Path repair, applied once and twice *)

Lemma startsWith_length (s p : jsstr) :
  startsWith s p = true -> (length p <= length s)%nat.
Proof.
  intros H. destruct (startsWith_inv _ _ H) as [r ->]. rewrite length_app. lia.
Qed.

Lemma indexOf_bound (s p : jsstr) (k : nat) :
  indexOf s p = Some k -> (k + length p <= length s)%nat.
Proof.
  revert k. induction s as [|a s IH]; intros k; simpl.
  - destruct (startsWith [] p) eqn:E; [|done].
    intros [= <-]. by apply startsWith_length in E.
  - destruct (startsWith (a :: s) p) eqn:E.
    + intros [= <-]. by apply startsWith_length in E.
    + destruct (indexOf s p) as [k'|]; [|done]. simpl. intros [= <-].
      specialize (IH k' eq_refl). simpl. lia.
Qed.

Lemma indexOf_startsWith (s p : jsstr) :
  startsWith s p = true -> indexOf s p = Some O.
Proof. intros H. destruct s; simpl; by rewrite H. Qed.

Lemma indexOf_app (r p q : jsstr) : is_Some (indexOf (r ++ p ++ q) p).
Proof.
  induction r as [|a r IH]; simpl.
  - by rewrite (indexOf_startsWith _ _ (startsWith_app p q)).
  - destruct (startsWith (a :: r ++ p ++ q) p); [done|].
    destruct IH as [k ->]. done.
Qed.

Lemma replace_length (s p r : jsstr) :
  includes s p = true \/ is_Some (indexOf s p) ->
  (length (replace s p r) + length p = length s + length r)%nat.
Proof.
  intros H. rewrite replace_indexOf.
  assert (is_Some (indexOf s p)) as [k Hk].
  { destruct H as [H|H]; [|done].
    destruct (includes_inv _ _ H) as (a & b & ->). apply indexOf_app. }
  rewrite Hk. pose proof (indexOf_bound _ _ _ Hk).
  rewrite !length_app, length_take, length_drop. lia.
Qed.

Lemma fixWith_cases (table : list (jsstr * jsstr)) (path : jsstr) :
  fixWith table path = path
  \/ exists i c, (i, c) ∈ table /\ endsWith path i = true /\ endsWith path c = false
                 /\ fixWith table path = replace path i c.
Proof.
  induction table as [|[i c] table IH]; simpl; [by left|].
  destruct (endsWith path i) eqn:Ei; simpl.
  - destruct (endsWith path c) eqn:Ec; simpl.
    + destruct IH as [IH|(i' & c' & Hin & H)]; [by left|].
      right. exists i', c'. split; [by right|done].
    + right. exists i, c. split; [by left|done].
  - destruct IH as [IH|(i' & c' & Hin & H)]; [by left|].
    right. exists i', c'. split; [by right|done].
Qed.

Lemma extension_longer_than_fragment (i c : jsstr) :
  (i, c) ∈ extensionMap -> (length i < length c)%nat.
Proof.
  intros Hin.
  assert (forallb (fun e => (length (fst e) <? length (snd e))%nat) extensionMap = true)
    as H by (vm_compute; reflexivity).
  rewrite forallb_forall in H.
  specialize (H (i, c) (proj1 (list_elem_of_In _ _) Hin)).
  by apply Nat.ltb_lt in H.
Qed.

(** The repair never shortens a path: it returns the path itself or a
    strictly longer one, so it returns the empty path only for the empty path. *)
Theorem fixIncompleteExtension_grows (path : jsstr) :
  (fixIncompleteExtension path = path
   \/ (length path < length (fixIncompleteExtension path))%nat)
  /\ (fixIncompleteExtension path = [] <-> path = []).
Proof.
  assert (fixIncompleteExtension path = path
          \/ (length path < length (fixIncompleteExtension path))%nat) as H.
  { unfold fixIncompleteExtension.
    destruct (fixWith_cases extensionMap path) as [H|(i & c & Hin & Hi & Hc & ->)];
      [by left|right].
    destruct (endsWith_inv _ _ Hi) as [r Hr].
    pose proof (replace_length path i c) as Hlen.
    assert (is_Some (indexOf path i)) as Hsome.
    { rewrite Hr. rewrite <- (app_nil_r i) at 1. apply indexOf_app. }
    specialize (Hlen (or_intror Hsome)).
    pose proof (extension_longer_than_fragment i c Hin). lia. }
  split; [exact H|]. split.
  - intros E. destruct H as [H|H]; [congruence|]. rewrite E in H. simpl in H. lia.
  - intros ->. reflexivity.
Qed.

Lemma fixWith_find (table : list (jsstr * jsstr)) (path : jsstr) :
  fixWith table path
  = match List.find (fun e => endsWith path (fst e) && negb (endsWith path (snd e))) table with
    | Some (i, c) => replace path i c
    | None => path
    end.
Proof.
  induction table as [|[i c] table IH]; simpl; [done|].
  by destruct (endsWith path i && negb (endsWith path c)).
Qed.

Lemma ends_in_extension_unchanged (path i c : jsstr) :
  (i, c) ∈ extensionMap -> endsWith path c = true ->
  fixIncompleteExtension path = path.
Proof.
  intros Hin Hend. apply fixWith_none. intros i' c' Hin'.
  pose proof canonical_diverges_from_fragments as H.
  rewrite forallb_forall in H.
  assert (In c canonicalExtensions) as Hc.
  { apply list_elem_of_In. apply (list_elem_of_fmap_2 snd _ (i, c)), Hin. }
  specialize (H c Hc). rewrite forallb_forall in H.
  apply (diverge_endsWith c i' path); [|done].
  apply H, list_elem_of_In. apply (list_elem_of_fmap_2 fst _ (i', c')), Hin'.
Qed.

(** The write path repairs a path twice (the listener, then
    [writeFileToContainer]).  When the fragment the repair replaces does not
    occur earlier in the path, the second repair changes nothing. *)
Theorem fixIncompleteExtension_twice (path : jsstr) :
  (forall i c, repairedBy path = Some (i, c) ->
     indexOf path i = Some (length path - length i)%nat) ->
  fixIncompleteExtension (fixIncompleteExtension path) = fixIncompleteExtension path.
Proof.
  intros Hfinal. unfold fixIncompleteExtension at 2 3. rewrite fixWith_find.
  fold (repairedBy path). destruct (repairedBy path) as [[i c]|] eqn:E.
  - unfold repairedBy in E. pose proof (find_some _ _ E) as [Hin Hcond].
    apply list_elem_of_In in Hin. simpl in Hcond.
    apply andb_true_iff in Hcond as [Hi _].
    rewrite replace_indexOf, (Hfinal i c eq_refl).
    destruct (endsWith_inv _ _ Hi) as [r ->]. rewrite length_app.
    replace (length r + length i - length i + length i)%nat
      with (length (r ++ i)) by (rewrite length_app; lia).
    rewrite drop_all, app_nil_r.
    apply (ends_in_extension_unchanged _ i c Hin), endsWith_app.
  - unfold fixIncompleteExtension. rewrite fixWith_find.
    fold (repairedBy path). by rewrite E.
Qed.

Lemma fixIncompleteExtension_twice_witness :
  fixIncompleteExtension (fixIncompleteExtension (js "src/main.j"))
  = fixIncompleteExtension (js "src/main.j").
Proof.
  apply (fixIncompleteExtension_twice (js "src/main.j")).
  intros i c H. vm_compute in H. injection H as <- <-. reflexivity.
Defined.

(** Without that condition a second repair keeps rewriting. *)
Example repair_twice_of_an_early_fragment :
  fixIncompleteExtension (js "my.project/main.p") = js "my.pyroject/main.p"
  /\ fixIncompleteExtension (fixIncompleteExtension (js "my.project/main.p"))
     = js "my.pyyroject/main.p".
Proof. split; reflexivity. Qed.

(** ** The repair of the earlier socket layer *)

Lemma final_j_is_not_js (path : jsstr) :
  endsWith path (js ".j") = true ->
  endsWith path (js ".js") = false /\ endsWith path (js ".json") = false.
Proof.
  intros H. split; apply (diverge_endsWith (js ".j") _ path); try done; reflexivity.
Qed.

Lemma final_js_is_not_j (path : jsstr) :
  endsWith path (js ".js") = true -> endsWith path (js ".j") = false.
Proof. intros H. apply (diverge_endsWith (js ".js") _ path); [reflexivity|done]. Qed.

Lemma last_drop_lt {A : Type} (l : list A) (n : nat) :
  (n < length l)%nat -> last (drop n l) = last l.
Proof.
  intros Hn. rewrite <- (take_drop n l) at 2. rewrite last_app.
  assert (is_Some (last (drop n l))) as [y ->]; [|done].
  apply last_is_Some. intros E. apply (f_equal length) in E.
  rewrite length_drop in E. simpl in E. lia.
Qed.

(** The earlier socket layer repairs one fragment only, and by appending:
    a path that ends in [.j] gets an [s] (the two further tests of the
    condition never decide anything), any other path is kept; the result of
    a repair is never repaired again.  The table-driven repair of the current
    generation gives the same path for a path ending in [.j] exactly when
    [.j] does not occur earlier in it. *)
Theorem legacy_repair_appends (path : jsstr) :
  LegacySocket.fixedPath path
  = (if endsWith path (js ".j") then path ++ js "s" else path)
  /\ (endsWith path (js ".j") = true ->
      endsWith (LegacySocket.fixedPath path) (js ".js") = true)
  /\ LegacySocket.fixedPath (LegacySocket.fixedPath path) = LegacySocket.fixedPath path
  /\ (endsWith path (js ".j") = true ->
      (fixIncompleteExtension path = LegacySocket.fixedPath path
       <-> indexOf path (js ".j") = Some (length path - 2)%nat)).
Proof.
  assert (LegacySocket.fixedPath path
          = (if endsWith path (js ".j") then path ++ js "s" else path)) as E.
  { unfold LegacySocket.fixedPath. destruct (endsWith path (js ".j")) eqn:Hj; [|done].
    by destruct (final_j_is_not_js path Hj) as [-> ->]. }
  assert (endsWith path (js ".j") = true ->
          endsWith (path ++ js "s") (js ".js") = true) as Hjs.
  { intros Hj. destruct (endsWith_inv _ _ Hj) as [r ->].
    rewrite <- app_assoc. apply endsWith_app. }
  split; [exact E|]. split; [|split].
  - intros Hj. rewrite E, Hj. by apply Hjs.
  - rewrite E. destruct (endsWith path (js ".j")) eqn:Hj.
    + unfold LegacySocket.fixedPath.
      by rewrite (final_js_is_not_j _ (Hjs eq_refl)).
    + unfold LegacySocket.fixedPath. by rewrite Hj.
  - intros Hj. rewrite E, Hj.
    destruct (final_j_is_not_js path Hj) as [Hnjs _].
    assert (fixIncompleteExtension path = replace path (js ".j") (js ".js")) as ->.
    { unfold fixIncompleteExtension, extensionMap. cbn [fixWith].
      by rewrite Hj, Hnjs. }
    rewrite replace_indexOf.
    destruct (endsWith_inv _ _ Hj) as [r Hr].
    assert (is_Some (indexOf path (js ".j"))) as [k Hk].
    { rewrite Hr. rewrite <- (app_nil_r (js ".j")) at 1. apply indexOf_app. }
    rewrite Hk. pose proof (indexOf_bound _ _ _ Hk) as Hb.
    change (length (js ".j")) with 2%nat in *.
    assert (length path = (length r + 2)%nat) as Hlen by (by rewrite Hr, length_app).
    split.
    + intros Heq. f_equal.
      destruct (decide (k + 2 = length path)%nat) as [|Hne]; [lia|].
      exfalso. apply (f_equal last) in Heq.
      rewrite !last_app in Heq.
      rewrite last_drop_lt in Heq by lia.
      rewrite Hr in Heq at 1. rewrite last_app in Heq. by vm_compute in Heq.
    + intros [= ->]. clear Hk Hb Hj Hnjs E Hjs. subst path.
      replace (length (r ++ js ".j") - 2)%nat with (length r) by lia.
      rewrite take_app_length.
      replace (length r + 2)%nat with (length (r ++ js ".j")) by lia.
      by rewrite drop_all, app_nil_r, <- app_assoc.
Qed.

(** ** Listings *)

Lemma dropLeading_stops (class : N -> bool) (s t : jsstr) (c : N) :
  Listing.dropLeading class s = c :: t -> class c = false.
Proof.
  induction s as [|d s IH]; simpl; [done|].
  destruct (class d) eqn:E; [exact IH|]. by intros [= <- _].
Qed.

Lemma dropLeading_suffix (class : N -> bool) (s : jsstr) :
  exists run, s = run ++ Listing.dropLeading class s.
Proof.
  induction s as [|d s [run IH]]; simpl; [by exists []|].
  destruct (class d); [|by exists []]. exists (d :: run). simpl. by rewrite <- IH.
Qed.

Lemma dropTrailing_prefix (class : N -> bool) (s : jsstr) :
  exists run, s = Listing.dropTrailing class s ++ run.
Proof.
  unfold Listing.dropTrailing.
  destruct (dropLeading_suffix class (rev s)) as [run H].
  exists (rev run). rewrite <- rev_app_distr, <- H. by rewrite rev_involutive.
Qed.

Lemma dropTrailing_stops (class : N -> bool) (s : jsstr) (c : N) :
  last (Listing.dropTrailing class s) = Some c -> class c = false.
Proof.
  unfold Listing.dropTrailing.
  destruct (Listing.dropLeading class (rev s)) as [|d t] eqn:E; [done|].
  simpl. rewrite last_snoc. intros [= <-]. by apply (dropLeading_stops class (rev s) t).
Qed.

Lemma splitSpaces_no_space (inRun : bool) (s : jsstr) :
  Forall (fun piece => forallb (fun c => negb (Listing.is_space c)) piece = true)
         (Listing.splitSpaces inRun s).
Proof.
  revert inRun. induction s as [|c s IH]; intros inRun; simpl.
  - by repeat constructor.
  - destruct (Listing.is_space c) eqn:Ec.
    + destruct inRun; [apply IH|]. constructor; [done|apply IH].
    + specialize (IH false). destruct (Listing.splitSpaces false s) as [|piece rest].
      * repeat constructor. simpl. by rewrite Ec.
      * inversion IH as [|? ? Hp Hrest]; subst. constructor; [|done].
        simpl. by rewrite Ec, Hp.
Qed.

(** A trimmed text is empty, or begins and ends with a unit that is not
    white space. *)
Lemma trim_ends (s : jsstr) :
  Listing.trim s = []
  \/ exists c t d,
       Listing.trim s = c :: t /\ Listing.is_space c = false
       /\ last (Listing.trim s) = Some d /\ Listing.is_space d = false.
Proof.
  destruct (Listing.trim s) as [|c t] eqn:E; [by left|right].
  unfold Listing.trim in E.
  destruct (last (c :: t)) as [d|] eqn:Ed; [|by apply last_None in Ed].
  exists c, t, d. split; [done|]. split; [|split; [done|]].
  - destruct (dropTrailing_prefix Listing.is_space (Listing.dropLeading Listing.is_space s))
      as [run H].
    rewrite E in H. simpl in H. by apply dropLeading_stops in H.
  - apply (dropTrailing_stops Listing.is_space (Listing.dropLeading Listing.is_space s)).
    by rewrite E.
Qed.

(** The pieces between runs of white space are not empty, but for the one
    before a leading run and the one after a trailing run. *)
Lemma splitSpaces_pieces (s : jsstr) :
  (s <> [] -> (exists d, last s = Some d /\ Listing.is_space d = false) ->
   Forall (fun piece => piece <> []) (Listing.splitSpaces true s))
  /\ (s = [] \/ (exists d, last s = Some d /\ Listing.is_space d = false) ->
      Forall (fun piece => piece <> []) (tail (Listing.splitSpaces false s))).
Proof.
  induction s as [|c s [IHA IHB]].
  - split; [done|]. intros _. simpl. constructor.
  - assert ((exists d, last (c :: s) = Some d /\ Listing.is_space d = false) ->
            Listing.is_space c = true ->
            s <> [] /\ exists d, last s = Some d /\ Listing.is_space d = false) as Hspace.
    { intros (d & Hd & Hs) Hc. destruct s as [|c' s'].
      - simpl in Hd. injection Hd as <-. congruence.
      - split; [done|]. exists d. split; [|done]. by rewrite last_cons_cons in Hd. }
    assert ((exists d, last (c :: s) = Some d /\ Listing.is_space d = false) ->
            s = [] \/ exists d, last s = Some d /\ Listing.is_space d = false) as Hword.
    { intros (d & Hd & Hs). destruct s as [|c' s']; [by left|right].
      exists d. split; [|done]. by rewrite last_cons_cons in Hd. }
    split.
    + intros _ Hlast. cbn [Listing.splitSpaces].
      destruct (Listing.is_space c) eqn:Ec.
      * destruct (Hspace Hlast eq_refl) as [Hne Hl]. by apply IHA.
      * specialize (IHB (Hword Hlast)).
        destruct (Listing.splitSpaces false s) as [|piece rest]; [by repeat constructor|].
        constructor; [done|exact IHB].
    + intros [H|Hlast]; [done|]. cbn [Listing.splitSpaces].
      destruct (Listing.is_space c) eqn:Ec.
      * destruct (Hspace Hlast eq_refl) as [Hne Hl]. cbn [tail]. by apply IHA.
      * specialize (IHB (Hword Hlast)).
        destruct (Listing.splitSpaces false s) as [|piece rest]; [by constructor|].
        exact IHB.
Qed.

(** The parts of a trimmed line that is not empty are words. *)
Lemma splitWhitespace_words (line : jsstr) :
  Listing.trim line <> [] ->
  Forall (fun piece => isWord piece = true) (Listing.splitWhitespace (Listing.trim line)).
Proof.
  intros Hne. destruct (trim_ends line) as [E|(c & t & d & E & Hc & Hd & Hs)]; [done|].
  pose proof (splitSpaces_no_space false (Listing.trim line)) as Hplain.
  assert (Forall (fun piece => piece <> [])
                 (Listing.splitWhitespace (Listing.trim line))) as Hfull.
  { destruct (splitSpaces_pieces (Listing.trim line)) as [_ HB].
    specialize (HB (or_intror (ex_intro _ d (conj Hd Hs)))).
    unfold Listing.splitWhitespace. rewrite E in *. cbn [Listing.splitSpaces] in *.
    rewrite Hc in *.
    destruct (Listing.splitSpaces false t) as [|piece rest]; [by repeat constructor|].
    constructor; [done|exact HB]. }
  unfold Listing.splitWhitespace in *.
  induction Hplain as [|piece pieces Hp Hps IH]; [constructor|].
  inversion Hfull as [|? ? Hf Hfs]; subst. constructor; [|by apply IH].
  unfold isWord. rewrite Hp. by destruct piece.
Qed.

Lemma item_not_workspace (name kind : jsstr) :
  kind = js "d" \/ kind = js "f" ->
  (name ++ js "|" ++ kind = js "workspace|d" \/ name ++ js "|" ++ kind = js "workspace|f")
  <-> name = js "workspace".
Proof.
  intros Hk. split.
  - assert (forall k, k = js "d" \/ k = js "f" ->
                      name ++ js "|" ++ kind = js "workspace" ++ js "|" ++ k ->
                      name = js "workspace") as H.
    { intros k Hk' E. apply app_inj_2 in E as [E _]; [done|].
      by destruct Hk as [->| ->], Hk' as [->| ->]. }
    intros [E|E]; [apply (H (js "d"))|apply (H (js "f"))]; auto.
  - intros ->. destruct Hk as [->| ->]; [by left|by right].
Qed.

Lemma keep_unless_workspace (name kind : jsstr) :
  kind = js "d" \/ kind = js "f" ->
  (if negb (bool_decide (name ++ js "|" ++ kind = js "workspace|d"))
      && negb (bool_decide (name ++ js "|" ++ kind = js "workspace|f"))
   then Some (name ++ js "|" ++ kind) else None)
  = (if bool_decide (name = js "workspace") then None else Some (name ++ js "|" ++ kind)).
Proof.
  intros Hk. pose proof (item_not_workspace name kind Hk) as Hw.
  destruct (bool_decide (name = js "workspace")) eqn:Ew.
  - apply bool_decide_eq_true in Ew. apply Hw in Ew as [Ew|Ew]; rewrite Ew.
    + by rewrite bool_decide_eq_true_2.
    + rewrite (bool_decide_eq_true_2 (js "workspace|f" = js "workspace|f")) by done.
      by rewrite andb_false_r.
  - apply bool_decide_eq_false in Ew.
    rewrite !bool_decide_eq_false_2; [done| |]; intros E; apply Ew, Hw; auto.
Qed.

(** What [listDirectory] makes of a line, when it makes anything of it. *)
Lemma directoryItem_Some (valid : list jsstr) (line item : jsstr) :
  Listing.directoryItem valid line = Some item ->
  let parts := Listing.splitWhitespace (Listing.trim line) in
  let name := JSON.join (js " ") (drop 8 parts) in
  item = name ++ js "|"
           ++ (if Listing.isDirectory (default [] (parts !! 0%nat)) then js "d" else js "f")
  /\ (9 <= length parts)%nat
  /\ name <> [] /\ startsWith name (js ".") = false
  /\ Listing.incompleteName valid name = false.
Proof.
  unfold Listing.directoryItem. cbv zeta.
  destruct (falsy (Listing.trim line)); [done|].
  destruct (length (Listing.splitWhitespace (Listing.trim line)) <? 9)%nat eqn:Elen; [done|].
  apply Nat.ltb_ge in Elen.
  destruct (falsy (default [] (Listing.splitWhitespace (Listing.trim line) !! 0%nat)));
    [done|].
  set (name := JSON.join (js " ") (drop 8 (Listing.splitWhitespace (Listing.trim line)))).
  destruct (falsy name) eqn:Ef; [done|].
  destruct (startsWith name (js ".")) eqn:Edot; [done|].
  destruct (bool_decide (name = js "..")); [done|]. cbn [negb andb].
  destruct (Listing.incompleteName valid name) eqn:Einc; [done|].
  intros [= <-]. repeat split; try done. intros E. by rewrite E in Ef.
Qed.

(** [listFiles] treats a line as [listDirectory] does, except that it
    leaves out the name [workspace]. *)
Lemma fileItem_directoryItem (valid : list jsstr) (line : jsstr) :
  Listing.fileItem valid line
  = match Listing.directoryItem valid line with
    | Some item =>
        if negb (bool_decide (item = js "workspace|d"))
           && negb (bool_decide (item = js "workspace|f"))
        then Some item else None
    | None => None
    end.
Proof.
  destruct (Listing.directoryItem valid line) as [item|] eqn:Ed.
  - pose proof (directoryItem_Some valid line item Ed) as H. cbv zeta in H.
    destruct H as (Hitem & Hlen & Hname & Hdot & Hinc).
    unfold Listing.directoryItem in Ed. unfold Listing.fileItem. cbv zeta in *.
    destruct (falsy (Listing.trim line)); [done|].
    destruct (length (Listing.splitWhitespace (Listing.trim line)) <? 9)%nat; [done|].
    destruct (falsy (default [] (Listing.splitWhitespace (Listing.trim line) !! 0%nat)));
      [done|].
    set (name := JSON.join (js " ") (drop 8 (Listing.splitWhitespace (Listing.trim line))))
      in *.
    destruct (falsy name); [done|]. rewrite Hdot in *.
    destruct (bool_decide (name = js "..")); [done|]. cbn [negb andb] in *.
    rewrite Hinc in *. rewrite Hitem. clear Hitem Ed.
    destruct (Listing.isDirectory
                (default [] (Listing.splitWhitespace (Listing.trim line) !! 0%nat)));
      [pose proof (item_not_workspace name (js "d") (or_introl eq_refl)) as Hw
      |pose proof (item_not_workspace name (js "f") (or_intror eq_refl)) as Hw].
    all: destruct (bool_decide (name = js "workspace")) eqn:Ew; cbn [negb];
      [ apply bool_decide_eq_true in Ew; apply Hw in Ew as [Ew|Ew]; rewrite Ew;
        [ by rewrite bool_decide_eq_true_2
        | rewrite (bool_decide_eq_true_2 (js "workspace|f" = js "workspace|f")) by done;
          by rewrite andb_false_r ]
      | apply bool_decide_eq_false in Ew;
        rewrite !bool_decide_eq_false_2; [done| |]; intros E; apply Ew, Hw; auto ].
  - unfold Listing.directoryItem in Ed. unfold Listing.fileItem. cbv zeta in *.
    destruct (Listing.trim line) as [|c t] eqn:Et; [reflexivity|]. cbn [falsy] in Ed.
    destruct (length (Listing.splitWhitespace (c :: t)) <? 9)%nat; [done|].
    destruct (falsy (default [] (Listing.splitWhitespace (c :: t) !! 0%nat))); [done|].
    set (name := JSON.join (js " ") (drop 8 (Listing.splitWhitespace (c :: t)))) in *.
    destruct (falsy name); [done|].
    destruct (startsWith name (js ".")); [done|].
    destruct (bool_decide (name = js "..")); [done|]. cbn [negb andb] in *.
    destruct (Listing.incompleteName valid name); [|done].
    by destruct (bool_decide (name = js "workspace")).
Qed.

Lemma omap_filter_Some {A B : Type} (f g : A -> option B) (P : B -> bool) (l : list A) :
  (forall x, f x = match g x with
                   | Some y => if P y then Some y else None
                   | None => None
                   end) ->
  omap f l = List.filter P (omap g l).
Proof.
  intros H. induction l as [|x l IH]; [done|].
  cbn [omap list_omap]. rewrite (H x). destruct (g x) as [y|]; [|exact IH].
  cbn [List.filter]. destruct (P y); by rewrite IH.
Qed.

(** An item of a listing comes from a line [listDirectory] accepts. *)
Lemma listed_item_line (valid : list jsstr) (output item : jsstr) :
  item ∈ Listing.parseFiles valid output \/ item ∈ Listing.parseDirectory valid output ->
  exists line,
    Listing.directoryItem valid line = Some item
    /\ (item ∈ Listing.parseFiles valid output ->
        item <> js "workspace|d" /\ item <> js "workspace|f").
Proof.
  intros [Hin|Hin].
  - pose proof Hin as Hin'. unfold Listing.parseFiles in Hin'. cbv zeta in Hin'.
    apply list_elem_of_omap in Hin' as (line & _ & Hline).
    rewrite fileItem_directoryItem in Hline.
    destruct (Listing.directoryItem valid line) as [item'|] eqn:Ed; [|done].
    destruct (bool_decide (item' = js "workspace|d")) eqn:E1; [done|].
    destruct (bool_decide (item' = js "workspace|f")) eqn:E2; [done|].
    cbn in Hline. injection Hline as ->.
    apply bool_decide_eq_false in E1, E2. exists line. split; [done|]. by intros _.
  - pose proof Hin as Hin'. unfold Listing.parseDirectory in Hin'. cbv zeta in Hin'.
    destruct (length (split 10 (Listing.trim output)) <=? 1)%nat;
      [by apply elem_of_nil in Hin'|].
    apply list_elem_of_omap in Hin' as (line & _ & Hline).
    exists line. split; [done|]. intros Hf.
    unfold Listing.parseFiles in Hf. cbv zeta in Hf.
    apply list_elem_of_omap in Hf as (line' & _ & Hline').
    rewrite fileItem_directoryItem in Hline'.
    destruct (Listing.directoryItem valid line') as [item'|]; [|done].
    destruct (bool_decide (item' = js "workspace|d")) eqn:E1; [done|].
    destruct (bool_decide (item' = js "workspace|f")) eqn:E2; [done|].
    cbn in Hline'. injection Hline' as ->.
    by apply bool_decide_eq_false in E1, E2.
Qed.

(** The root listing is the directory listing of the same output without the
    entries named [workspace]: the two guards [listDirectory] has in
    addition (at most one line, a blank line) never change the result. *)
Theorem parseFiles_parseDirectory (valid : list jsstr) (output : jsstr) :
  Listing.parseFiles valid output
  = List.filter (fun item => negb (bool_decide (item = js "workspace|d"))
                             && negb (bool_decide (item = js "workspace|f")))
                (Listing.parseDirectory valid output).
Proof.
  unfold Listing.parseFiles, Listing.parseDirectory. cbv zeta.
  destruct (length (split 10 (Listing.trim output)) <=? 1)%nat eqn:Elen.
  - apply Nat.leb_le in Elen.
    destruct (split 10 (Listing.trim output)) as [|l1 [|l2 ls]]; try done.
    simpl in Elen. lia.
  - apply omap_filter_Some. intros line. apply fileItem_directoryItem.
Qed.

(** Every item of a listing is a name, a bar and [d] or [f].  The name is
    not empty and does not begin with a dot; it is made of words (runs of
    units that are not white space) joined by single blanks, so it has no
    white space but blanks, no two blanks in a row and none at either end;
    when it includes a dot and one unit follows its last dot, that unit is one
    of the valid one-letter extensions; and the root listing never holds the
    name [workspace]. *)
Theorem listed_items (valid : list jsstr) (output item : jsstr) :
  item ∈ Listing.parseFiles valid output \/ item ∈ Listing.parseDirectory valid output ->
  exists name kind,
    item = name ++ js "|" ++ kind
    /\ (kind = js "d" \/ kind = js "f")
    /\ name <> []
    /\ startsWith name (js ".") = false
    /\ (exists words,
          words <> [] /\ Forall (fun word => isWord word = true) words
          /\ name = JSON.join (js " ") words)
    /\ (forall c, includes name (js ".") = true -> Listing.lastDotPiece name = [c] ->
                  [c] ∈ valid)
    /\ (item ∈ Listing.parseFiles valid output -> name <> js "workspace").
Proof.
  intros Hin.
  destruct (listed_item_line valid output item Hin) as (line & Hline & Hfiles).
  pose proof (directoryItem_Some valid line item Hline) as H. cbv zeta in H.
  destruct H as (Hitem & Hlen & Hname & Hdot & Hinc).
  set (parts := Listing.splitWhitespace (Listing.trim line)) in *.
  set (name := JSON.join (js " ") (drop 8 parts)) in *.
  exists name, (if Listing.isDirectory (default [] (parts !! 0%nat)) then js "d" else js "f").
  split; [exact Hitem|]. split; [destruct (Listing.isDirectory _); auto|].
  split; [exact Hname|]. split; [exact Hdot|]. split; [|split].
  - exists (drop 8 parts). split; [|split; [|done]].
    + intros E. apply (f_equal length) in E. rewrite length_drop in E. simpl in E. lia.
    + apply Forall_drop, splitWhitespace_words. intros E.
      subst parts. rewrite E in Hlen. simpl in Hlen. lia.
  - intros c Hinc' Hlast. unfold Listing.incompleteName in Hinc.
    rewrite Hinc', Hlast in Hinc. cbn in Hinc.
    apply negb_false_iff, bool_decide_eq_true in Hinc. exact Hinc.
  - intros Hf Hw. destruct (Hfiles Hf) as [Hd Hff].
    assert (item = js "workspace|d" \/ item = js "workspace|f") as [E|E]; [|done|done].
    rewrite Hitem. apply item_not_workspace; [destruct (Listing.isDirectory _); auto|done].
Qed.

Lemma listed_items_witness :
  exists name kind,
    js "my file.c|f" = name ++ js "|" ++ kind
    /\ (kind = js "d" \/ kind = js "f")
    /\ name <> []
    /\ startsWith name (js ".") = false
    /\ (exists words,
          words <> [] /\ Forall (fun word => isWord word = true) words
          /\ name = JSON.join (js " ") words)
    /\ (forall c, includes name (js ".") = true -> Listing.lastDotPiece name = [c] ->
                  [c] ∈ Listing.validSingleExtensions)
    /\ (js "my file.c|f"
          ∈ Listing.parseFiles Listing.validSingleExtensions
              (js "total 4" ++ [10]
                 ++ js "-rw-r--r-- 1 root root 12 Jan  1 00:00 my   file.c" ++ [10])
        -> name <> js "workspace").
Proof.
  apply (listed_items Listing.validSingleExtensions
           (js "total 4" ++ [10]
              ++ js "-rw-r--r-- 1 root root 12 Jan  1 00:00 my   file.c" ++ [10])
           (js "my file.c|f")).
  left. vm_compute. by left.
Defined.

Lemma dropLeading_head (class : N -> bool) (c : N) (s : jsstr) :
  class c = false -> Listing.dropLeading class (c :: s) = c :: s.
Proof. intros H. simpl. by rewrite H. Qed.

Lemma dropTrailing_last (class : N -> bool) (c : N) (s : jsstr) :
  last s = Some c -> class c = false -> Listing.dropTrailing class s = s.
Proof.
  intros Hlast Hc. apply last_Some in Hlast as [s' ->].
  unfold Listing.dropTrailing. rewrite rev_app_distr. simpl.
  rewrite Hc. simpl. by rewrite rev_involutive.
Qed.

Lemma isWord_inv (w : jsstr) :
  isWord w = true ->
  exists c w', w = c :: w' /\ Listing.is_space c = false
               /\ forallb (fun c => negb (Listing.is_space c)) w' = true
               /\ exists d, last w = Some d /\ Listing.is_space d = false.
Proof.
  unfold isWord. destruct w as [|c w']; [done|]. cbn [falsy negb andb forallb].
  intros H. pose proof H as Hall. apply andb_true_iff in H as [Hc Hw'].
  apply negb_true_iff in Hc. exists c, w'. repeat split; try done.
  destruct (last (c :: w')) as [d|] eqn:Ed; [|by apply last_None in Ed].
  exists d. split; [done|]. apply last_Some in Ed as [l El].
  assert (forallb (fun c => negb (Listing.is_space c)) (l ++ [d]) = true) as Hd.
  { rewrite <- El. simpl. by rewrite Hc. }
  rewrite forallb_app in Hd. apply andb_true_iff in Hd as [_ Hd]. simpl in Hd.
  rewrite andb_true_r in Hd. by apply negb_true_iff.
Qed.

Lemma splitSpaces_word (w s : jsstr) (inRun : bool) :
  isWord w = true ->
  Listing.splitSpaces inRun (w ++ s)
  = match Listing.splitSpaces false s with
    | piece :: rest => (w ++ piece) :: rest
    | [] => [w]
    end.
Proof.
  intros Hw. destruct (isWord_inv w Hw) as (c & w' & -> & Hc & Hw' & _). clear Hw.
  revert c Hc inRun. induction w' as [|d w' IH]; intros c Hc inRun.
  - simpl. rewrite Hc. by destruct (Listing.splitSpaces false s).
  - cbn [forallb] in Hw'. apply andb_true_iff in Hw' as [Hd Hw'].
    apply negb_true_iff in Hd. specialize (IH Hw' d Hd false).
    change ((c :: d :: w') ++ s) with (c :: (d :: w') ++ s).
    cbn [Listing.splitSpaces]. rewrite Hc, IH.
    by destruct (Listing.splitSpaces false s).
Qed.

Lemma splitSpaces_blank (b s : jsstr) :
  forallb Listing.is_space b = true ->
  Listing.splitSpaces true (b ++ s) = Listing.splitSpaces true s.
Proof.
  induction b as [|c b IH]; [done|]. cbn [forallb]. intros H.
  apply andb_true_iff in H as [Hc Hb]. simpl. rewrite Hc. by apply IH.
Qed.

Lemma splitSpaces_weave (first : jsstr) (rest : list (jsstr * jsstr)) (inRun : bool) :
  isWord first = true ->
  forallb (fun bw => isBlank (fst bw) && isWord (snd bw)) rest = true ->
  Listing.splitSpaces inRun (weave first rest) = first :: List.map snd rest.
Proof.
  revert first inRun. induction rest as [|[blank word] rest IH]; intros first inRun Hf Hr.
  - simpl. rewrite <- (app_nil_r first) at 1. rewrite splitSpaces_word by done.
    simpl. by rewrite app_nil_r.
  - cbn [forallb fst snd] in Hr. apply andb_true_iff in Hr as [Hbw Hr].
    apply andb_true_iff in Hbw as [Hb Hw].
    cbn [weave]. rewrite splitSpaces_word by done.
    unfold isBlank in Hb. destruct blank as [|c blank]; [done|].
    cbn [falsy negb andb forallb] in Hb. apply andb_true_iff in Hb as [Hc Hb].
    change ((c :: blank) ++ weave word rest) with (c :: blank ++ weave word rest).
    cbn [Listing.splitSpaces]. rewrite Hc, splitSpaces_blank by done.
    rewrite (IH word true Hw Hr). simpl. by rewrite app_nil_r.
Qed.

Lemma last_weave (first : jsstr) (rest : list (jsstr * jsstr)) :
  isWord first = true ->
  forallb (fun bw => isBlank (fst bw) && isWord (snd bw)) rest = true ->
  exists d, last (weave first rest) = Some d /\ Listing.is_space d = false.
Proof.
  revert first. induction rest as [|[blank word] rest IH]; intros first Hf Hr.
  - destruct (isWord_inv first Hf) as (_ & _ & _ & _ & _ & d & Hd & Hs). by exists d.
  - cbn [forallb fst snd] in Hr. apply andb_true_iff in Hr as [Hbw Hr].
    apply andb_true_iff in Hbw as [_ Hw].
    destruct (IH word Hw Hr) as (d & Hd & Hs). exists d. split; [|done].
    cbn [weave]. by rewrite !last_app, Hd.
Qed.

Lemma trim_weave (first : jsstr) (rest : list (jsstr * jsstr)) :
  isWord first = true ->
  forallb (fun bw => isBlank (fst bw) && isWord (snd bw)) rest = true ->
  Listing.trim (weave first rest) = weave first rest.
Proof.
  intros Hf Hr. unfold Listing.trim.
  assert (Listing.dropLeading Listing.is_space (weave first rest) = weave first rest) as ->.
  { destruct (isWord_inv first Hf) as (c & w' & -> & Hc & _).
    destruct rest as [|[blank word] rest]; cbn [weave]; by apply dropLeading_head. }
  destruct (last_weave first rest Hf Hr) as (d & Hd & Hs).
  by apply (dropTrailing_last _ d).
Qed.

Lemma falsy_false (s : jsstr) : s <> [] -> falsy s = false.
Proof. by destruct s. Qed.

Lemma join_words_nonempty (w : jsstr) (ws : list jsstr) :
  w <> [] -> JSON.join (js " ") (w :: ws) <> [].
Proof.
  intros Hw. destruct ws as [|w' ws]; [done|].
  change (JSON.join (js " ") (w :: w' :: ws))
    with (w ++ js " " ++ JSON.join (js " ") (w' :: ws)).
  by destruct w.
Qed.

(** A line of nine or more words, whatever white space runs between them:
    the name is the ninth word and those after it joined by single blanks
    (so a run of blanks or a tab inside a file name is listed as one blank),
    the kind is read off the first unit of the first word, and the line
    gives an item unless the name begins with a dot or ends in a one-letter
    extension that is not valid; [listFiles] also drops the name
    [workspace]. *)
Theorem items_of_a_line (valid : list jsstr) (first : jsstr)
  (rest : list (jsstr * jsstr)) :
  isWord first = true ->
  forallb (fun bw => isBlank (fst bw) && isWord (snd bw)) rest = true ->
  (8 <= length rest)%nat ->
  let name := JSON.join (js " ") (drop 8 (first :: List.map snd rest)) in
  let item := name ++ js "|" ++ (if Listing.isDirectory first then js "d" else js "f") in
  Listing.directoryItem valid (weave first rest)
  = (if startsWith name (js ".") || Listing.incompleteName valid name
     then None else Some item)
  /\ Listing.fileItem valid (weave first rest)
     = (if startsWith name (js ".") || Listing.incompleteName valid name
           || bool_decide (name = js "workspace")
        then None else Some item).
Proof.
  intros Hf Hr Hlen name item.
  assert (name <> []) as Hname.
  { subst name. destruct (drop 8 (first :: List.map snd rest)) as [|w ws] eqn:Ed.
    - apply (f_equal length) in Ed. rewrite length_drop in Ed. simpl in Ed.
      rewrite length_map in Ed. lia.
    - apply join_words_nonempty.
      assert (Forall (fun w => w <> []) (first :: List.map snd rest)) as Hall.
      { constructor.
        - destruct (isWord_inv first Hf) as (c & t & -> & _). done.
        - apply Forall_forall. intros w' Hin.
          apply list_elem_of_In, in_map_iff in Hin as ([b w''] & <- & Hin).
          rewrite forallb_forall in Hr. specialize (Hr _ Hin). simpl in Hr.
          apply andb_true_iff in Hr as [_ Hw].
          destruct (isWord_inv w'' Hw) as (c & t & -> & _). done. }
      assert (Forall (fun w => w <> []) (drop 8 (first :: List.map snd rest))) as Hd
        by (by apply Forall_drop).
      rewrite Ed in Hd. by inversion Hd. }
  assert (startsWith name (js ".") = false -> bool_decide (name = js "..") = false) as Hdots.
  { intros Hdot. apply bool_decide_eq_false. intros E. by rewrite E in Hdot. }
  assert (Listing.directoryItem valid (weave first rest)
          = (if startsWith name (js ".") || Listing.incompleteName valid name
             then None else Some item)) as Hdir.
  { unfold Listing.directoryItem. cbv zeta.
    rewrite trim_weave by done. unfold Listing.splitWhitespace.
    rewrite splitSpaces_weave by done.
    destruct (isWord_inv first Hf) as (c & t & Ef & _).
    assert (falsy (weave first rest) = false) as ->.
    { rewrite Ef. by destruct rest as [|[b w] rest]. }
    assert ((length (first :: List.map snd rest) <? 9)%nat = false) as ->.
    { apply Nat.ltb_ge. simpl. rewrite length_map. lia. }
    cbn [lookup list_lookup default from_option id].
    assert (falsy first = false) as -> by (by rewrite Ef).
    fold name. rewrite (falsy_false name Hname). cbn [negb andb].
    destruct (startsWith name (js ".")) eqn:Edot; [done|].
    rewrite (Hdots eq_refl). cbn [negb andb orb].
    by destruct (Listing.incompleteName valid name). }
  split; [exact Hdir|].
  rewrite fileItem_directoryItem, Hdir.
  destruct (startsWith name (js ".") || Listing.incompleteName valid name); [done|].
  cbn [orb]. subst item. apply keep_unless_workspace.
  destruct (Listing.isDirectory first); auto.
Qed.

Lemma items_of_a_line_witness :
  Listing.directoryItem Listing.validSingleExtensions
    (weave (js "-rw-r--r--")
       [ (js "   ", js "1"); (js " ", js "root"); (js " ", js "root"); (js " ", js "12");
         (js " ", js "Jan"); (js "  ", js "1"); (js " ", js "00:00"); (js " ", js "my");
         ([32; 9; 32], js "file.txt") ])
  = Some (js "my file.txt|f")
  /\ Listing.fileItem Listing.validSingleExtensions
       (weave (js "-rw-r--r--")
          [ (js "   ", js "1"); (js " ", js "root"); (js " ", js "root"); (js " ", js "12");
            (js " ", js "Jan"); (js "  ", js "1"); (js " ", js "00:00"); (js " ", js "my");
            ([32; 9; 32], js "file.txt") ])
     = Some (js "my file.txt|f").
Proof.
  apply (items_of_a_line Listing.validSingleExtensions (js "-rw-r--r--")
           [ (js "   ", js "1"); (js " ", js "root"); (js " ", js "root"); (js " ", js "12");
             (js " ", js "Jan"); (js "  ", js "1"); (js " ", js "00:00"); (js " ", js "my");
             ([32; 9; 32], js "file.txt") ]);
    [reflexivity | reflexivity | simpl; lia].
Defined.

(** The two generations on one output: the earlier one hides a name that
    ends in [.m], the current one lists it; both hide a name that ends in
    [.j] and the entries that begin with a dot. *)
Example listings_of_the_two_generations :
  let output := js "total 16" ++ [10]
                  ++ js "drwxr-xr-x 3 root root 4096 Jan  1 00:00 ." ++ [10]
                  ++ js "drwxr-xr-x 1 root root 4096 Jan  1 00:00 .." ++ [10]
                  ++ js "-rw-r--r-- 1 root root   20 Jan  1 00:00 notes.m" ++ [10]
                  ++ js "-rw-r--r-- 1 root root   20 Jan  1 00:00 app.j" ++ [10]
                  ++ js "drwxr-xr-x 2 root root 4096 Jan  1 00:00 src" ++ [10] in
  Listing.parseFiles Listing.validSingleExtensions output = [js "notes.m|f"; js "src|d"]
  /\ Listing.parseFiles Listing.legacyValidSingleExtensions output = [js "src|d"].
Proof. split; reflexivity. Qed.

(** ** The tree of a listing ([GET /files]) *)

Lemma In_drop {A : Type} (n : nat) (l : list A) (x : A) : In x (drop n l) -> In x l.
Proof.
  revert l. induction n as [|n IH]; intros [|y l]; simpl; try done.
  intros H. right. by apply IH.
Qed.

Lemma In_dropLeading (class : N -> bool) (s : jsstr) (c : N) :
  In c (Listing.dropLeading class s) -> In c s.
Proof.
  induction s as [|d s IH]; simpl; [done|].
  destruct (class d); [|done]. intros H. right. by apply IH.
Qed.

Lemma In_trim (s : jsstr) (c : N) : In c (Listing.trim s) -> In c s.
Proof.
  unfold Listing.trim, Listing.dropTrailing. intros H.
  apply in_rev, In_dropLeading, in_rev in H. by apply In_dropLeading in H.
Qed.

Lemma In_split (sep : N) (s piece : jsstr) (c : N) :
  In piece (split sep s) -> In c piece -> In c s.
Proof.
  revert piece. induction s as [|a s IH]; intros piece; simpl.
  - intros [<-|[]]. done.
  - destruct (a =? sep).
    + intros [<-|H] Hc; [done|]. right. by apply (IH piece).
    + destruct (split sep s) as [|w ws] eqn:E.
      * intros [<-|[]] [->|[]]. by left.
      * intros [<-|H] Hc.
        -- destruct Hc as [->|Hc]; [by left|]. right. apply (IH w); [by left|done].
        -- right. apply (IH piece); [by right|done].
Qed.

Lemma In_splitSpaces (inRun : bool) (s piece : jsstr) (c : N) :
  In piece (Listing.splitSpaces inRun s) -> In c piece -> In c s.
Proof.
  revert inRun piece. induction s as [|a s IH]; intros inRun piece; simpl.
  - intros [<-|[]]. done.
  - destruct (Listing.is_space a).
    + destruct inRun.
      * intros H Hc. right. by apply (IH true piece).
      * intros [<-|H] Hc; [done|]. right. by apply (IH true piece).
    + destruct (Listing.splitSpaces false s) as [|w ws] eqn:E.
      * intros [<-|[]] [->|[]]. by left.
      * intros [<-|H] Hc.
        -- destruct Hc as [->|Hc]; [by left|]. right.
           apply (IH false w); [rewrite E; by left|done].
        -- right. apply (IH false piece); [rewrite E; by right|done].
Qed.

Lemma In_join (sep : jsstr) (pieces : list jsstr) (c : N) :
  In c (JSON.join sep pieces) -> In c sep \/ exists piece, In piece pieces /\ In c piece.
Proof.
  induction pieces as [|p ps IH]; [done|].
  destruct ps as [|q ps].
  - intros H. right. exists p. split; [by left|done].
  - change (JSON.join sep (p :: q :: ps)) with (p ++ sep ++ JSON.join sep (q :: ps)).
    rewrite !in_app_iff. intros [H|[H|H]].
    + right. exists p. split; [by left|done].
    + by left.
    + destruct (IH H) as [?|(piece & Hin & Hc)]; [by left|].
      right. exists piece. split; [by right|done].
Qed.

Lemma split_at_bar (name rest : jsstr) :
  forallb (fun c => negb (c =? 124)) name = true ->
  split 124 (name ++ 124 :: rest) = name :: split 124 rest.
Proof.
  induction name as [|c name IH]; [done|]. cbn [forallb]. intros H.
  apply andb_true_iff in H as [Hc H]. apply negb_true_iff in Hc.
  simpl. rewrite Hc, (IH H). done.
Qed.

Lemma entryOf_item (name kind : jsstr) :
  name <> [] -> forallb (fun c => negb (c =? 124)) name = true ->
  kind = js "d" \/ kind = js "f" ->
  entryOf (name ++ js "|" ++ kind)
  = Some (name, if bool_decide (kind = js "d") then EmptyObject else NullLeaf).
Proof.
  intros Hname Hbar Hkind. unfold entryOf.
  change (name ++ js "|" ++ kind) with (name ++ 124 :: kind).
  rewrite split_at_bar by done.
  assert (falsy (name ++ 124 :: kind) = false) as -> by (by destruct name).
  assert (split 124 kind = [kind]) as -> by (by destruct Hkind as [->| ->]).
  cbn [lookup list_lookup]. rewrite (falsy_false name Hname).
  by destruct Hkind as [->| ->].
Qed.

(** A listed item, when the output of [ls] holds no bar: the name is the
    text before the bar of the item. *)
Lemma listed_item_entry (valid : list jsstr) (output item : jsstr) :
  forallb (fun c => negb (c =? 124)) output = true ->
  item ∈ Listing.parseFiles valid output ->
  exists name kind,
    item = name ++ js "|" ++ kind /\ (kind = js "d" \/ kind = js "f")
    /\ entryOf item
       = Some (name, if bool_decide (kind = js "d") then EmptyObject else NullLeaf).
Proof.
  intros Hbar Hin.
  destruct (listed_item_line valid output item (or_introl Hin)) as (line & Hline & _).
  pose proof Hin as Hin'. unfold Listing.parseFiles in Hin'. cbv zeta in Hin'.
  apply list_elem_of_omap in Hin' as (line' & Hl' & Hline').
  rewrite fileItem_directoryItem in Hline'.
  destruct (Listing.directoryItem valid line') as [item'|] eqn:Ed; [|done].
  assert (item' = item) as ->.
  { destruct (_ && _) in Hline'; [by injection Hline'|done]. }
  clear Hline' line Hline.
  pose proof (directoryItem_Some valid line' item Ed) as H. cbv zeta in H.
  destruct H as (Hitem & _ & Hname & _ & _).
  set (name := JSON.join (js " ") (drop 8 (Listing.splitWhitespace (Listing.trim line'))))
    in *.
  match type of Hitem with
  | _ = _ ++ _ ++ ?k => remember k as kind eqn:Ek in *
  end.
  assert (kind = js "d" \/ kind = js "f") as Hkind
    by (rewrite Ek; destruct (Listing.isDirectory _); auto).
  exists name, kind. split; [done|]. split; [done|]. rewrite Hitem.
  apply entryOf_item; try done.
  apply forallb_forall. intros c Hc.
  apply In_join in Hc as [Hc|(piece & Hp & Hc)].
  - destruct Hc as [<-|[]]. done.
  - rewrite forallb_forall in Hbar. apply Hbar.
    apply list_elem_of_In, In_drop in Hl'. apply In_drop in Hp.
    apply In_trim. apply (In_split 10 _ line'); [done|].
    apply In_trim. by apply (In_splitSpaces false _ piece).
Qed.

(** [GET /files] answers with [toTree] of the root listing.  When the
    output of [ls] holds no bar, the keys of that tree are exactly the listed
    names; a key holds an empty object only if the name is listed as a
    directory and [null] only if it is listed as a file. *)
Theorem tree_of_listing (valid : list jsstr) (output n : jsstr) :
  forallb (fun c => negb (c =? 124)) output = true ->
  n <> js "__proto__" ->
  let items := Listing.parseFiles valid output in
  (is_Some (own (toTree items) !! n)
     <-> n ++ js "|d" ∈ items \/ n ++ js "|f" ∈ items)
  /\ (own (toTree items) !! n = Some EmptyObject -> n ++ js "|d" ∈ items)
  /\ (own (toTree items) !! n = Some NullLeaf -> n ++ js "|f" ∈ items).
Proof.
  intros Hbar Hn items.
  assert (forall v, own (toTree items) !! n = Some v ->
            exists kind, (kind = js "d" \/ kind = js "f")
                         /\ n ++ js "|" ++ kind ∈ items
                         /\ v = if bool_decide (kind = js "d") then EmptyObject else NullLeaf)
    as Hvalue.
  { intros v Hv. unfold toTree in Hv. rewrite own_foldl_addItem in Hv by done.
    simpl in Hv. rewrite lookup_empty in Hv.
    apply assigned_Some in Hv as [Hv|(it & Hit & He)]; [done|].
    rewrite elem_of_uniqueItems in Hit.
    destruct (listed_item_entry valid output it Hbar Hit) as (name & kind & -> & Hk & He').
    rewrite He' in He. injection He as -> <-. by exists kind. }
  split; [split|split].
  - intros [v Hv]. destruct (Hvalue v Hv) as (kind & [->| ->] & Hin & _); auto.
  - intros Hin.
    assert (exists kind, (kind = js "d" \/ kind = js "f") /\ n ++ js "|" ++ kind ∈ items)
      as (kind & Hk & Hitem) by (destruct Hin; [exists (js "d")|exists (js "f")]; auto).
    destruct (listed_item_entry valid output _ Hbar Hitem) as (name & kind' & E & Hk' & He).
    assert (n = name) as <-.
    { apply app_inj_2 in E as [E _]; [done|].
      by destruct Hk as [->| ->], Hk' as [->| ->]. }
    unfold toTree. rewrite own_foldl_addItem by done. apply assigned_is_Some. right.
    eexists _, _. split; [|exact He]. by apply elem_of_uniqueItems.
  - intros Hv. destruct (Hvalue _ Hv) as (kind & [->| ->] & Hin & Hnode); [done|].
    by rewrite bool_decide_eq_false_2 in Hnode.
  - intros Hv. destruct (Hvalue _ Hv) as (kind & [->| ->] & Hin & Hnode); [|done].
    by rewrite bool_decide_eq_true_2 in Hnode.
Qed.

Lemma tree_of_listing_witness :
  js "src" ++ js "|d"
    ∈ Listing.parseFiles Listing.validSingleExtensions
        (js "total 8" ++ [10]
           ++ js "drwxr-xr-x 2 root root 4096 Jan  1 00:00 src" ++ [10]
           ++ js "-rw-r--r-- 1 root root   12 Jan  1 00:00 main.py").
Proof.
  destruct (tree_of_listing Listing.validSingleExtensions
              (js "total 8" ++ [10]
                 ++ js "drwxr-xr-x 2 root root 4096 Jan  1 00:00 src" ++ [10]
                 ++ js "-rw-r--r-- 1 root root   12 Jan  1 00:00 main.py")
              (js "src")) as (_ & H & _); [reflexivity | discriminate |].
  apply H. vm_compute. reflexivity.
Defined.

(** ** The duplicate sweep *)

Lemma fragments_diverge_from_kept :
  forallb (fun ext =>
             forallb (fun q => match q with
                               | 42 :: c => diverge (rev ext) (rev c)
                               | _ => false
                               end) keptPatterns)
          incompleteExtensions = true.
Proof. vm_compute. reflexivity. Qed.

Lemma kept_never_matches (ext name : jsstr) :
  In ext incompleteExtensions -> endsWith name ext = true ->
  existsb (fun q => FileStore.globMatches q name) keptPatterns = false.
Proof.
  intros Hin Hend. pose proof fragments_diverge_from_kept as H.
  rewrite forallb_forall in H. specialize (H ext Hin). rewrite forallb_forall in H.
  destruct (existsb _ keptPatterns) eqn:E; [|done].
  apply existsb_exists in E as (q & Hq & Hm). specialize (H q Hq).
  destruct q as [|star c]; [done|].
  destruct (N.eq_dec star 42) as [->|Hne].
  - cbn [FileStore.globMatches] in Hm.
    by rewrite (diverge_endsWith ext c name H Hend) in Hm.
  - exfalso. clear -H Hne. destruct star as [|p]; [done|].
    do 7 (destruct p as [p|p|]; try done).
Qed.

(** None of the twenty [! -name] exclusions of a sweep ever spares a file:
    no name ends both in a fragment and in an extension.  A file is swept
    exactly when it lies under [/workspace/] and its name ends in one of the
    fragments, as [main.c], [lib.h] or [boot.s] do. *)
Theorem sweep_exclusions_are_idle (path : jsstr) :
  (forall ext, In ext incompleteExtensions ->
     FileStore.swept (js "*" ++ ext) keptPatterns path
     = startsWith path (js "/workspace/") && endsWith (FileStore.basename path) ext)
  /\ sweptByCleanup path
     = startsWith path (js "/workspace/")
       && existsb (fun ext => endsWith (FileStore.basename path) ext) incompleteExtensions.
Proof.
  assert (forall ext, In ext incompleteExtensions ->
            FileStore.swept (js "*" ++ ext) keptPatterns path
            = startsWith path (js "/workspace/") && endsWith (FileStore.basename path) ext)
    as H.
  { intros ext Hin. unfold FileStore.swept.
    change (js "*" ++ ext) with (42 :: ext). cbn [FileStore.globMatches].
    destruct (endsWith (FileStore.basename path) ext) eqn:E.
    - rewrite (kept_never_matches ext _ Hin E). cbn [negb]. by rewrite !andb_true_r.
    - by rewrite !andb_false_r. }
  split; [exact H|]. unfold sweptByCleanup.
  induction incompleteExtensions as [|ext exts IH]; cbn [existsb].
  - by rewrite andb_false_r.
  - rewrite (H ext) by (by left). rewrite IH by (intros e He; apply H; by right).
    by destruct (startsWith path (js "/workspace/")).
Qed.

(** Run against the file store, [cleanupDuplicateFiles] for a session with a
    container returns normally, leaves the registry as it is and emits
    nothing.  Every container binds the same host directory, so the sweeps
    work on the files of all sessions: a file of the shared directory is
    deleted exactly when a sweep matches its path, whichever session wrote
    it, and the files outside that directory are left as they are. *)
Theorem cleanupDuplicateFiles_deletes (m : Manager) (w : FileStore.World)
  (userId : jsstr) (container : Container) :
  userContainers m !! userId = Some container ->
  exists w',
    run FileStore.runtime (cleanupDuplicateFiles userId) m w = (Returned tt, m, w')
    /\ FileStore.emitted w' = FileStore.emitted w
    /\ FileStore.containerFiles w' = FileStore.containerFiles w
    /\ forall path,
         FileStore.files w' !! path
         = if sweptByCleanup path then None else FileStore.files w !! path.
Proof. apply cleanupDuplicateFiles_store. Qed.

Lemma cleanupDuplicateFiles_deletes_witness :
  exists w',
    run FileStore.runtime (cleanupDuplicateFiles (js "s1"))
        (mkManager {[ js "s1" := 7 ]} ∅)
        (FileStore.mkWorld {[ js "/workspace/main.c" := [104; 105] ]} ∅ ∅ 0 [])
    = (Returned tt, mkManager {[ js "s1" := 7 ]} ∅, w')
    /\ FileStore.files w' !! js "/workspace/main.c" = None.
Proof.
  assert (userContainers (mkManager {[ js "s1" := 7 ]} ∅) !! js "s1" = Some 7) as Hc
    by (vm_compute; reflexivity).
  destruct (cleanupDuplicateFiles_deletes (mkManager {[ js "s1" := 7 ]} ∅)
              (FileStore.mkWorld {[ js "/workspace/main.c" := [104; 105] ]} ∅ ∅ 0 [])
              (js "s1") 7 Hc) as (w' & Hrun & _ & _ & Hfiles).
  exists w'. split; [exact Hrun|]. rewrite Hfiles. reflexivity.
Defined.

(** A write followed by the duplicate sweep, the order in which the
    listeners and routes call them.  In the current [DockerManager], when the
    repaired path still ends in a fragment (a fragment that also occurs
    earlier in the path), the file is written and the sweep deletes it at
    once; both calls return normally and nothing is emitted.  In the earlier
    generation the same happens to a ['file:change'] whose path one of the two
    sweeps matches, as every path ending in [.t] does: the listener finishes
    without reporting an error and the file it wrote is not there. *)
Theorem change_swept_at_once (m : Manager) (w : FileStore.World)
  (userId filePath content : jsstr) (container : Container) :
  userContainers m !! userId = Some container ->
  (forall NumberToString : jsstr -> jsstr,
     let target :=
       js "/workspace" ++ js "/" ++ stripLeadingSlash (fixIncompleteExtension filePath) in
     let written :=
       run FileStore.runtime (writeFileToContainer NumberToString userId filePath content)
           m w in
     let swept :=
       run FileStore.runtime (cleanupDuplicateFiles userId) written.1.2 written.2 in
     sweptByCleanup target = true ->
     written.1.1 = Returned tt
     /\ FileStore.files written.2 !! target
        = Some (utf8_encode (DockerManager.ultraCleanContent NumberToString content
                               (fixIncompleteExtension filePath)))
     /\ swept.1.1 = Returned tt
     /\ FileStore.files swept.2 !! target = None
     /\ FileStore.emitted swept.2 = FileStore.emitted w)
  /\ (sweptByLegacyCleanup (legacyWrittenPath filePath) = true ->
      exists w',
        run FileStore.runtime (Legacy.onFileChange userId filePath content) m w
        = (Returned tt, m, w')
        /\ FileStore.emitted w' = FileStore.emitted w
        /\ FileStore.files w' !! legacyWrittenPath filePath = None).
Proof.
  intros Hc. split.
  - intros N2S target written swept Hswept. subst swept written.
    destruct (writeFileToContainer_store N2S m w userId filePath content container Hc)
      as (w1 & -> & Hemit1 & _ & Hfiles1).
    cbn [fst snd].
    destruct (cleanupDuplicateFiles_store m w1 userId container Hc)
      as (w2 & -> & Hemit2 & _ & Hfiles2).
    cbn [fst snd]. split; [done|]. split; [by rewrite Hfiles1, lookup_insert_eq|].
    split; [done|]. split; [by rewrite Hfiles2, Hswept|congruence].
  - intros Hswept.
    destruct (Legacy_onFileChange_store m w userId filePath content container Hc)
      as (w' & Hrun & Hemit & _ & Hfiles).
    exists w'. split; [exact Hrun|]. split; [exact Hemit|].
    by rewrite Hfiles, Hswept.
Qed.

Lemma change_swept_at_once_witness :
  FileStore.files
    (run FileStore.runtime (cleanupDuplicateFiles (js "s1"))
       (mkManager {[ js "s1" := 7 ]} ∅)
       (run FileStore.runtime
          (writeFileToContainer (fun l => l) (js "s1") (js "my.project/main.p")
             (js "print(1)"))
          (mkManager {[ js "s1" := 7 ]} ∅) FileStore.emptyWorld).2).2
    !! js "/workspace/my.pyroject/main.p" = None
  /\ exists w',
       run FileStore.runtime (Legacy.onFileChange (js "s1") (js "notes.t") (js "x"))
           (mkManager {[ js "s1" := 7 ]} ∅) FileStore.emptyWorld
       = (Returned tt, mkManager {[ js "s1" := 7 ]} ∅, w')
       /\ FileStore.emitted w' = []
       /\ FileStore.files w' !! js "/workspace/notes.t" = None.
Proof.
  assert (userContainers (mkManager {[ js "s1" := 7 ]} ∅) !! js "s1" = Some 7) as Hc
    by (vm_compute; reflexivity).
  split.
  - destruct (change_swept_at_once (mkManager {[ js "s1" := 7 ]} ∅) FileStore.emptyWorld
                (js "s1") (js "my.project/main.p") (js "print(1)") 7 Hc) as [H _].
    destruct (H (fun l => l)) as (_ & _ & _ & Hgone & _); [vm_compute; reflexivity|].
    exact Hgone.
  - destruct (change_swept_at_once (mkManager {[ js "s1" := 7 ]} ∅) FileStore.emptyWorld
                (js "s1") (js "notes.t") (js "x") 7 Hc) as [_ H].
    apply H. vm_compute. reflexivity.
Defined.

(** ** Traces of composed programs *)

(** One command run for its effect only: the [exec]/[start] pair inside a
    [try] whose [catch] logs. *)
Lemma guarded_command (E : Environment) (w : world E) (m : Manager)
  (c : Container) (options : ExecOptions) (start : StartOptions) :
  let p : M unit :=
    try_catch (exec ← await (ContainerExec c options);
               _ ← await (ExecStart exec start);
               Ret tt)
              (fun err => Ret tt) in
  (exists w', run E p m w = (Returned tt, m, w'))
  /\ execRequests (Trace.requests E p m w) = [(c, Cmd options)]
  /\ emitRequests (Trace.requests E p m w) = [].
Proof.
  cbv zeta. step_run.
  destruct (respond E _ w (ContainerExec c options)) as [[exec|e] w1]; step_run.
  - destruct (respond E _ w1 (ExecStart exec start)) as [[stream|e] w2]; step_run;
      (split; [by eexists|by split]).
  - split; [by eexists|by split].
Qed.

Lemma cleanupEach_any (E : Environment) (c : Container) (exts : list jsstr)
  (m : Manager) (w : world E) :
  (exists w', run E (cleanupEach c exts) m w = (Returned tt, m, w'))
  /\ execRequests (Trace.requests E (cleanupEach c exts) m w)
     = List.map (fun ext => (c, findCommand ext)) exts
  /\ emitRequests (Trace.requests E (cleanupEach c exts) m w) = [].
Proof.
  revert w. induction exts as [|ext exts IH]; intros w.
  - split; [by exists w|by split].
  - cbn [cleanupEach]. unfold mbind, prog_bind.
    rewrite run_bind, requests_bind, execRequests_app, emitRequests_app.
    destruct (guarded_command E w m c (plainExec (findCommand ext)) plainStart)
      as ((w1 & Hrun) & Hexec & Hemit).
    cbv zeta in Hrun, Hexec, Hemit. unfold mbind, prog_bind in Hrun, Hexec, Hemit.
    rewrite Hrun, Hexec, Hemit.
    destruct (IH w1) as (Hrun' & Hexec' & Hemit').
    split; [exact Hrun'|]. split; [by rewrite Hexec'|by rewrite Hemit'].
Qed.

(** ** The sweeps when the runtime fails *)

(** Whatever the runtime answers, [cleanupDuplicateFiles] returns normally
    and leaves the registry as it is.  The current generation asks for all
    twenty sweeps, in the order of its list, even when sweeps fail.  In the
    earlier generation the second sweep is asked for only when the first was
    created and started: a first sweep whose [container.exec] or whose
    [exec.start] is rejected ends the method. *)
Theorem sweeps_and_failures (E : Environment) (w : world E) (m : Manager)
  (userId : jsstr) (container : Container) :
  userContainers m !! userId = Some container ->
  let legacy := Trace.requests E (Legacy.cleanupDuplicateFiles userId) m w in
  let first := ContainerExec container (plainExec legacySweepJ) in
  (run E (cleanupDuplicateFiles userId) m w).1 = (Returned tt, m)
  /\ execRequests (Trace.requests E (cleanupDuplicateFiles userId) m w)
     = List.map (fun ext => (container, findCommand ext)) incompleteExtensions
  /\ (run E (Legacy.cleanupDuplicateFiles userId) m w).1 = (Returned tt, m)
  /\ (forall e w1,
        respond E _ w first = (Rejected e, w1) ->
        execRequests legacy = [(container, legacySweepJ)])
  /\ (forall exec e w1 w2,
        respond E _ w first = (Resolved exec, w1) ->
        respond E _ w1 (ExecStart exec plainStart) = (Rejected e, w2) ->
        execRequests legacy = [(container, legacySweepJ)])
  /\ (forall exec stream w1 w2,
        respond E _ w first = (Resolved exec, w1) ->
        respond E _ w1 (ExecStart exec plainStart) = (Resolved stream, w2) ->
        execRequests legacy = [(container, legacySweepJ); (container, legacySweepT)]).
Proof.
  intros Hc legacy first. subst legacy first.
  split; [|split; [|split; [|split; [|split]]]].
  - unfold cleanupDuplicateFiles. cbn [run]. rewrite Hc, run_try_catch.
    destruct (cleanupEach_any E container incompleteExtensions m w) as ((w' & ->) & _).
    done.
  - unfold cleanupDuplicateFiles. cbn [Trace.requests]. rewrite Hc, requests_try_catch.
    destruct (cleanupEach_any E container incompleteExtensions m w)
      as ((w' & Hrun) & Hexec & _).
    by rewrite Hrun, app_nil_r.
  - unfold Legacy.cleanupDuplicateFiles. step_run. rewrite Hc. step_run.
    repeat answer_step; reflexivity.
  - intros e w1 Hrej. unfold Legacy.cleanupDuplicateFiles. step_run. rewrite Hc.
    step_run. unfold legacySweepJ in Hrej. rewrite Hrej. reflexivity.
  - intros exec e w1 w2 H1 H2. unfold Legacy.cleanupDuplicateFiles. step_run. rewrite Hc.
    step_run. unfold legacySweepJ in H1. rewrite H1. step_run. rewrite H2. reflexivity.
  - intros exec stream w1 w2 H1 H2. unfold Legacy.cleanupDuplicateFiles. step_run.
    rewrite Hc. step_run. unfold legacySweepJ in H1. rewrite H1. step_run. rewrite H2.
    step_run. cbn [execRequests flat_map app Cmd plainExec].
    repeat answer_step; reflexivity.
Qed.

Lemma sweeps_and_failures_witness :
  List.length
    (execRequests (Trace.requests (Trace.failing (newError (js "no such container")))
                     (cleanupDuplicateFiles (js "s1"))
                     (mkManager {[ js "s1" := 7 ]} ∅) tt)) = 20%nat
  /\ execRequests (Trace.requests (Trace.failing (newError (js "no such container")))
                     (Legacy.cleanupDuplicateFiles (js "s1"))
                     (mkManager {[ js "s1" := 7 ]} ∅) tt)
     = [(7, legacySweepJ)]
  /\ execRequests (Trace.requests FileStore.runtime
                     (Legacy.cleanupDuplicateFiles (js "s1"))
                     (mkManager {[ js "s1" := 7 ]} ∅) FileStore.emptyWorld)
     = [(7, legacySweepJ); (7, legacySweepT)].
Proof.
  assert (userContainers (mkManager {[ js "s1" := 7 ]} ∅) !! js "s1" = Some 7) as Hc
    by (vm_compute; reflexivity).
  destruct (sweeps_and_failures (Trace.failing (newError (js "no such container"))) tt
              (mkManager {[ js "s1" := 7 ]} ∅) (js "s1") 7 Hc) as (_ & Hall & _ & Hone & _).
  destruct (sweeps_and_failures FileStore.runtime FileStore.emptyWorld
              (mkManager {[ js "s1" := 7 ]} ∅) (js "s1") 7 Hc) as (_ & _ & _ & _ & _ & Htwo).
  split; [|split].
  - rewrite Hall. reflexivity.
  - apply (Hone (newError (js "no such container")) tt). reflexivity.
  - eapply Htwo; reflexivity.
Defined.

(** ** What [createUserContainer] leaves in the registry *)



(** ** Making a directory, renaming a path *)

Lemma collect_split (phrases chunks : list jsstr) :
  collect phrases chunks
  = (concat (List.filter (fun d => negb (existsb (includes d) phrases)) chunks),
     concat (List.filter (fun d => existsb (includes d) phrases) chunks)).
Proof. unfold collect. by rewrite collect_acc. Qed.

(** [createDirectory] for a session with a container, when its calls
    settle: it resolves exactly when [mkdir] exits with 0 and no chunk
    includes [Permission denied] or [cannot create] (the [chmod] that follows
    may fail without effect on the outcome); otherwise it throws
    [Directory creation failed: ] followed by the chunks that include one of
    the phrases, so a failure that prints neither phrase is reported with an
    empty reason. *)
Theorem createDirectory_outcome (E : Environment) (w : world E) (m : Manager)
  (userId path : jsstr) (container : Container)
  (exec : Exec) (stream : Stream) (chunks : list jsstr) (exitCode : option Z)
  (w1 w2 w3 w4 : world E) :
  userContainers m !! userId = Some container ->
  respond E _ w
    (ContainerExec container
       (mkExec [js "mkdir"; js "-p"; js "/workspace/" ++ path] true true false false
               (Some (js "0"))))
  = (Resolved exec, w1) ->
  respond E _ w1 (ExecStart exec plainStart) = (Resolved stream, w2) ->
  respond E _ w2 (StreamData stream) = (Resolved chunks, w3) ->
  respond E _ w3 (ExecInspect exec) = (Resolved exitCode, w4) ->
  let error :=
    concat (List.filter
              (fun d => existsb (includes d) [js "Permission denied"; js "cannot create"])
              chunks) in
  (exitCode = Some 0%Z -> error = [] ->
   (run E (createDirectory userId path) m w).1 = (Returned tt, m))
  /\ (exitCode <> Some 0%Z \/ error <> [] ->
      run E (createDirectory userId path) m w
      = (Threw (newError (js "Directory creation failed: " ++ error)), m, w4)).
Proof.
  intros Hc H1 H2 H3 H4 error.
  unfold createDirectory. step_run. rewrite Hc. step_run.
  rewrite H1. step_run. rewrite H2. step_run. rewrite H3. step_run.
  rewrite collect_split. cbn [snd]. fold error. rewrite H4. step_run.
  split.
  - intros -> ->. rewrite bool_decide_eq_true_2 by done. cbn [andb falsy].
    step_run. repeat answer_step; reflexivity.
  - intros [Hcode|Herr].
    + by rewrite bool_decide_eq_false_2.
    + rewrite (falsy_false _ Herr). by rewrite andb_false_r.
Qed.

Lemma createDirectory_outcome_witness :
  run (Trace.replay [js "mkdir: out of space"] (Some 1%Z))
      (createDirectory (js "s1") (js "src"))
      (mkManager {[ js "s1" := 7 ]} ∅) tt
  = (Threw (newError (js "Directory creation failed: ")),
     mkManager {[ js "s1" := 7 ]} ∅, tt).
Proof.
  assert (userContainers (mkManager {[ js "s1" := 7 ]} ∅) !! js "s1" = Some 7) as Hc
    by (vm_compute; reflexivity).
  destruct (createDirectory_outcome (Trace.replay [js "mkdir: out of space"] (Some 1%Z)) tt
              (mkManager {[ js "s1" := 7 ]} ∅) (js "s1") (js "src") 7
              0 0 [js "mkdir: out of space"] (Some 1%Z) tt tt tt tt
              Hc eq_refl eq_refl eq_refl eq_refl) as [_ H].
  apply H. left. discriminate.
Defined.

(** [renamePath] for a session with a container, when its calls settle: it
    resolves exactly when [mv] exits with 0 and no chunk includes
    [No such file or directory] or [cannot move]; otherwise it throws
    [Rename failed: ] followed by the chunks that include a phrase or, when
    there is none, by the rest of the output. *)
Theorem renamePath_outcome (E : Environment) (w : world E) (m : Manager)
  (userId oldPath newPath : jsstr) (container : Container)
  (exec : Exec) (stream : Stream) (chunks : list jsstr) (exitCode : option Z)
  (w1 w2 w3 w4 : world E) :
  userContainers m !! userId = Some container ->
  respond E _ w
    (ContainerExec container
       (plainExec [js "mv"; js "/workspace/" ++ oldPath; js "/workspace/" ++ newPath]))
  = (Resolved exec, w1) ->
  respond E _ w1 (ExecStart exec plainStart) = (Resolved stream, w2) ->
  respond E _ w2 (StreamData stream) = (Resolved chunks, w3) ->
  respond E _ w3 (ExecInspect exec) = (Resolved exitCode, w4) ->
  let named := fun d => existsb (includes d) [js "No such file or directory"; js "cannot move"] in
  let error := concat (List.filter named chunks) in
  let output := concat (List.filter (fun d => negb (named d)) chunks) in
  run E (renamePath userId oldPath newPath) m w
  = (if bool_decide (exitCode = Some 0%Z) && falsy error then Returned tt
     else Threw (newError (js "Rename failed: " ++ (if falsy error then output else error))),
     m, w4).
Proof.
  intros Hc H1 H2 H3 H4 named error output.
  unfold renamePath. step_run. rewrite Hc. step_run.
  rewrite H1. step_run. rewrite H2. step_run. rewrite H3. step_run.
  rewrite collect_split. fold named error output. step_run. rewrite H4. step_run.
  by destruct (bool_decide (exitCode = Some 0%Z) && falsy error).
Qed.

Lemma renamePath_outcome_witness :
  run (Trace.replay [js "mv: target is busy"] (Some 1%Z))
      (renamePath (js "s1") (js "a.txt") (js "b.txt"))
      (mkManager {[ js "s1" := 7 ]} ∅) tt
  = (Threw (newError (js "Rename failed: mv: target is busy")),
     mkManager {[ js "s1" := 7 ]} ∅, tt).
Proof.
  assert (userContainers (mkManager {[ js "s1" := 7 ]} ∅) !! js "s1" = Some 7) as Hc
    by (vm_compute; reflexivity).
  exact (renamePath_outcome (Trace.replay [js "mv: target is busy"] (Some 1%Z)) tt
           (mkManager {[ js "s1" := 7 ]} ∅) (js "s1") (js "a.txt") (js "b.txt") 7
           0 0 [js "mv: target is busy"] (Some 1%Z) tt tt tt tt
           Hc eq_refl eq_refl eq_refl eq_refl).
Defined.

(** ** The outcome of a write *)

(** A write for a session with a container is decided by the archive
    injection alone: when the runtime accepts the archive the write returns
    normally, whether or not [sync] can be run afterwards; when it rejects
    the archive the write throws a new error, [File upload failed: ] followed
    by the message of the rejection (the status code of the rejection is not
    carried over).  The registry is never changed. *)
Theorem writeFileToContainer_outcome (NumberToString : jsstr -> jsstr)
  (E : Environment) (w : world E) (m : Manager)
  (userId filePath content : jsstr) (container : Container) :
  userContainers m !! userId = Some container ->
  let put := PutArchive container (archiveEntry NumberToString filePath content)
               (js "/workspace") in
  (forall w1, respond E _ w put = (Resolved tt, w1) ->
     (run E (writeFileToContainer NumberToString userId filePath content) m w).1
     = (Returned tt, m))
  /\ (forall e w1, respond E _ w put = (Rejected e, w1) ->
        run E (writeFileToContainer NumberToString userId filePath content) m w
        = (Threw (newError (js "File upload failed: " ++ message e)), m, w1)).
Proof.
  intros Hc put. subst put. unfold archiveEntry. cbv zeta.
  unfold writeFileToContainer. step_run. rewrite Hc. step_run. split.
  - intros w1 ->. step_run. repeat answer_step; reflexivity.
  - intros e w1 ->. reflexivity.
Qed.

Lemma writeFileToContainer_outcome_witness :
  run (Trace.failing (mkError (js "no space left") (Some 500%Z)))
      (writeFileToContainer (fun l => l) (js "s1") (js "a.txt") (js "x"))
      (mkManager {[ js "s1" := 7 ]} ∅) tt
  = (Threw (newError (js "File upload failed: no space left")),
     mkManager {[ js "s1" := 7 ]} ∅, tt).
Proof.
  assert (userContainers (mkManager {[ js "s1" := 7 ]} ∅) !! js "s1" = Some 7) as Hc
    by (vm_compute; reflexivity).
  destruct (writeFileToContainer_outcome (fun l => l)
              (Trace.failing (mkError (js "no space left") (Some 500%Z))) tt
              (mkManager {[ js "s1" := 7 ]} ∅) (js "s1") (js "a.txt") (js "x") 7 Hc)
    as [_ H].
  apply (H (mkError (js "no space left") (Some 500%Z)) tt). reflexivity.
Defined.

(** ** Manual save *)

Lemma observe_bind {S A B : Type} (E : Environment) (p : Prog S A) (f : A -> Prog S B)
  (s : S) (w : world E) :
  observe E (bind p f) s w
  = match observe E p s w with
    | ((Returned a, s', w'), events) =>
        ((observe E (f a) s' w').1, events ++ (observe E (f a) s' w').2)
    | ((Threw e, s', w'), events) => ((Threw e, s', w'), events)
    | ((Crashed e, s', w'), events) => ((Crashed e, s', w'), events)
    end.
Proof.
  unfold observe. rewrite run_bind, requests_bind, emitRequests_app.
  destruct (run E p s w) as [[[a|e|e] s'] w']; cbn [fst snd]; by rewrite ?app_nil_r.
Qed.

Lemma observe_try_catch {S A : Type} (E : Environment) (p : Prog S A)
  (h : Error -> Prog S A) (s : S) (w : world E) :
  observe E (try_catch p h) s w
  = match observe E p s w with
    | ((Threw e, s', w'), events) =>
        ((observe E (h e) s' w').1, events ++ (observe E (h e) s' w').2)
    | other => other
    end.
Proof.
  unfold observe. rewrite run_try_catch, requests_try_catch, emitRequests_app.
  destruct (run E p s w) as [[[a|e|e] s'] w']; cbn [fst snd]; by rewrite ?app_nil_r.
Qed.

Lemma observe_emit {S : Type} (E : Environment) (event : SocketEvent) (s : S)
  (w : world E) :
  emitsResolve E ->
  exists w', observe E (await (SocketEmit event)) s w = ((Returned tt, s, w'), [event]).
Proof.
  intros Hemit. unfold observe. cbn [run await Trace.requests emitRequests flat_map app].
  specialize (Hemit w event).
  destruct (respond E _ w (SocketEmit event)) as [r w']. cbn [fst] in Hemit. subst r.
  by exists w'.
Qed.

Lemma observe_throw {S A : Type} (E : Environment) (e : Error) (s : S) (w : world E) :
  observe E (Throw e : Prog S A) s w = ((Threw e, s, w), []).
Proof. reflexivity. Qed.

Lemma observe_getContainer (E : Environment) (w : world E) (m : Manager) (userId : jsstr) :
  observe E (getContainer userId) m w = ((Returned (userContainers m !! userId), m, w), []).
Proof. reflexivity. Qed.

(** The [sync] the save listeners run when the session has a container. *)
Lemma observe_sync (E : Environment) (w : world E) (m : Manager)
  (container : option Container) :
  let p : M unit :=
    match container with
    | Some c =>
        syncExec ← await (ContainerExec c (mkExec [js "sync"] false false false false None));
        _ ← await (ExecStart syncExec (mkStart false false false));
        Ret tt
    | None => Ret tt
    end in
  exists w',
    observe E p m w = ((Returned tt, m, w'), [])
    \/ exists e, observe E p m w = ((Threw e, m, w'), []).
Proof.
  cbv zeta. unfold observe, emitRequests. destruct container as [c|]; step_run.
  - repeat answer_step; eexists; first [left; reflexivity | right; eexists; reflexivity].
  - eexists. left. reflexivity.
Qed.

Lemma observe_Legacy_write (E : Environment) (w : world E) (m : Manager)
  (userId filePath content : jsstr) :
  exists w',
    observe E (Legacy.writeFileToContainer userId filePath content) m w
    = ((Returned tt, m, w'), [])
    \/ (exists e,
          observe E (Legacy.writeFileToContainer userId filePath content) m w
          = ((Threw e, m, w'), []))
    \/ (exists e,
          observe E (Legacy.writeFileToContainer userId filePath content) m w
          = ((Crashed e, m, w'), [])).
Proof.
  unfold observe, Legacy.writeFileToContainer, emitRequests. step_run.
  destruct (userContainers m !! userId) as [c|]; step_run.
  - repeat answer_step; eexists;
      first [ left; reflexivity
            | right; left; eexists; reflexivity
            | right; right; eexists; reflexivity ].
  - eexists. left. reflexivity.
Qed.

Lemma observe_Legacy_cleanup (E : Environment) (w : world E) (m : Manager)
  (userId : jsstr) :
  exists w',
    observe E (Legacy.cleanupDuplicateFiles userId) m w = ((Returned tt, m, w'), []).
Proof.
  unfold observe, Legacy.cleanupDuplicateFiles, emitRequests. step_run.
  destruct (userContainers m !! userId) as [c|]; step_run.
  - repeat answer_step; eexists; reflexivity.
  - eexists. reflexivity.
Qed.

(** The body of the ['file:save'] listener of the earlier generation, before
    its [catch]. *)
Lemma observe_Legacy_save_body (E : Environment) (w : world E) (m : Manager)
  (userId fixedPath content : jsstr) :
  emitsResolve E ->
  let body : M unit :=
    Legacy.handleFileChange userId fixedPath content;;
    Legacy.cleanupDuplicateFiles userId;;
    container ← getContainer userId;
    match container with
    | Some c =>
        syncExec ← await (ContainerExec c (mkExec [js "sync"] false false false false None));
        _ ← await (ExecStart syncExec (mkStart false false false));
        Ret tt
    | None => Ret tt
    end;;
    await (SocketEmit (FileSaved fixedPath true None));;
    await (SocketEmit FileRefresh) in
  exists w',
    observe E body m w = ((Returned tt, m, w'), [FileSaved fixedPath true None; FileRefresh])
    \/ (exists e, observe E body m w = ((Threw e, m, w'), []))
    \/ (exists e, observe E body m w = ((Crashed e, m, w'), [])).
Proof.
  intros Hemit body. subst body.
  unfold Legacy.handleFileChange, mbind, prog_bind.
  rewrite observe_bind, observe_try_catch.
  destruct (observe_Legacy_write E w m userId fixedPath content)
    as (w1 & [-> | [(e & ->) | (e & ->)]]).
  2:{ rewrite observe_throw. exists w1. right. left. exists e. reflexivity. }
  2:{ exists w1. right. right. exists e. reflexivity. }
  rewrite observe_bind.
  destruct (observe_Legacy_cleanup E w1 m userId) as (w2 & ->). cbn [fst snd app].
  rewrite observe_bind, observe_getContainer. cbn [fst snd app].
  rewrite observe_bind.
  destruct (observe_sync E w2 m (userContainers m !! userId)) as (w3 & [Hs | (e & Hs)]);
    cbv zeta in Hs; unfold mbind, prog_bind in Hs; rewrite Hs; cbn [fst snd app].
  2:{ exists w3. right. left. by exists e. }
  rewrite observe_bind.
  destruct (observe_emit E (FileSaved fixedPath true None) m w3 Hemit) as (w5 & ->).
  destruct (observe_emit E FileRefresh m w5 Hemit) as (w6 & ->).
  exists w6. by left.
Qed.

(** The ['file:save'] listeners, in a runtime where emitting succeeds.  In
    the earlier generation, whatever else the runtime answers, the registry
    is left as it is and, unless an unhandled error of the stream that
    verifies the write crashes the process, the listener returns normally
    having emitted exactly one [file:saved] event: success for the repaired
    path followed by [file:refresh], or failure for the repaired path with
    the message of the error; a rejected archive injection is answered with
    the message of the rejection.  In the current generation, whatever the
    [handleFileChange] it is given does, an error that method throws is
    answered with [file:saved] for the path as received, not the repaired
    one, with the message of the error, and nothing else is asked of the
    runtime. *)
Theorem manual_save_acknowledged (E : Environment) (w : world E) (m : Manager)
  (userId path content : jsstr) :
  emitsResolve E ->
  let fixedPath := LegacySocket.fixedPath path in
  let r := run E (LegacySocket.onFileSave userId path content) m w in
  let events :=
    emitRequests (Trace.requests E (LegacySocket.onFileSave userId path content) m w) in
  r.1.2 = m
  /\ ((r.1.1 = Returned tt /\ events = [FileSaved fixedPath true None; FileRefresh])
      \/ (exists msg, r.1.1 = Returned tt /\ events = [FileSaved fixedPath false (Some msg)])
      \/ (exists e, r.1.1 = Crashed e /\ events = []))
  /\ (forall container e w1,
        userContainers m !! userId = Some container ->
        respond E _ w (PutArchive container (legacyEntry fixedPath content) (js "/workspace"))
        = (Rejected e, w1) ->
        r.1.1 = Returned tt /\ events = [FileSaved fixedPath false (Some (message e))])
  /\ (forall (NumberToString : jsstr -> jsstr)
             (handleFileChange : jsstr -> jsstr -> jsstr -> M unit) e m' w',
        run E (handleFileChange userId (fixIncompleteExtension path)
                 (Index.ultraCleanContent NumberToString content
                    (fixIncompleteExtension path))) m w
        = (Threw e, m', w') ->
        Trace.requests E
          (Socket.onFileSave NumberToString handleFileChange userId path content) m w
        = Trace.requests E
            (handleFileChange userId (fixIncompleteExtension path)
               (Index.ultraCleanContent NumberToString content
                  (fixIncompleteExtension path))) m w
          ++ [Trace.request (SocketEmit (FileSaved path false (Some (message e))))]).
Proof.
  intros Hemit fixedPath r events. subst r events.
  change (run E (LegacySocket.onFileSave userId path content) m w)
    with (observe E (LegacySocket.onFileSave userId path content) m w).1.
  change (emitRequests
            (Trace.requests E (LegacySocket.onFileSave userId path content) m w))
    with (observe E (LegacySocket.onFileSave userId path content) m w).2.
  split; [|split; [|split]].
  - unfold LegacySocket.onFileSave. cbv zeta. fold fixedPath. rewrite observe_try_catch.
    destruct (observe_Legacy_save_body E w m userId fixedPath content Hemit)
      as (w1 & [H | [(e & H) | (e & H)]]); cbv zeta in H; rewrite H; [done| |done].
    destruct (observe_emit E (FileSaved fixedPath false (Some (message e))) m w1 Hemit)
      as (w2 & ->). done.
  - unfold LegacySocket.onFileSave. cbv zeta. fold fixedPath. rewrite observe_try_catch.
    destruct (observe_Legacy_save_body E w m userId fixedPath content Hemit)
      as (w1 & [H | [(e & H) | (e & H)]]); cbv zeta in H; rewrite H.
    + by left.
    + destruct (observe_emit E (FileSaved fixedPath false (Some (message e))) m w1 Hemit)
        as (w2 & ->). right. left. by exists (message e).
    + right. right. by exists e.
  - intros container e w1 Hc Hput.
    unfold LegacySocket.onFileSave. cbv zeta. fold fixedPath.
    rewrite observe_try_catch.
    unfold Legacy.handleFileChange, mbind, prog_bind.
    rewrite observe_bind, observe_try_catch.
    assert (observe E (Legacy.writeFileToContainer userId fixedPath content) m w
            = ((Threw e, m, w1), [])) as ->.
    { unfold observe, Legacy.writeFileToContainer, emitRequests. step_run. rewrite Hc.
      step_run. unfold legacyEntry in Hput. cbv zeta in Hput. by rewrite Hput. }
    rewrite observe_throw. cbn [fst snd app].
    destruct (observe_emit E (FileSaved fixedPath false (Some (message e))) m w1 Hemit)
      as (w2 & ->). done.
  - intros N2S handle e m' w' Hthrow. unfold Socket.onFileSave. cbv zeta.
    unfold mbind, prog_bind.
    rewrite requests_try_catch, requests_bind, run_bind, Hthrow, app_nil_r.
    f_equal. cbn [await Trace.requests].
    by destruct (respond E _ w' _) as [[[]|e0] w2].
Qed.

Lemma FileStore_emitsResolve : emitsResolve FileStore.runtime.
Proof. intros w event. reflexivity. Qed.

Lemma manual_save_acknowledged_witness :
  emitRequests
    (Trace.requests FileStore.runtime
       (LegacySocket.onFileSave (js "s1") (js "app.j") (js "x"))
       (mkManager {[ js "s1" := 7 ]} ∅) FileStore.emptyWorld)
  = [FileSaved (js "app.js") true None; FileRefresh]
  /\ Trace.requests FileStore.runtime
       (Socket.onFileSave (fun l => l) (writeFileToContainer (fun l => l))
          (js "ghost") (js "app.j") (js "x"))
       (mkManager ∅ ∅) FileStore.emptyWorld
     = [Trace.request
          (SocketEmit (FileSaved (js "app.j") false (Some (js "Container not found"))))].
Proof.
  split.
  - destruct (manual_save_acknowledged FileStore.runtime FileStore.emptyWorld
                (mkManager {[ js "s1" := 7 ]} ∅) (js "s1") (js "app.j") (js "x")
                FileStore_emitsResolve) as (_ & [[_ H] | [(msg & _ & H) | (e & H & _)]] & _).
    + exact H.
    + exfalso. revert H. vm_compute. discriminate.
    + exfalso. revert H. vm_compute. discriminate.
  - destruct (manual_save_acknowledged FileStore.runtime FileStore.emptyWorld
                (mkManager ∅ ∅) (js "ghost") (js "app.j") (js "x")
                FileStore_emitsResolve) as (_ & _ & _ & H).
    apply (H (fun l => l) (writeFileToContainer (fun l => l))
             (newError (js "Container not found")) (mkManager ∅ ∅) FileStore.emptyWorld).
    reflexivity.
Defined.

(** The ['file:save'] listener of the earlier generation, for a session
    without a container: the write returns without writing, so the listener
    asks nothing of the runtime and answers [file:saved] with success for the
    repaired path, then [file:refresh]. *)
Theorem legacy_save_without_container (E : Environment) (w : world E) (m : Manager)
  (userId path content : jsstr) :
  emitsResolve E ->
  userContainers m !! userId = None ->
  Trace.requests E (LegacySocket.onFileSave userId path content) m w
  = [ Trace.request (SocketEmit (FileSaved (LegacySocket.fixedPath path) true None));
      Trace.request (SocketEmit FileRefresh) ]
  /\ (run E (LegacySocket.onFileSave userId path content) m w).1 = (Returned tt, m).
Proof.
  intros Hemit Hnone.
  unfold LegacySocket.onFileSave, Legacy.handleFileChange, Legacy.writeFileToContainer,
    Legacy.cleanupDuplicateFiles, getContainer.
  step_run. rewrite Hnone. step_run. rewrite Hnone. step_run. rewrite Hnone. step_run.
  pose proof (Hemit w (FileSaved (LegacySocket.fixedPath path) true None)) as H1.
  destruct (respond E _ w (SocketEmit (FileSaved (LegacySocket.fixedPath path) true None)))
    as [r1 w1]. cbn [fst] in H1. subst r1. step_run.
  pose proof (Hemit w1 FileRefresh) as H2.
  destruct (respond E _ w1 (SocketEmit FileRefresh)) as [r2 w2]. cbn [fst] in H2. subst r2.
  by step_run.
Qed.

Lemma legacy_save_without_container_witness :
  Trace.requests FileStore.runtime
    (LegacySocket.onFileSave (js "ghost") (js "a.j") (js "x"))
    (mkManager ∅ ∅) FileStore.emptyWorld
  = [ Trace.request (SocketEmit (FileSaved (js "a.js") true None));
      Trace.request (SocketEmit FileRefresh) ].
Proof.
  assert (userContainers (mkManager ∅ ∅) !! js "ghost" = None) as Hnone
    by (vm_compute; reflexivity).
  destruct (legacy_save_without_container FileStore.runtime FileStore.emptyWorld
              (mkManager ∅ ∅) (js "ghost") (js "a.j") (js "x") FileStore_emitsResolve
              Hnone) as [H _].
  exact H.
Defined.

(** ** The two copies of the cleaner *)

Lemma filter_whitelisted_without_CR (content : jsstr) :
  List.filter (fun c => whitelisted c || (c =? 13)) (removeAll (fun c => c =? 13) content)
  = List.filter whitelisted content.
Proof.
  unfold removeAll. induction content as [|c content IH]; [done|].
  cbn [List.filter]. destruct (c =? 13) eqn:E13; cbn [negb].
  - apply N.eqb_eq in E13. subst c. exact IH.
  - cbn [List.filter]. rewrite E13, orb_false_r.
    destruct (whitelisted c); by rewrite IH.
Qed.

Lemma filter_whitelisted_no_CR (content : jsstr) :
  forallb (fun c => negb (c =? 13)) (List.filter whitelisted content) = true.
Proof.
  apply forallb_forall. intros c Hc. apply filter_In in Hc as [_ Hc].
  by apply whitelisted_no_CR.
Qed.

(** The cleaner of [DockerManager] gives for a content what the cleaner of
    the socket layer gives for that content without its carriage returns
    (the one drops a lone carriage return, the other turns it into a line
    feed).  The one exception: on a JSON path, a content of carriage returns
    only is replaced by a fallback text by [DockerManager] and by the empty
    text by the socket layer. *)
Theorem cleaners_differ_by_carriage_returns (NumberToString : jsstr -> jsstr)
  (content filePath : jsstr) :
  jsonPath filePath = false
  \/ (removeAll (fun c => c =? 13) content = [] -> content = []) ->
  DockerManager.ultraCleanContent NumberToString content filePath
  = Index.ultraCleanContent NumberToString (removeAll (fun c => c =? 13) content) filePath.
Proof.
  intros Hcond.
  rewrite manager_ultraCleanContent_unfold, index_ultraCleanContent_unfold.
  assert (indexCleaned (removeAll (fun c => c =? 13) content) = managerCleaned content) as Hsame.
  { rewrite indexCleaned_filter, managerCleaned_filter, filter_whitelisted_without_CR.
    rewrite replaceCRLF_fixed, replaceCR_fixed; try done; apply filter_whitelisted_no_CR. }
  rewrite Hsame.
  destruct content as [|c content]; [done|]. cbn [falsy].
  destruct (removeAll (fun c => c =? 13) (c :: content)) as [|d stripped] eqn:Es;
    cbn [falsy]; [|done].
  destruct Hcond as [Hj|Hne]; [|by specialize (Hne eq_refl)].
  rewrite Hj, <- Hsame. reflexivity.
Qed.

Lemma cleaners_differ_by_carriage_returns_witness :
  DockerManager.ultraCleanContent (fun l => l) [97; 13; 98] (js "notes.txt") = [97; 98]
  /\ Index.ultraCleanContent (fun l => l) [97; 13; 98] (js "notes.txt") = [97; 10; 98].
Proof.
  split; [|reflexivity].
  rewrite (cleaners_differ_by_carriage_returns (fun l => l) [97; 13; 98] (js "notes.txt"));
    [reflexivity|]. left. reflexivity.
Defined.

(** ** The sanitizer of the earlier generation *)

Lemma not_surrogate_65533 :
  JSON.is_high_surrogate 65533 = false /\ JSON.is_low_surrogate 65533 = false.
Proof. split; reflexivity. Qed.

Lemma reencode_twice (s : jsstr) :
  Legacy.reencode (Legacy.reencode s) = Legacy.reencode s.
Proof.
  assert (forall s, Legacy.reencode (Legacy.reencode s) = Legacy.reencode s
                    /\ (forall c, Legacy.reencode (Legacy.reencode (c :: s))
                                  = Legacy.reencode (c :: s))) as H.
  { clear s. induction s as [|d s [IH1 IH2]]; (split; [done || apply IH2|]); intros c.
    - cbn [Legacy.reencode].
      destruct (JSON.is_high_surrogate c) eqn:Eh; [reflexivity|].
      destruct (JSON.is_low_surrogate c) eqn:El; [reflexivity|].
      cbn [Legacy.reencode]. by rewrite Eh, El.
    - rewrite reencode_cons.
      destruct (JSON.is_high_surrogate c) eqn:Eh.
      + destruct (JSON.is_low_surrogate d) eqn:El.
        * rewrite reencode_cons, Eh, El. by rewrite IH1.
        * change (Legacy.reencode (65533 :: Legacy.reencode (d :: s)))
            with (65533 :: Legacy.reencode (Legacy.reencode (d :: s))).
          by rewrite IH2.
      + destruct (JSON.is_low_surrogate c) eqn:El.
        * change (Legacy.reencode (65533 :: Legacy.reencode (d :: s)))
            with (65533 :: Legacy.reencode (Legacy.reencode (d :: s))).
          by rewrite IH2.
        * assert (Legacy.reencode (c :: Legacy.reencode (d :: s))
                  = c :: Legacy.reencode (Legacy.reencode (d :: s))) as ->.
          { destruct (Legacy.reencode (d :: s)) as [|x xs].
            - cbn [Legacy.reencode]. by rewrite Eh, El.
            - rewrite reencode_cons. by rewrite Eh, El. }
          by rewrite IH2. }
  apply H.
Qed.

Lemma removeAll_controls_fixed (s : jsstr) :
  forallb (fun c => negb (Legacy.unicodeControl c)) s = true ->
  removeAll Legacy.unicodeControl (removeAll Legacy.asciiControl s) = s.
Proof.
  intros H. rewrite (removeAll_fixed Legacy.asciiControl).
  - by apply removeAll_fixed.
  - eapply forallb_impl; [|exact H]. intros c Hc.
    apply negb_true_iff. apply negb_true_iff in Hc.
    destruct (Legacy.asciiControl c) eqn:E; [|done].
    by rewrite (ascii_control_is_unicode_control c E) in Hc.
Qed.

(** The sanitizer of the earlier [writeFileToContainer] is idempotent, and
    it absorbs the cleaning [POST /files/create] applies before the write:
    the file holds the same bytes whether or not the route cleaned first. *)
Theorem legacy_sanitize_idempotent (content : jsstr) (requestContent : option jsstr) :
  Legacy.sanitize (Legacy.sanitize content) = Legacy.sanitize content
  /\ Legacy.sanitize (LegacySocket.createContent requestContent)
     = Legacy.sanitize (default [] requestContent).
Proof.
  split.
  - pose proof (Legacy_sanitize_noControl content) as Hno.
    assert (forallb (fun c => negb (Legacy.unicodeControl c)) (Legacy.sanitize content) = true)
      as Huni.
    { eapply forallb_impl; [|exact Hno]. unfold noControl. intros c Hc.
      by apply andb_true_iff in Hc as [Hc _]. }
    assert (forallb (fun c => negb (c =? 13)) (Legacy.sanitize content) = true) as Hcr.
    { eapply forallb_impl; [|exact Hno]. unfold noControl. intros c Hc.
      by apply andb_true_iff in Hc as [_ Hc]. }
    unfold Legacy.sanitize at 1. cbv zeta.
    rewrite (removeAll_controls_fixed _ Huni), (replaceCRLF_fixed _ Hcr),
      (replaceCR_fixed _ Hcr).
    unfold Legacy.sanitize. cbv zeta. apply reencode_twice.
  - unfold LegacySocket.createContent, Legacy.sanitize. cbv zeta.
    rewrite (removeAll_controls_fixed
               (removeAll Legacy.unicodeControl
                  (removeAll Legacy.asciiControl (default [] requestContent)))); [done|].
    apply forallb_removeAll_self.
Qed.

(** ** Session ids *)

Lemma js_inj (s s' : string) : js s = js s' -> s = s'.
Proof.
  unfold js. intros H.
  apply (f_equal (List.map ascii_of_N)) in H.
  rewrite !List.map_map in H.
  rewrite !(map_ext _ (fun a => a) ascii_N_embedding), !map_id in H.
  apply (f_equal string_of_list_ascii) in H.
  by rewrite !string_of_list_ascii_of_string in H.
Qed.

Lemma to_uint_nonnil (n : N) : N.to_uint n <> Decimal.Nil.
Proof. destruct n as [|p]; [done|]. apply DecimalPos.Unsigned.to_uint_nonnil. Qed.

Lemma decimal_inj (n n' : N) : Socket.decimal n = Socket.decimal n' -> n = n'.
Proof.
  unfold Socket.decimal. intros H. apply js_inj in H.
  apply DecimalN.Unsigned.to_uint_inj.
  pose proof (to_uint_nonnil n) as Hn. pose proof (to_uint_nonnil n') as Hn'.
  assert (forall d, d <> Decimal.Nil ->
                    NilZero.string_of_uint d = NilEmpty.string_of_uint d) as Hz
    by (intros d Hd; by destruct d).
  rewrite !Hz in H by done.
  apply (f_equal NilEmpty.uint_of_string) in H.
  rewrite !NilEmpty.usu in H. by injection H.
Qed.

Lemma decimal_digits (n : N) : forallb JSON.is_digit (Socket.decimal n) = true.
Proof.
  unfold Socket.decimal.
  assert (forall d, forallb JSON.is_digit (js (NilEmpty.string_of_uint d)) = true) as H.
  { induction d; [done|..]; unfold js in *; cbn [NilEmpty.string_of_uint list_ascii_of_string
                                                 List.map forallb]; by rewrite IHd. }
  destruct (N.to_uint n) eqn:E; [done|..]; rewrite <- E;
    (assert (NilZero.string_of_uint (N.to_uint n) = NilEmpty.string_of_uint (N.to_uint n))
       as -> by (by rewrite E)); apply H.
Qed.

Lemma hex_digit_inj (d d' : N) :
  d < 16 -> d' < 16 -> JSON.hex_digit d = JSON.hex_digit d' -> d = d'.
Proof.
  unfold JSON.hex_digit. intros Hd Hd'.
  destruct (d <? 10) eqn:E; destruct (d' <? 10) eqn:E';
    try apply N.ltb_lt in E; try apply N.ltb_lt in E';
    try apply N.ltb_ge in E; try apply N.ltb_ge in E'; lia.
Qed.

Lemma hex_digit_alphabet (d : N) :
  d < 16 -> JSON.is_digit (JSON.hex_digit d) || JSON.is_lower (JSON.hex_digit d) = true.
Proof.
  unfold JSON.hex_digit, JSON.is_digit, JSON.is_lower. intros Hd.
  destruct (d <? 10) eqn:E.
  - apply N.ltb_lt in E. apply orb_true_iff. left.
    apply andb_true_iff. split; apply N.leb_le; lia.
  - apply N.ltb_ge in E. apply orb_true_iff. right.
    apply andb_true_iff. split; apply N.leb_le; lia.
Qed.

Lemma hexByte_inj (b b' : N) :
  b < 256 -> b' < 256 -> Socket.hexByte b = Socket.hexByte b' -> b = b'.
Proof.
  unfold Socket.hexByte. intros Hb Hb' [= Hq Hr].
  apply hex_digit_inj in Hq; [|apply N.Div0.div_lt_upper_bound; lia..].
  apply hex_digit_inj in Hr; [|apply N.mod_lt; lia..].
  rewrite (N.div_mod b 16), (N.div_mod b' 16) by lia. by rewrite Hq, Hr.
Qed.

(** An id is [user], the decimal digits of the clock and six hexadecimal
    digits: it is made of lower-case letters and digits only, it is never
    empty, and two ids are the same only when the clock values and the three
    random bytes are. *)
Theorem generateCleanUserId_injective (now now' : N) (random random' : list N) :
  length random = 3%nat -> length random' = 3%nat ->
  forallb (fun b => b <? 256) random = true ->
  forallb (fun b => b <? 256) random' = true ->
  (Socket.generateCleanUserId now random = Socket.generateCleanUserId now' random' ->
   now = now' /\ random = random')
  /\ forallb (fun c => JSON.is_digit c || JSON.is_lower c)
             (Socket.generateCleanUserId now random) = true
  /\ falsy (Socket.generateCleanUserId now random) = false.
Proof.
  intros Hl Hl' Hb Hb'.
  destruct random as [|b1 [|b2 [|b3 [|]]]]; try done.
  destruct random' as [|c1 [|c2 [|c3 [|]]]]; try done.
  cbn [forallb] in Hb, Hb'.
  repeat match goal with
         | H : (_ && _) = true |- _ => apply andb_true_iff in H as [? H]
         | H : (_ <? _) = true |- _ => apply N.ltb_lt in H
         end.
  unfold Socket.generateCleanUserId. split; [|split].
  - intros E. apply app_inv_head in E.
    apply app_inj_2 in E as [En Eh]; [|reflexivity].
    apply decimal_inj in En. split; [done|].
    cbn [List.map concat app] in Eh. unfold Socket.hexByte in Eh. cbn [app] in Eh.
    injection Eh as E1 E1' E2 E2' E3 E3'.
    f_equal; [|f_equal; [|f_equal]]; apply hexByte_inj; try done;
      unfold Socket.hexByte; congruence.
  - rewrite !forallb_app. apply andb_true_iff. split; [reflexivity|].
    apply andb_true_iff. split.
    + eapply forallb_impl; [|apply decimal_digits]. intros c ->. done.
    + cbn [List.map concat app]. unfold Socket.hexByte. cbn [app forallb].
      rewrite !hex_digit_alphabet; [done|..];
        first [apply N.Div0.div_lt_upper_bound; lia | apply N.mod_lt; lia].
  - reflexivity.
Qed.

Lemma generateCleanUserId_injective_witness :
  Socket.generateCleanUserId 1700000000000 [171; 5; 255] = js "user1700000000000ab05ff"
  /\ forallb (fun c => JSON.is_digit c || JSON.is_lower c)
             (Socket.generateCleanUserId 1700000000000 [171; 5; 255]) = true.
Proof.
  split; [reflexivity|].
  apply (generateCleanUserId_injective 1700000000000 1700000000000
           [171; 5; 255] [171; 5; 255]); reflexivity.
Defined.

(** ** The path of a created file or directory *)

Lemma stripSlashes_ends (s : jsstr) :
  startsWith (Socket.stripSlashes s) (js "/") = false
  /\ endsWith (Socket.stripSlashes s) (js "/") = false.
Proof.
  unfold Socket.stripSlashes, Listing.stripTrailingSlashes, Listing.stripLeadingSlashes.
  split.
  - destruct (Listing.dropTrailing Listing.is_slash (Listing.dropLeading Listing.is_slash s))
      as [|c t] eqn:E; [done|].
    destruct (dropTrailing_prefix Listing.is_slash (Listing.dropLeading Listing.is_slash s))
      as [run H].
    rewrite E in H. simpl in H. apply dropLeading_stops in H.
    change (startsWith (c :: t) (js "/")) with ((c =? 47) && true).
    unfold Listing.is_slash in H. by rewrite H.
  - destruct (endsWith _ (js "/")) eqn:E; [|done].
    destruct (endsWith_inv _ _ E) as [r Hr].
    assert (Listing.is_slash 47 = false); [|done].
    apply (dropTrailing_stops Listing.is_slash (Listing.dropLeading Listing.is_slash s)).
    rewrite Hr. apply last_snoc.
Qed.

(** [fullPath] of [POST /files/create]: a parent path that is blank leaves
    the request path as it is, leading slash included; under any other
    parent the path does not begin with a slash, is the request path without
    its leading and trailing slashes when the parent holds slashes only, and
    does not end in a slash unless nothing but slashes was requested. *)
Theorem created_path (parentPath requestPath : jsstr) :
  (Listing.trim parentPath = [] ->
   Socket.fullPath parentPath requestPath = requestPath)
  /\ (Listing.trim parentPath <> [] ->
      startsWith (Socket.fullPath parentPath requestPath) (js "/") = false
      /\ (Socket.stripSlashes parentPath = [] ->
          Socket.fullPath parentPath requestPath = Socket.stripSlashes requestPath)
      /\ (Socket.stripSlashes requestPath <> [] ->
          endsWith (Socket.fullPath parentPath requestPath) (js "/") = false)).
Proof.
  unfold Socket.fullPath. cbv zeta. split.
  - by intros ->.
  - intros Hp. rewrite (falsy_false _ Hp). cbn [negb].
    destruct (stripSlashes_ends parentPath) as [Hps _].
    destruct (stripSlashes_ends requestPath) as [Hrs Hre].
    destruct (Socket.stripSlashes parentPath) as [|c t] eqn:Ep; cbn [falsy negb].
    + split; [done|]. split; [done|]. done.
    + split; [|split; [done|]].
      * change (startsWith ((c :: t) ++ js "/" ++ Socket.stripSlashes requestPath) (js "/"))
          with (startsWith (c :: t) (js "/")). done.
      * intros Hr.
        destruct (endsWith ((c :: t) ++ js "/" ++ Socket.stripSlashes requestPath) (js "/"))
          eqn:E; [|done].
        destruct (endsWith_inv _ _ E) as [r Hr'].
        apply (f_equal last) in Hr'.
        assert (last (r ++ js "/") = Some 47) as Hl by apply (last_snoc 47 r).
        rewrite Hl in Hr'. rewrite !last_app in Hr'.
        destruct (last (Socket.stripSlashes requestPath)) as [d|] eqn:El;
          [|by apply last_None in El].
        injection Hr' as ->. apply last_Some in El as [l El].
        rewrite El in Hre. change [47] with (js "/") in Hre.
        by rewrite endsWith_app in Hre.
Qed.

Lemma created_path_witness :
  Socket.fullPath (js "/src/") (js "/app.js/") = js "src/app.js"
  /\ startsWith (Socket.fullPath (js "/src/") (js "/app.js/")) (js "/") = false.
Proof.
  split; [reflexivity|].
  destruct (created_path (js "/src/") (js "/app.js/")) as [_ H].
  destruct H as [H _]; [vm_compute; discriminate | exact H].
Defined.

(** ** Running the listings *)

Lemma dropLeading_all (class : N -> bool) (s : jsstr) :
  forallb class s = true -> Listing.dropLeading class s = [].
Proof.
  induction s as [|c s IH]; [done|]. cbn [forallb]. intros H.
  apply andb_true_iff in H as [Hc Hs]. simpl. rewrite Hc. by apply IH.
Qed.

(** [listFiles] and [listDirectory] for a session with a container: one
    [ls -la] is asked for, on [/workspace] or on the directory path without
    its leading and trailing slashes under [/workspace/] (on [/workspace]
    itself when the path is absent or holds slashes only); when the stream
    ends the method returns what the text parses to, without asking for the
    exit code of [ls]; a rejected [container.exec] or [exec.start] and an
    error of the stream are thrown as they are, by both methods. *)
Theorem listings_outcome (valid : list jsstr) (E : Environment) (w : world E)
  (m : Manager) (userId : jsstr) (directoryPath : option jsstr) (container : Container) :
  userContainers m !! userId = Some container ->
  let cleanPath :=
    Listing.stripTrailingSlashes (Listing.stripLeadingSlashes (default [] directoryPath)) in
  let target := if falsy cleanPath then js "/workspace" else js "/workspace/" ++ cleanPath in
  let ls := fun dir => ContainerExec container (plainExec [js "ls"; js "-la"; dir]) in
  let directory := Listing.listDirectory valid userId directoryPath in
  let files := Listing.listFiles valid userId in
  execRequests (Trace.requests E directory m w) = [(container, [js "ls"; js "-la"; target])]
  /\ execRequests (Trace.requests E files m w)
     = [(container, [js "ls"; js "-la"; js "/workspace"])]
  /\ (forallb Listing.is_slash (default [] directoryPath) = true -> target = js "/workspace")
  /\ (forall exec stream chunks w1 w2 w3,
        respond E _ w (ls target) = (Resolved exec, w1) ->
        respond E _ w1 (ExecStart exec plainStart) = (Resolved stream, w2) ->
        respond E _ w2 (StreamData stream) = (Resolved chunks, w3) ->
        run E directory m w
        = (Returned (Listing.parseDirectory valid (concat chunks)), m, w3))
  /\ (forall exec stream chunks w1 w2 w3,
        respond E _ w (ls (js "/workspace")) = (Resolved exec, w1) ->
        respond E _ w1 (ExecStart exec plainStart) = (Resolved stream, w2) ->
        respond E _ w2 (StreamData stream) = (Resolved chunks, w3) ->
        run E files m w = (Returned (Listing.parseFiles valid (concat chunks)), m, w3))
  /\ (forall exec stream e w1 w2 w3,
        respond E _ w (ls target) = (Resolved exec, w1) ->
        respond E _ w1 (ExecStart exec plainStart) = (Resolved stream, w2) ->
        respond E _ w2 (StreamData stream) = (Rejected e, w3) ->
        run E directory m w = (Threw e, m, w3))
  /\ (forall exec stream e w1 w2 w3,
        respond E _ w (ls (js "/workspace")) = (Resolved exec, w1) ->
        respond E _ w1 (ExecStart exec plainStart) = (Resolved stream, w2) ->
        respond E _ w2 (StreamData stream) = (Rejected e, w3) ->
        run E files m w = (Threw e, m, w3))
  /\ (forall e w1,
        respond E _ w (ls target) = (Rejected e, w1) -> run E directory m w = (Threw e, m, w1))
  /\ (forall e w1,
        respond E _ w (ls (js "/workspace")) = (Rejected e, w1) ->
        run E files m w = (Threw e, m, w1))
  /\ (forall exec e w1 w2,
        respond E _ w (ls target) = (Resolved exec, w1) ->
        respond E _ w1 (ExecStart exec plainStart) = (Rejected e, w2) ->
        run E directory m w = (Threw e, m, w2))
  /\ (forall exec e w1 w2,
        respond E _ w (ls (js "/workspace")) = (Resolved exec, w1) ->
        respond E _ w1 (ExecStart exec plainStart) = (Rejected e, w2) ->
        run E files m w = (Threw e, m, w2)).
Proof.
  intros Hc cleanPath target ls directory files. subst ls directory files.
  repeat match goal with |- _ /\ _ => split end.
  - unfold Listing.listDirectory, execRequests. step_run. rewrite Hc. step_run.
    fold cleanPath. fold target. repeat answer_step; reflexivity.
  - unfold Listing.listFiles, execRequests. step_run. rewrite Hc. step_run.
    repeat answer_step; reflexivity.
  - intros Hall. subst target cleanPath.
    unfold Listing.stripLeadingSlashes. by rewrite (dropLeading_all _ _ Hall).
  - intros exec stream chunks w1 w2 w3 H1 H2 H3.
    unfold Listing.listDirectory. step_run. rewrite Hc. step_run.
    fold cleanPath. fold target. rewrite H1. step_run. rewrite H2. step_run.
    by rewrite H3.
  - intros exec stream chunks w1 w2 w3 H1 H2 H3.
    unfold Listing.listFiles. step_run. rewrite Hc. step_run.
    rewrite H1. step_run. rewrite H2. step_run. by rewrite H3.
  - intros exec stream e w1 w2 w3 H1 H2 H3.
    unfold Listing.listDirectory. step_run. rewrite Hc. step_run.
    fold cleanPath. fold target. rewrite H1. step_run. rewrite H2. step_run.
    by rewrite H3.
  - intros exec stream e w1 w2 w3 H1 H2 H3.
    unfold Listing.listFiles. step_run. rewrite Hc. step_run.
    rewrite H1. step_run. rewrite H2. step_run. by rewrite H3.
  - intros e w1 H1.
    unfold Listing.listDirectory. step_run. rewrite Hc. step_run.
    fold cleanPath. fold target. by rewrite H1.
  - intros e w1 H1.
    unfold Listing.listFiles. step_run. rewrite Hc. step_run. by rewrite H1.
  - intros exec e w1 w2 H1 H2.
    unfold Listing.listDirectory. step_run. rewrite Hc. step_run.
    fold cleanPath. fold target. rewrite H1. step_run. by rewrite H2.
  - intros exec e w1 w2 H1 H2.
    unfold Listing.listFiles. step_run. rewrite Hc. step_run.
    rewrite H1. step_run. by rewrite H2.
Qed.

Lemma listings_outcome_witness :
  run (Trace.replay [js "ls: cannot access '/workspace/gone': No such file or directory"]
                    (Some 2%Z))
      (Listing.listDirectory Listing.validSingleExtensions (js "s1") (Some (js "//gone/")))
      (mkManager {[ js "s1" := 7 ]} ∅) tt
  = (Returned [], mkManager {[ js "s1" := 7 ]} ∅, tt).
Proof.
  assert (userContainers (mkManager {[ js "s1" := 7 ]} ∅) !! js "s1" = Some 7) as Hc
    by (vm_compute; reflexivity).
  destruct (listings_outcome Listing.validSingleExtensions
              (Trace.replay [js "ls: cannot access '/workspace/gone': No such file or directory"]
                            (Some 2%Z)) tt
              (mkManager {[ js "s1" := 7 ]} ∅) (js "s1") (Some (js "//gone/")) 7 Hc)
    as (_ & _ & _ & H & _).
  apply (H 0 0 [js "ls: cannot access '/workspace/gone': No such file or directory"] tt tt tt);
    reflexivity.
Defined.

(** ** The two generations of reading and writing *)

(** The read of the current [DockerManager] is the read of the earlier one
    on the repaired path, followed by the cleaner (which is given the path
    as received): the runtime is asked for the same calls, a failure is the
    same error, and only a text that is returned differs. *)
Theorem read_generations (NumberToString : jsstr -> jsstr) (E : Environment)
  (w : world E) (m : Manager) (userId filePath : jsstr) :
  run E (readFileFromContainer NumberToString userId filePath) m w
  = match run E (Legacy.readFileFromContainer userId (fixIncompleteExtension filePath)) m w with
    | (Returned output, m', w') =>
        (Returned (DockerManager.ultraCleanContent NumberToString output filePath), m', w')
    | other => other
    end
  /\ Trace.requests E (readFileFromContainer NumberToString userId filePath) m w
     = Trace.requests E (Legacy.readFileFromContainer userId (fixIncompleteExtension filePath))
         m w.
Proof.
  unfold readFileFromContainer, Legacy.readFileFromContainer. step_run.
  destruct (userContainers m !! userId) as [container|]; [|done]. step_run.
  destruct (respond E _ w _) as [[exec|e] w1]; step_run; [|done].
  destruct (respond E _ w1 _) as [[stream|e] w2]; step_run; [|done].
  destruct (respond E _ w2 _) as [[chunks|e] w3]; step_run; [|done].
  destruct (collect _ chunks) as [output error]. step_run.
  destruct (respond E _ w3 _) as [[exitCode|e] w4]; step_run; [|done].
  by destruct (bool_decide (exitCode = Some 0%Z) && falsy error).
Qed.

(** A write of the earlier [DockerManager] for a session with a container
    is decided by the archive injection too, but a rejection is thrown as
    the runtime gave it (message and status code), where the current
    generation throws a new error; nothing the verification does after the
    injection makes the write throw. *)
Theorem legacy_write_outcome (E : Environment) (w : world E) (m : Manager)
  (userId filePath content : jsstr) (container : Container) :
  userContainers m !! userId = Some container ->
  let bytes := utf8_encode (Legacy.sanitize content) in
  let put := PutArchive container
               (mkEntry (stripLeadingSlash filePath) (List.length bytes) 420 bytes)
               (js "/workspace") in
  (forall e w1, respond E _ w put = (Rejected e, w1) ->
     run E (Legacy.writeFileToContainer userId filePath content) m w = (Threw e, m, w1))
  /\ (forall w1, respond E _ w put = (Resolved tt, w1) ->
        forall e, (run E (Legacy.writeFileToContainer userId filePath content) m w).1.1
                  <> Threw e).
Proof.
  intros Hc bytes put. subst put bytes.
  unfold Legacy.writeFileToContainer. step_run. rewrite Hc. step_run. split.
  - intros e w1 ->. reflexivity.
  - intros w1 -> e. step_run. repeat answer_step; discriminate.
Qed.

Lemma legacy_write_outcome_witness :
  run (Trace.failing (mkError (js "no space left") (Some 500%Z)))
      (Legacy.writeFileToContainer (js "s1") (js "a.txt") (js "x"))
      (mkManager {[ js "s1" := 7 ]} ∅) tt
  = (Threw (mkError (js "no space left") (Some 500%Z)), mkManager {[ js "s1" := 7 ]} ∅, tt).
Proof.
  assert (userContainers (mkManager {[ js "s1" := 7 ]} ∅) !! js "s1" = Some 7) as Hc
    by (vm_compute; reflexivity).
  destruct (legacy_write_outcome (Trace.failing (mkError (js "no space left") (Some 500%Z)))
              tt (mkManager {[ js "s1" := 7 ]} ∅) (js "s1") (js "a.txt") (js "x") 7 Hc)
    as [H _].
  apply (H (mkError (js "no space left") (Some 500%Z)) tt). reflexivity.
Defined.

(** ** Repeated items of a tree *)

Lemma uniqueFrom_seen (seen seen' items : list jsstr) :
  (forall x, x ∈ seen <-> x ∈ seen') -> uniqueFrom seen items = uniqueFrom seen' items.
Proof.
  revert seen seen'. induction items as [|y items IH]; intros seen seen' H; [done|].
  simpl. destruct (bool_decide (y ∈ seen)) eqn:E.
  - apply bool_decide_eq_true in E. rewrite bool_decide_eq_true_2 by (by apply H).
    by apply IH.
  - apply bool_decide_eq_false in E.
    rewrite bool_decide_eq_false_2 by (intros Hy; by apply E, H).
    f_equal. apply IH. intros x. rewrite !elem_of_cons, H. done.
Qed.

Lemma uniqueFrom_app (seen l1 l2 : list jsstr) :
  uniqueFrom seen (l1 ++ l2) = uniqueFrom seen l1 ++ uniqueFrom (l1 ++ seen) l2.
Proof.
  revert seen. induction l1 as [|y l1 IH]; intros seen; [done|].
  simpl. destruct (bool_decide (y ∈ seen)) eqn:E.
  - apply bool_decide_eq_true in E. rewrite IH. f_equal.
    apply uniqueFrom_seen. intros x. simpl.
    rewrite ?elem_of_cons, ?elem_of_app. intuition (subst; tauto).
  - simpl. rewrite IH. do 2 f_equal.
    apply uniqueFrom_seen. intros x. simpl.
    rewrite ?elem_of_app, ?elem_of_cons, ?elem_of_app. intuition (subst; tauto).
Qed.

Lemma uniqueFrom_all_seen (seen items : list jsstr) :
  (forall x, x ∈ items -> x ∈ seen) -> uniqueFrom seen items = [].
Proof.
  induction items as [|y items IH]; intros H; [done|].
  simpl. rewrite bool_decide_eq_true_2 by (apply H; by left).
  apply IH. intros x Hx. apply H. by right.
Qed.

(** Items that repeat earlier ones add nothing: the tree of a list followed
    by strings that already occur in it is the tree of the list, own keys
    and prototype alike. *)
Theorem toTree_ignores_repeats (items repeats : list jsstr) :
  (forall x, x ∈ repeats -> x ∈ items) ->
  toTree (items ++ repeats) = toTree items.
Proof.
  intros H. unfold toTree, uniqueItems.
  rewrite uniqueFrom_app, (uniqueFrom_all_seen (items ++ []) repeats), app_nil_r; [done|].
  intros x Hx. rewrite app_nil_r. by apply H.
Qed.

Lemma toTree_ignores_repeats_witness :
  toTree ([js "a.txt|f"; js "b|d"] ++ [js "a.txt|f"]) = toTree [js "a.txt|f"; js "b|d"].
Proof.
  apply (toTree_ignores_repeats [js "a.txt|f"; js "b|d"] [js "a.txt|f"]).
  intros x Hx. apply list_elem_of_singleton in Hx as ->. by left.
Defined.
